(** * DroidForge build orchestration: quota ledger, job queue, build pipeline

    A shallow embedding of [src/lib/buildQuota.ts], of the job queue
    ([createJob], [updateJob], [processQueue]: the module [lib/buildQueue],
    which this tree holds at lines 679 to 929 of
    [src/studio/components/EditorLayout.tsx]) and of
    [src/lib/buildRunner.ts], together with the properties the design
    document states about them.

    Conventions.
    - A JavaScript [number] that holds a count or a timestamp is a [Z].
    - A [Record<string, T>] used as a dictionary is a [gmap string T].
    - An optional or nullable field is an [option]; [x || ''] is [orEmpty].
    - The JSON files [usage.json] and [jobs.json] are modelled by the value
      they hold; every function that reads and rewrites one takes the
      value and returns the new one.
    - [new Date()] and [Date.now()] are explicit arguments, one per
      reading; [randomUUID()] is an explicit argument too.
    - Each read-modify-write of a JSON file is one step: the lost updates
      that overlapping file accesses can cause are outside the model. *)

From Stdlib Require Import ZArith Lia List String Ascii Bool.
From stdpp Require Import base option list strings gmap fin_maps.

Import ListNotations.
Local Open Scope string_scope.
Local Open Scope Z_scope.

(** [x || ''] on an optional string. *)
Definition orEmpty (x : option string) : string :=
  match x with Some s => s | None => "" end.

(** Truthiness of a JavaScript string: only the empty string is falsy. *)
Definition truthy (s : string) : bool :=
  match s with EmptyString => false | String _ _ => true end.

(* ===================================================================== *)
(** * Quota ledger ([src/lib/buildQuota.ts]) *)
(* ===================================================================== *)

Module Quota.

Inductive BuildPlan := free | pro | studio.

Record Counts := {
  counts_user : Z;
  counts_device : Z;
  counts_ipHourly : Z
}.

Record QuotaSnapshot := {
  snap_plan : BuildPlan;
  limit : option Z;
  used : Z;
  remaining : option Z;
  weekStart : string;
  weekEnd : string;
  counts : Counts
}.

(** [usage.json]: identity value, then bucket key, then count. *)
Record UsageStore := {
  user : gmap string (gmap string Z);
  device : gmap string (gmap string Z);
  ipHourly : gmap string (gmap string Z)
}.

(** What [ensureStore] writes when the file does not exist. *)
Definition initial : UsageStore :=
  {| user := ∅; device := ∅; ipHourly := ∅ |}.

Inductive Scope := ScopeUser | ScopeDevice.

Definition scopeTable (usage : UsageStore) (scope : Scope)
  : gmap string (gmap string Z) :=
  match scope with ScopeUser => user usage | ScopeDevice => device usage end.

Definition setScopeTable (usage : UsageStore) (scope : Scope)
    (t : gmap string (gmap string Z)) : UsageStore :=
  match scope with
  | ScopeUser => {| user := t; device := device usage; ipHourly := ipHourly usage |}
  | ScopeDevice => {| user := user usage; device := t; ipHourly := ipHourly usage |}
  end.

(** [table[id]?.[key] || 0] *)
Definition bucket (t : gmap string (gmap string Z)) (id key : string) : Z :=
  match t !! id with
  | Some inner => match inner !! key with Some n => n | None => 0 end
  | None => 0
  end.

(** [if (!t[id]) t[id] = {}; t[id][key] = (t[id][key] || 0) + 1] *)
Definition bump (t : gmap string (gmap string Z)) (id key : string)
  : gmap string (gmap string Z) :=
  let inner := match t !! id with Some i => i | None => ∅ end in
  <[id := <[key := match inner !! key with Some n => n | None => 0 end + 1]> inner]> t.

Definition getLimitForPlan (plan : BuildPlan) : option Z :=
  match plan with
  | studio => None
  | pro => Some 15
  | free => Some 3
  end.

Definition getScopeCount (usage : UsageStore) (scope : Scope)
    (id weekKey : string) : Z :=
  if truthy id then bucket (scopeTable usage scope) id weekKey else 0.

Definition incrementScope (usage : UsageStore) (scope : Scope)
    (id weekKey : string) : UsageStore :=
  if truthy id
  then setScopeTable usage scope (bump (scopeTable usage scope) id weekKey)
  else usage.

Definition getIpHourlyCount (usage : UsageStore) (ip hourKey : string) : Z :=
  if truthy ip then bucket (ipHourly usage) ip hourKey else 0.

Definition incrementIpHourly (usage : UsageStore) (ip hourKey : string)
  : UsageStore :=
  if truthy ip
  then {| user := user usage; device := device usage;
          ipHourly := bump (ipHourly usage) ip hourKey |}
  else usage.

Definition IP_HOURLY_LIMIT : Z := 30.

Record Params := {
  userId : option string;
  deviceId : option string;
  ip : option string;
  plan : BuildPlan
}.

Record QuotaCheck := {
  allowed : bool;
  reason : option string;
  snapshot : QuotaSnapshot
}.

(** ** Time buckets

    A [Date] is its time value, milliseconds since the epoch. The two
    built-ins the module uses and the source does not define,
    [Date.prototype.toISOString] and the parsing [Date] constructor, are
    parameters of the section. *)

Definition msPerDay : Z := 24 * 60 * 60 * 1000.
Definition msPerHour : Z := 60 * 60 * 1000.

(** [Date.UTC(d.getUTCFullYear(), d.getUTCMonth(), d.getUTCDate())] *)
Definition utcMidnight (date : Z) : Z := date / msPerDay * msPerDay.

(** [Date.UTC(..., d.getUTCDate(), d.getUTCHours())] *)
Definition utcHour (date : Z) : Z := date / msPerHour * msPerHour.

(** [getUTCDay]: 0 is Sunday; the epoch fell on a Thursday. *)
Definition getUTCDay (t : Z) : Z := (t / msPerDay + 4) mod 7.

(** The Monday 00:00 UTC on or before [date], before formatting. *)
Definition mondayOf (date : Z) : Z :=
  let utc := utcMidnight date in
  let day := getUTCDay utc in
  let diff := (day + 6) mod 7 in
  utc - diff * 24 * 60 * 60 * 1000.

(** [t] lies in the week that starts at [monday], a Monday 00:00 UTC. *)
Definition inWeekOf (monday t : Z) : Prop :=
  monday mod msPerDay = 0 /\ getUTCDay monday = 1
  /\ monday <= t < monday + 7 * msPerDay.

(** [s.slice(0, n)] for [0 <= n]. *)
Definition slice0 (n : nat) (s : string) : string := substring 0 n s.

Section Clock.

Variable toISOString : Z -> string.
Variable parseDate : string -> Z.

Definition getWeekKey (date : Z) : string :=
  slice0 10 (toISOString (mondayOf date)).

Definition getWeekEnd (weekStart : string) : string :=
  let start := parseDate (weekStart ++ "T00:00:00.000Z") in
  let end_ := start + 6 * 24 * 60 * 60 * 1000 in
  slice0 10 (toISOString end_).

Definition getHourKey (date : Z) : string :=
  slice0 13 (toISOString (utcHour date)).

(** [getQuotaSnapshot]: [nowWeek] and [nowHour] are its two [new Date()]
    readings, [usage] what [readUsage] returns. *)
Definition getQuotaSnapshot (nowWeek nowHour : Z) (params : Params)
    (usage : UsageStore) : QuotaSnapshot :=
  let weekKey := getWeekKey nowWeek in
  let limit := getLimitForPlan (plan params) in
  let userCount := getScopeCount usage ScopeUser (orEmpty (userId params)) weekKey in
  let deviceCount := getScopeCount usage ScopeDevice (orEmpty (deviceId params)) weekKey in
  let hourKey := getHourKey nowHour in
  let ipHourlyCount := getIpHourlyCount usage (orEmpty (ip params)) hourKey in
  let used := Z.max userCount deviceCount in
  {| snap_plan := plan params;
     limit := limit;
     used := used;
     remaining := match limit with
                  | None => None
                  | Some l => Some (Z.max (l - used) 0)
                  end;
     weekStart := weekKey;
     weekEnd := getWeekEnd weekKey;
     counts := {| counts_user := userCount;
                  counts_device := deviceCount;
                  counts_ipHourly := ipHourlyCount |} |}.

(** The four clock readings of one [consumeQuota] call, in program order:
    two of its own, two inside the [getQuotaSnapshot] it ends with. *)
Record Readings := {
  atWeek : Z;
  atHour : Z;
  snapWeek : Z;
  snapHour : Z
}.

(** [consumeQuota]: returns the check and the contents of [usage.json]
    afterwards. Only the accepting path calls [writeUsage]. *)
Definition consumeQuota (now : Readings) (params : Params)
    (usage : UsageStore) : QuotaCheck * UsageStore :=
  let weekKey := getWeekKey (atWeek now) in
  let hourKey := getHourKey (atHour now) in
  let limit := getLimitForPlan (plan params) in
  let userCount := getScopeCount usage ScopeUser (orEmpty (userId params)) weekKey in
  let deviceCount := getScopeCount usage ScopeDevice (orEmpty (deviceId params)) weekKey in
  let ipHourlyCount := getIpHourlyCount usage (orEmpty (ip params)) hourKey in
  let maxCount := Z.max userCount deviceCount in
  if IP_HOURLY_LIMIT <=? ipHourlyCount then
    ({| allowed := false; reason := Some "ip-rate-limit";
        snapshot := getQuotaSnapshot (snapWeek now) (snapHour now) params usage |},
     usage)
  else if match limit with Some l => l <=? maxCount | None => false end then
    ({| allowed := false; reason := Some "weekly-limit";
        snapshot := getQuotaSnapshot (snapWeek now) (snapHour now) params usage |},
     usage)
  else
    let usage1 := incrementScope usage ScopeUser (orEmpty (userId params)) weekKey in
    let usage2 := incrementScope usage1 ScopeDevice (orEmpty (deviceId params)) weekKey in
    let usage3 := incrementIpHourly usage2 (orEmpty (ip params)) hourKey in
    ({| allowed := true; reason := None;
        snapshot := getQuotaSnapshot (snapWeek now) (snapHour now) params usage3 |},
     usage3).

(** A run of submissions against the ledger, oldest first. *)
Fixpoint consumeAll (calls : list (Readings * Params)) (usage : UsageStore)
  : list QuotaCheck * UsageStore :=
  match calls with
  | [] => ([], usage)
  | (now, params) :: rest =>
      let '(r, usage') := consumeQuota now params usage in
      let '(rs, usage'') := consumeAll rest usage' in
      (r :: rs, usage'')
  end.

End Clock.

End Quota.

(** ** A reference calendar

    The two [Date] built-ins on the proleptic Gregorian calendar, to run
    the ledger on concrete dates. *)

Module RefDate.

Definition digit (n : Z) : ascii := ascii_of_nat (48 + Z.to_nat (n mod 10)).

Fixpoint pad (width : nat) (n : Z) : string :=
  match width with
  | O => EmptyString
  | S w => (pad w (n / 10) ++ String (digit n) EmptyString)%string
  end.

(** Year, month (1 to 12) and day of the month of a day number. *)
Definition civil (days : Z) : Z * Z * Z :=
  let z := days + 719468 in
  let era := z / 146097 in
  let doe := z - era * 146097 in
  let yoe := (doe - doe / 1460 + doe / 36524 - doe / 146096) / 365 in
  let doy := doe - (365 * yoe + yoe / 4 - yoe / 100) in
  let mp := (5 * doy + 2) / 153 in
  let d := doy - (153 * mp + 2) / 5 + 1 in
  let m := if mp <? 10 then mp + 3 else mp - 9 in
  ((yoe + era * 400 + (if m <=? 2 then 1 else 0), m), d).

Definition dayNumber (y m d : Z) : Z :=
  let y' := y - (if m <=? 2 then 1 else 0) in
  let era := y' / 400 in
  let yoe := y' - era * 400 in
  let doy := (153 * (if 2 <? m then m - 3 else m + 9) + 2) / 5 + d - 1 in
  let doe := yoe * 365 + yoe / 4 - yoe / 100 + doy in
  era * 146097 + doe - 719468.

Definition toISOString (t : Z) : string :=
  let '(y, m, d) := civil (t / Quota.msPerDay) in
  let r := t mod Quota.msPerDay in
  let plainYear := (0 <=? y) && (y <=? 9999) in
  let sign := if y <? 0 then "-" else "+" in
  ((if plainYear then pad 4 y else sign ++ pad 6 (Z.abs y))
   ++ "-" ++ pad 2 m ++ "-" ++ pad 2 d
   ++ "T" ++ pad 2 (r / 3600000) ++ ":" ++ pad 2 (r / 60000 mod 60)
   ++ ":" ++ pad 2 (r / 1000 mod 60) ++ "." ++ pad 3 (r mod 1000) ++ "Z")%string.

Fixpoint number (s : string) (acc : Z) : Z :=
  match s with
  | EmptyString => acc
  | String c s' => number s' (10 * acc + (Z.of_nat (nat_of_ascii c) - 48))
  end.

(** [new Date(s).getTime()] for [s] of the form [YYYY-MM-DDTHH:mm:ss.sssZ]. *)
Definition parseDate (s : string) : Z :=
  let field (i n : nat) := number (substring i n s) 0 in
  dayNumber (field 0%nat 4%nat) (field 5%nat 2%nat) (field 8%nat 2%nat)
    * Quota.msPerDay
  + field 11%nat 2%nat * 3600000 + field 14%nat 2%nat * 60000
  + field 17%nat 2%nat * 1000 + field 20%nat 3%nat.

End RefDate.

(* ===================================================================== *)
(** * String helpers standing for the JavaScript string methods used *)
(* ===================================================================== *)

Module Str.

(** White space removed by [trim], within ASCII: tab, line feed, vertical
    tab, form feed, carriage return, space. *)
Definition isSpace (c : ascii) : bool :=
  let n := nat_of_ascii c in
  ((9 <=? n) && (n <=? 13))%nat || (n =? 32)%nat.

Fixpoint rev (s : string) : string :=
  match s with
  | EmptyString => EmptyString
  | String c s' => (rev s' ++ String c EmptyString)%string
  end.

Fixpoint trimStart (s : string) : string :=
  match s with
  | EmptyString => EmptyString
  | String c s' => if isSpace c then trimStart s' else s
  end.

Definition trim (s : string) : string := rev (trimStart (rev (trimStart s))).

(** [s.split('\n')] *)
Fixpoint splitLines (s : string) : list string :=
  match s with
  | EmptyString => [EmptyString]
  | String c s' =>
      if (nat_of_ascii c =? 10)%nat then EmptyString :: splitLines s'
      else match splitLines s' with
           | l :: ls => String c l :: ls
           | [] => [String c EmptyString]
           end
  end.

Definition endsWith (s suffix : string) : bool :=
  String.prefix (rev suffix) (rev s).

Fixpoint dropChars (n : nat) (s : string) : string :=
  match n, s with
  | O, _ => s
  | S n', String _ s' => dropChars n' s'
  | S _, EmptyString => EmptyString
  end.

Fixpoint takeWhile (p : ascii -> bool) (s : string) : string :=
  match s with
  | EmptyString => EmptyString
  | String c s' => if p c then String c (takeWhile p s') else EmptyString
  end.

(** The character class [[a-fA-F0-9: ]]. *)
Definition isHashChar (c : ascii) : bool :=
  let n := nat_of_ascii c in
  (((97 <=? n) && (n <=? 102)) || ((65 <=? n) && (n <=? 70))
   || ((48 <=? n) && (n <=? 57)) || (n =? 58) || (n =? 32))%nat.

(** Capture group 1 of the leftmost match of [/SHA256: ([a-fA-F0-9: ]+)/]. *)
Fixpoint matchSHA256 (s : string) : option string :=
  match s with
  | EmptyString => None
  | String _ s' =>
      if String.prefix "SHA256: " s then
        match takeWhile isHashChar (dropChars 8 s) with
        | EmptyString => matchSHA256 s'
        | captured => Some captured
        end
      else matchSHA256 s'
  end.

End Str.

(** Truthiness of an optional string: defined and not empty. *)
Definition truthyO (x : option string) : bool :=
  match x with Some s => truthy s | None => false end.

(** [a || b] on optional strings. *)
Definition orElse (a b : option string) : option string :=
  if truthyO a then a else b.

(** A Node [Buffer]: its bytes. *)
Definition Buffer := list Byte.byte.

(* ===================================================================== *)
(** * Build pipeline ([src/lib/buildRunner.ts]) *)
(* ===================================================================== *)

Module Runner.

Record KeystoreInput := {
  buffer : Buffer;
  alias : option string;
  pass : option string;
  keyPass : option string
}.

Record BuildOptions := {
  zipBuffer : Buffer;
  keystore : option KeystoreInput;
  skipZipAlign : bool
}.

Record BuildResult := {
  apkBuffer : Buffer;
  apkName : string;
  sha256 : string
}.

(** Everything one build reads from outside the program: the process
    environment, the file system, the archive library and the external
    tools. [exec] maps a command line to the message of the error it
    rejects with, or to its standard output. [instantiateTemplate] is the
    message thrown while the template project is copied and filled in
    (lines 69 to 147 of the source), if any. *)
Record World := {
  env_APKSIGNER_JAR : option string;
  env_APK_SIGNER_JAR : option string;
  env_ANDROID_HOME : option string;
  env_ANDROID_SDK_ROOT : option string;
  env_GRADLE_CMD : option string;
  env_GRADLE_HOME : option string;
  cwd : string;
  tempDir : string;
  join : list string -> string;
  existsSync : string -> bool;
  readdir : string -> list string;
  readFile : string -> Buffer;
  openZip : Buffer -> string + list (string * Buffer);
  instantiateTemplate : option string;
  exec : string -> string + string
}.

(** What a build does to the outside, in order. *)
Inductive Event :=
| Mkdir (path : string)
| WriteFile (path : string)
| Exec (command : string)
| Rm (path : string).

(** A computation that logs events and either throws a message or returns. *)
Definition Run (A : Type) : Type := list Event * (string + A).

Definition ret {A} (a : A) : Run A := ([], inr a).
Definition throw {A} (msg : string) : Run A := ([], inl msg).
Definition emit (e : Event) : Run unit := ([e], inr tt).
Definition lift {A} (r : string + A) : Run A := ([], r).

Definition bind {A B} (m : Run A) (k : A -> Run B) : Run B :=
  match m with
  | (log, inl msg) => (log, inl msg)
  | (log, inr a) => let '(log', r) := k a in ((log ++ log')%list, r)
  end.

(** [try { m } finally { e }] *)
Definition finally {A} (m : Run A) (e : Event) : Run A :=
  ((fst m ++ [e])%list, snd m).

Notation "x <- m ;> k" := (bind m (fun x => k))
  (at level 20, m at level 100, k at level 200, only parsing).

Definition getEntry (zip : list (string * Buffer)) (name : string)
  : option Buffer :=
  snd <$> List.find (fun e => String.eqb (fst e) name) zip.

Definition resolveSignerJar (w : World) : string + string :=
  let candidates :=
    omap (fun c => if truthyO c then c else None)
      [ env_APKSIGNER_JAR w;
        env_APK_SIGNER_JAR w;
        Some (join w [cwd w; "uber-apk-signer.jar"]);
        Some (join w [cwd w; ".."; "uber-apk-signer.jar"]) ] in
  match List.find (existsSync w) candidates with
  | Some candidate => inr candidate
  | None => inl ("APK signer JAR not found. Tried: "
                   ++ String.concat ", " candidates)%string
  end.

(** The source-bundle branch: returns the path of the unsigned binary. *)
Definition compileBundle (w : World) : Run string :=
  let templateDir := join w [cwd w; "android-template"] in
  if negb (existsSync w templateDir) then
    throw "Android template missing. Expected android-template folder in build engine."
  else
    let buildDir := join w [tempDir w; "android-project"] in
    _ <- lift (match instantiateTemplate w with
          | Some msg => inl msg
          | None => inr tt
          end) ;>
    let androidHome := orElse (env_ANDROID_HOME w) (env_ANDROID_SDK_ROOT w) in
    if negb (truthyO androidHome) then
      throw "ANDROID_HOME or ANDROID_SDK_ROOT is not set. Install Android SDK and set the environment variable."
    else
      _ <- emit (WriteFile (join w [buildDir; "local.properties"])) ;>
      let gradleCmd :=
        if truthyO (env_GRADLE_CMD w) then orEmpty (env_GRADLE_CMD w)
        else if truthyO (env_GRADLE_HOME w)
             then join w [orEmpty (env_GRADLE_HOME w); "bin"; "gradle"]
             else "gradle" in
      let command :=
        (gradleCmd ++ " -p " ++ buildDir ++ " :app:assembleRelease")%string in
      _ <- emit (Exec command) ;>
      _ <- lift (exec w command) ;>
      let apkOutputDir := join w [buildDir; "app/build/outputs/apk/release"] in
      let apkFiles :=
        if existsSync w apkOutputDir then readdir w apkOutputDir else [] in
      match List.find (fun f => Str.endsWith f ".apk") apkFiles with
      | None =>
          throw "Gradle build completed but no APK was found in the release output."
      | Some unsignedName => ret (join w [apkOutputDir; unsignedName])
      end.

(** Lines 180 to 187: given a keystore with a truthy alias and a truthy
    store password, the keystore is written next to the input and its
    arguments are appended to the command; otherwise the command stays as
    it is. *)
Definition withKeystore (w : World) (options : BuildOptions)
    (command : string) : Run string :=
  match keystore options with
  | Some ks =>
      if truthyO (alias ks) && truthyO (pass ks) then
        let ksPath := join w [tempDir w; "user.keystore"] in
        _ <- emit (WriteFile ksPath) ;>
        let command :=
          (command ++ " --ks " ++ ksPath ++ " --ksAlias " ++ orEmpty (alias ks)
             ++ " --ksPass " ++ orEmpty (pass ks))%string in
        ret (if truthyO (keyPass ks)
             then (command ++ " --ksKeyPass " ++ orEmpty (keyPass ks))%string
             else command)
      else ret command
  | None => ret command
  end.

(** Lines 174 to 178: the signer command before the keystore step. *)
Definition signCommand (jarPath unsignedApkPath outDir : string)
    (options : BuildOptions) : string :=
  let command :=
    ("java -jar " ++ jarPath ++ " -a " ++ unsignedApkPath
       ++ " -o " ++ outDir)%string in
  if skipZipAlign options then (command ++ " --skipZipAlign")%string
  else command.

Definition verifyCommand (jarPath signedApkPath : string) : string :=
  ("java -jar " ++ jarPath ++ " -y -a " ++ signedApkPath ++ " --verbose")%string.

(** The sentinel the hash starts as. *)
Definition UNKNOWN_SHA256 : string := "Unknown".

(** Lines 200 to 207: verification and hash extraction never throw. *)
Definition extractSha256 (w : World) (jarPath signedApkPath : string)
  : Run string :=
  _ <- emit (Exec (verifyCommand jarPath signedApkPath)) ;>
  ret (match exec w (verifyCommand jarPath signedApkPath) with
       | inr stdout =>
           match Str.matchSHA256 stdout with
           | Some captured => Str.trim captured
           | None => UNKNOWN_SHA256
           end
       | inl _ => UNKNOWN_SHA256
       end).

(** What the pipeline holds once the signer has produced its output. *)
Record Signed := {
  jarPath : string;
  signedApkPath : string;
  signedApkName : string;
  signedApkBuffer : Buffer
}.

(** Lines 50 to 198: staging, optional compilation, signing, and finding
    the signed output. *)
Definition signStage (w : World) (options : BuildOptions) : Run Signed :=
  jarPath <- lift (resolveSignerJar w) ;>
  _ <- emit (Mkdir (tempDir w)) ;>
  let zipPath := join w [tempDir w; "input.zip"] in
  let apkPath := join w [tempDir w; "input.apk"] in
  _ <- emit (WriteFile zipPath) ;>
  _ <- emit (WriteFile apkPath) ;>
  zip <- lift (openZip w (zipBuffer options)) ;>
  let isBundle := bool_decide (is_Some (getEntry zip "droidforge.bundle.json")) in
  unsignedApkPath <- (if isBundle then compileBundle w else ret apkPath) ;>
  let outDir := join w [tempDir w; "out"] in
  _ <- emit (Mkdir outDir) ;>
  command <- withKeystore w options
               (signCommand jarPath unsignedApkPath outDir options) ;>
  _ <- emit (Exec command) ;>
  _ <- lift (exec w command) ;>
  _ <- emit (Exec ("ls " ++ outDir)%string) ;>
  files <- lift (exec w ("ls " ++ outDir)%string) ;>
  match List.find (fun f => Str.endsWith f ".apk")
          (Str.splitLines (Str.trim files)) with
  | None =>
      throw "Failed to generate signed APK. Ensure the ZIP is a valid DroidForge Studio bundle, Android project, or APK."
  | Some signedApkName =>
      let signedApkPath := join w [outDir; signedApkName] in
      ret {| jarPath := jarPath;
             signedApkPath := signedApkPath;
             signedApkName := signedApkName;
             signedApkBuffer := readFile w signedApkPath |}
  end.

Definition runAndroidBuild (w : World) (options : BuildOptions)
  : Run BuildResult :=
  finally
    (signed <- signStage w options ;>
     sha256 <- extractSha256 w (jarPath signed) (signedApkPath signed) ;>
     ret {| apkBuffer := signedApkBuffer signed;
            apkName := signedApkName signed;
            sha256 := sha256 |})
    (Rm (tempDir w)).

End Runner.

(* ===================================================================== *)
(** * Job store and queue worker ([lib/buildQueue]) *)
(* ===================================================================== *)

Module Queue.

Inductive BuildStatus := queued | running | completed | failed.

Definition BuildStatus_eqb (a b : BuildStatus) : bool :=
  match a, b with
  | queued, queued | running, running
  | completed, completed | failed, failed => true
  | _, _ => false
  end.

Record JobInput := {
  filename : string;
  size : Z;
  packageName : option string;
  versionName : option string;
  versionCode : option Z;
  hasKeystore : bool;
  skipZipAlign : bool
}.

Record Artifact := {
  name : string;
  artifact_size : Z;
  sha256 : string
}.

Record BuildJob := {
  id : string;
  status : BuildStatus;
  createdAt : Z;
  startedAt : option Z;
  completedAt : option Z;
  error : option string;
  input : JobInput;
  artifact : option Artifact
}.

Record BuildSettingsMeta := {
  meta_packageName : option string;
  meta_versionName : option string;
  meta_versionCode : option Z
}.

(** [keystore.json], as [createJob] writes it and the worker parses it. *)
Record KeystoreMeta := {
  alias : option string;
  pass : option string;
  keyPass : option string
}.

(** The staging directory [queue/<id>] of one job: its three files. *)
Record JobDir := {
  input_zip : option Buffer;
  keystore_jks : option Buffer;
  keystore_json : option KeystoreMeta
}.

Definition emptyDir : JobDir :=
  {| input_zip := None; keystore_jks := None; keystore_json := None |}.

(** The durable state under [.droidforge-builds]: [jobs.json], the
    [queue] directory by job id, the [artifacts] directory by job id and
    file name. *)
Record Store := {
  jobs : list BuildJob;
  queue : gmap string JobDir;
  artifacts : gmap string (gmap string Buffer)
}.

(** What [ensureStore] creates. *)
Definition emptyStore : Store :=
  {| jobs := []; queue := ∅; artifacts := ∅ |}.

Record CreateParams := {
  p_filename : string;
  p_zipBuffer : Buffer;
  p_keystoreBuffer : option Buffer;
  p_keystoreAlias : option string;
  p_keystorePass : option string;
  p_keystoreKeyPass : option string;
  p_skipZipAlign : bool
}.

(** The files [createJob] writes into [queue/<id>], over what is there. *)
Definition stage (params : CreateParams) (dir : JobDir) : JobDir :=
  let dir1 := {| input_zip := Some (p_zipBuffer params);
                 keystore_jks := keystore_jks dir;
                 keystore_json := keystore_json dir |} in
  match p_keystoreBuffer params with
  | Some keystoreBuffer =>
      let dir2 := {| input_zip := input_zip dir1;
                     keystore_jks := Some keystoreBuffer;
                     keystore_json := keystore_json dir1 |} in
      if truthyO (p_keystoreAlias params) && truthyO (p_keystorePass params)
      then {| input_zip := input_zip dir2;
              keystore_jks := keystore_jks dir2;
              keystore_json :=
                Some {| alias := p_keystoreAlias params;
                        pass := p_keystorePass params;
                        keyPass := Some (orEmpty (p_keystoreKeyPass params)) |} |}
      else dir2
  | None => dir1
  end.

(** [createJob]: [uuid] is what [randomUUID()] returns, [now] what
    [Date.now()] returns, [settings] what [parseBuildSettings] extracts
    from the bundle. Returns the job and the store afterwards. *)
Definition createJob (uuid : string) (now : Z)
    (settings : option BuildSettingsMeta) (params : CreateParams)
    (st : Store) : BuildJob * Store :=
  let jobDir := stage params (default emptyDir (queue st !! uuid)) in
  let job :=
    {| id := uuid;
       status := queued;
       createdAt := now;
       startedAt := None;
       completedAt := None;
       error := None;
       input :=
         {| filename := p_filename params;
            size := Z.of_nat (length (p_zipBuffer params));
            packageName := settings ≫= meta_packageName;
            versionName := settings ≫= meta_versionName;
            versionCode := settings ≫= meta_versionCode;
            hasKeystore :=
              bool_decide (is_Some (p_keystoreBuffer params))
              && truthyO (p_keystoreAlias params)
              && truthyO (p_keystorePass params);
            skipZipAlign := p_skipZipAlign params |};
       artifact := None |} in
  (job, {| jobs := (jobs st ++ [job])%list;
           queue := <[uuid := jobDir]> (queue st);
           artifacts := artifacts st |}).

(** [jobs.findIndex(item => item.id === job.id)], then replace in place. *)
Fixpoint updateJob (job : BuildJob) (jobs : list BuildJob) : list BuildJob :=
  match jobs with
  | [] => []
  | item :: rest =>
      if String.eqb (id item) (id job) then job :: rest
      else item :: updateJob job rest
  end.

Definition getJob (jobId : string) (jobs : list BuildJob) : option BuildJob :=
  List.find (fun job => String.eqb (id job) jobId) jobs.

(** [Array.prototype.sort] with a comparator: a stable sort. An element
    goes in front of the first later element it does not compare greater
    than. *)
Fixpoint insertBy {A} (cmp : A -> A -> Z) (x : A) (l : list A) : list A :=
  match l with
  | [] => [x]
  | y :: l' => if cmp x y <=? 0 then x :: y :: l' else y :: insertBy cmp x l'
  end.

Fixpoint sort {A} (cmp : A -> A -> Z) (l : list A) : list A :=
  match l with
  | [] => []
  | x :: l' => insertBy cmp x (sort cmp l')
  end.

Definition listJobs (jobs : list BuildJob) : list BuildJob :=
  sort (fun a b => createdAt b - createdAt a) jobs.

(** [(a, b) => a.createdAt - b.createdAt] *)
Definition byCreation (a b : BuildJob) : Z := createdAt a - createdAt b.

(** [job => job.status === 'queued'] *)
Definition isQueued (job : BuildJob) : bool :=
  BuildStatus_eqb (status job) queued.

(** The queue as the worker sees it: the queued jobs, sorted. *)
Definition pending (jobs : list BuildJob) : list BuildJob :=
  sort byCreation (List.filter isQueued jobs).

(** The job the worker takes next: element 0 of the above. *)
Definition selectNext (jobs : list BuildJob) : option BuildJob :=
  head (pending jobs).

Definition markRunning (next : BuildJob) (now : Z) : BuildJob :=
  {| id := id next; status := running; createdAt := createdAt next;
     startedAt := Some now; completedAt := completedAt next;
     error := None; input := input next; artifact := artifact next |}.

Definition markCompleted (runningJob : BuildJob) (now : Z)
    (result : Runner.BuildResult) : BuildJob :=
  {| id := id runningJob; status := completed;
     createdAt := createdAt runningJob; startedAt := startedAt runningJob;
     completedAt := Some now; error := error runningJob;
     input := input runningJob;
     artifact := Some {| name := Runner.apkName result;
                         artifact_size := Z.of_nat (length (Runner.apkBuffer result));
                         sha256 := Runner.sha256 result |} |}.

Definition markFailed (runningJob : BuildJob) (now : Z) (message : string)
  : BuildJob :=
  {| id := id runningJob; status := failed;
     createdAt := createdAt runningJob; startedAt := startedAt runningJob;
     completedAt := Some now; error := Some message;
     input := input runningJob; artifact := artifact runningJob |}.

(** What the worker reads back from [queue/<id>] and hands to the
    pipeline; reading a missing [input.zip] throws. *)
Definition stagedOptions (jobId : string) (dir : option JobDir)
    (runningJob : BuildJob) : string + Runner.BuildOptions :=
  match dir ≫= input_zip with
  | None =>
      inl ("ENOENT: no such file or directory, open '.droidforge-builds/queue/"
             ++ jobId ++ "/input.zip'")%string
  | Some zipBuffer =>
      let keystoreBuffer := dir ≫= keystore_jks in
      let keystoreMeta := dir ≫= keystore_json in
      inr {| Runner.zipBuffer := zipBuffer;
             Runner.keystore :=
               match keystoreBuffer, keystoreMeta with
               | Some b, Some meta =>
                   if truthyO (alias meta) && truthyO (pass meta)
                   then Some {| Runner.buffer := b;
                                Runner.alias := alias meta;
                                Runner.pass := pass meta;
                                Runner.keyPass := keyPass meta |}
                   else None
               | _, _ => None
               end;
             Runner.skipZipAlign := skipZipAlign (input runningJob) |}
  end.

(** The [try] block of one loop iteration: the pipeline's log and result. *)
Definition build (w : Runner.World) (runningJob : BuildJob) (st : Store)
  : Runner.Run Runner.BuildResult :=
  match stagedOptions (id runningJob) (queue st !! id runningJob) runningJob with
  | inl message => Runner.throw message
  | inr options => Runner.runAndroidBuild w options
  end.

(** The first half of a loop iteration: pick the next job and record it
    as running. [None] when no job is queued. *)
Definition startNext (now : Z) (st : Store) : option (BuildJob * Store) :=
  match selectNext (jobs st) with
  | None => None
  | Some next =>
      let runningJob := markRunning next now in
      Some (runningJob,
            {| jobs := updateJob runningJob (jobs st);
               queue := queue st;
               artifacts := artifacts st |})
  end.

(** The second half: build, then record the outcome. Only the success
    path removes [queue/<id>]. *)
Definition finishJob (now : Z) (w : Runner.World) (runningJob : BuildJob)
    (st : Store) : Store :=
  match snd (build w runningJob st) with
  | inr result =>
      let artifactDir := default ∅ (artifacts st !! id runningJob) in
      {| jobs := updateJob (markCompleted runningJob now result) (jobs st);
         queue := delete (id runningJob) (queue st);
         artifacts := <[id runningJob :=
                          <[Runner.apkName result := Runner.apkBuffer result]> artifactDir]>
                        (artifacts st) |}
  | inl message =>
      {| jobs := updateJob (markFailed runningJob now message) (jobs st);
         queue := queue st;
         artifacts := artifacts st |}
  end.

(** What one loop iteration takes from outside: the two [Date.now()]
    readings and the world the build runs in. *)
Record Tick := {
  startNow : Z;
  world : Runner.World;
  endNow : Z
}.

(** One uninterrupted pass of [processQueue] entered with [isProcessing]
    false: one tick per iteration; the pass ends at the first iteration
    that finds nothing queued. *)
Fixpoint processQueue (ticks : list Tick) (st : Store) : Store :=
  match ticks with
  | [] => st
  | tick :: rest =>
      match startNext (startNow tick) st with
      | None => st
      | Some (runningJob, st') =>
          processQueue rest (finishJob (endNow tick) (world tick) runningJob st')
      end
  end.

(** ** The system with its interleavings

    Submissions arrive while a pass is suspended at an [await]. The worker
    is idle ([isProcessing] false), at the head of the loop, or inside the
    [try] block of an iteration holding its [runningJob]. *)
Inductive Worker :=
| Idle
| AtLoopHead
| Building (runningJob : BuildJob).

Record System := {
  store : Store;
  worker : Worker
}.

Definition initialSystem : System := {| store := emptyStore; worker := Idle |}.

Definition isProcessing (s : System) : bool :=
  match worker s with Idle => false | _ => true end.

Inductive step : System -> System -> Prop :=
| step_create uuid now settings params s :
    getJob uuid (jobs (store s)) = None ->
    step s {| store := snd (createJob uuid now settings params (store s));
              worker := worker s |}
| step_enter s :
    worker s = Idle ->
    step s {| store := store s; worker := AtLoopHead |}
| step_reenter s :
    isProcessing s = true ->
    step s s
| step_start now runningJob st' s :
    worker s = AtLoopHead ->
    startNext now (store s) = Some (runningJob, st') ->
    step s {| store := st'; worker := Building runningJob |}
| step_drained now s :
    worker s = AtLoopHead ->
    startNext now (store s) = None ->
    step s {| store := store s; worker := Idle |}
| step_finish now w runningJob s :
    worker s = Building runningJob ->
    step s {| store := finishJob now w runningJob (store s);
              worker := AtLoopHead |}.

(** A history lists the states of a run, the latest first. *)
Inductive history : list System -> Prop :=
| history_init : history [initialSystem]
| history_step s s' past :
    history (s :: past) -> step s s' -> history (s' :: s :: past).

Definition reachable (s : System) : Prop := exists past, history (s :: past).

Definition statusOf (jobId : string) (s : System) : option BuildStatus :=
  status <$> getJob jobId (jobs (store s)).

Definition terminal (st : BuildStatus) : bool :=
  match st with completed | failed => true | _ => false end.

(** The transitions the design allows for one job between two states. *)
Definition allowedChange (before after : option BuildStatus) : Prop :=
  match before, after with
  | None, None => True
  | None, Some a => a = queued
  | Some b, Some a =>
      a = b \/ (b = queued /\ a = running)
      \/ (b = running /\ (a = completed \/ a = failed))
  | Some _, None => False
  end.

(** A job record agrees with its status: an artifact exactly when
    completed, an error exactly when failed. *)
Definition consistent (job : BuildJob) : Prop :=
  (is_Some (artifact job) <-> status job = completed)
  /\ (is_Some (error job) <-> status job = failed).

(** What holds of every state of a run: job ids are distinct, every
    record is consistent, and the job the worker holds is the stored one,
    marked running. *)
Definition invariant (s : System) : Prop :=
  List.NoDup (map id (jobs (store s)))
  /\ (forall job, In job (jobs (store s)) -> consistent job)
  /\ match worker s with
     | Building runningJob =>
         getJob (id runningJob) (jobs (store s)) = Some runningJob
         /\ status runningJob = running
     | _ => True
     end.

(** The ids of the jobs one pass starts, in the order it starts them. *)
Fixpoint processOrder (ticks : list Tick) (st : Store) : list string :=
  match ticks with
  | [] => []
  | tick :: rest =>
      match startNext (startNow tick) st with
      | None => []
      | Some (runningJob, st') =>
          id runningJob
            :: processOrder rest
                 (finishJob (endNow tick) (world tick) runningJob st')
      end
  end.

End Queue.

(* ===================================================================== *)
(** * Concrete inputs used to run the model *)
(* ===================================================================== *)

Module Sample.

Definition clockAt (iso : string) : Quota.Readings :=
  let t := RefDate.parseDate iso in
  {| Quota.atWeek := t; Quota.atHour := t;
     Quota.snapWeek := t; Quota.snapHour := t |}.

Definition caller (u d i : string) (p : Quota.BuildPlan) : Quota.Params :=
  {| Quota.userId := Some u; Quota.deviceId := Some d;
     Quota.ip := Some i; Quota.plan := p |}.

(** A build host with the signer in the working directory and no Android
    SDK configured. [bundle] tells whether archives open as source
    bundles; [verify] is what the verification run does. *)
Definition host (bundle : bool) (verify : string + string) : Runner.World :=
  {| Runner.env_APKSIGNER_JAR := None;
     Runner.env_APK_SIGNER_JAR := None;
     Runner.env_ANDROID_HOME := None;
     Runner.env_ANDROID_SDK_ROOT := None;
     Runner.env_GRADLE_CMD := None;
     Runner.env_GRADLE_HOME := None;
     Runner.cwd := "/srv/app";
     Runner.tempDir := "/tmp/droidforge-1-abc123";
     Runner.join := String.concat "/";
     Runner.existsSync := fun path =>
       String.eqb path "/srv/app/uber-apk-signer.jar"
       || String.eqb path "/srv/app/android-template";
     Runner.readdir := fun _ => [];
     Runner.readFile := fun _ => [Byte.x50; Byte.x4b];
     Runner.openZip := fun _ =>
       inr (if bundle then [("droidforge.bundle.json", [])]
            else [("AndroidManifest.xml", [])]);
     Runner.instantiateTemplate := None;
     Runner.exec := fun command =>
       if String.prefix "ls " command
       then inr ("input-aligned-debugSigned.apk" ++ String (ascii_of_nat 10) "")%string
       else if Str.endsWith command " --verbose" then verify
       else inr "" |}.

Definition upload (keystore : option Buffer) (ksAlias ksPass : option string)
  : Queue.CreateParams :=
  {| Queue.p_filename := "app.zip";
     Queue.p_zipBuffer := [Byte.x50; Byte.x4b; Byte.x03; Byte.x04];
     Queue.p_keystoreBuffer := keystore;
     Queue.p_keystoreAlias := ksAlias;
     Queue.p_keystorePass := ksPass;
     Queue.p_keystoreKeyPass := None;
     Queue.p_skipZipAlign := false |}.

Definition tick (t : Z) (w : Runner.World) : Queue.Tick :=
  {| Queue.startNow := t; Queue.world := w; Queue.endNow := t + 1 |}.

Definition job (jobId : string) (st : Queue.BuildStatus) (created : Z)
  : Queue.BuildJob :=
  {| Queue.id := jobId; Queue.status := st; Queue.createdAt := created;
     Queue.startedAt := None; Queue.completedAt := None;
     Queue.error := None;
     Queue.input := {| Queue.filename := "app.zip"; Queue.size := 4;
                       Queue.packageName := None; Queue.versionName := None;
                       Queue.versionCode := None; Queue.hasKeystore := false;
                       Queue.skipZipAlign := false |};
     Queue.artifact := None |}.

(** A run of the system: a source bundle is submitted, the worker wakes,
    takes the job, and the build fails for want of the Android SDK. *)
Definition created : Queue.BuildJob * Queue.Store :=
  Queue.createJob "job-1" 1000 None (upload None None None) Queue.emptyStore.

Definition s1 : Queue.System :=
  {| Queue.store := snd created; Queue.worker := Queue.Idle |}.

Definition s2 : Queue.System :=
  {| Queue.store := Queue.store s1; Queue.worker := Queue.AtLoopHead |}.

Definition running1 : Queue.BuildJob := Queue.markRunning (fst created) 2000.

Definition s3 : Queue.System :=
  {| Queue.store :=
       {| Queue.jobs := Queue.updateJob running1 (Queue.jobs (Queue.store s2));
          Queue.queue := Queue.queue (Queue.store s2);
          Queue.artifacts := Queue.artifacts (Queue.store s2) |};
     Queue.worker := Queue.Building running1 |}.

Definition s4 : Queue.System :=
  {| Queue.store :=
       Queue.finishJob 2001 (host true (inl "exit 1")) running1 (Queue.store s3);
     Queue.worker := Queue.AtLoopHead |}.

Definition run : list Queue.System := [s4; s3; s2; s1; Queue.initialSystem].

(** A job list with two queued jobs created in the same millisecond behind
    a younger queued job and a finished one. *)
Definition backlog : list Queue.BuildJob :=
  [ job "job-a" Queue.completed 5;
    job "job-b" Queue.queued 30;
    job "job-c" Queue.queued 20;
    job "job-d" Queue.queued 20 ].

End Sample.

(* ===================================================================== *)
(** * Runs of the ledger *)
(* ===================================================================== *)

Module QuotaRuns.
Import Quota.

Section Clock.

Variable toISOString : Z -> string.
Variable parseDate : string -> Z.

(** The calls of a run that [consumeQuota] allows, in order. *)
Fixpoint accepted (calls : list (Readings * Params)) (usage : UsageStore)
  : list (Readings * Params) :=
  match calls with
  | [] => []
  | (now, params) :: rest =>
      let '(check, usage') := consumeQuota toISOString parseDate now params usage in
      if allowed check
      then (now, params) :: accepted rest usage'
      else accepted rest usage'
  end.

(** The call comes from address [i] within the hour bucket [hourKey]. *)
Definition fromAddress (i hourKey : string) (call : Readings * Params) : bool :=
  String.eqb (orEmpty (ip (snd call))) i
  && String.eqb (getHourKey toISOString (atHour (fst call))) hourKey.

(** The call is made under identity [id] of [scope] within the week bucket
    [weekKey]. *)
Definition fromIdentity (scope : Scope) (id weekKey : string)
    (call : Readings * Params) : bool :=
  String.eqb (orEmpty (match scope with
                       | ScopeUser => userId (snd call)
                       | ScopeDevice => deviceId (snd call)
                       end)) id
  && String.eqb (getWeekKey toISOString (atWeek (fst call))) weekKey.

End Clock.

End QuotaRuns.

(* ===================================================================== *)
(** * The job store on disk *)
(* ===================================================================== *)

Module QueueMore.
Import Queue.

(** [getArtifactPath]: where a job's artifact lies under the artifacts
    directory, as the job's directory and the file name in it; nothing
    for a job without an artifact. *)
Definition getArtifactPath (job : BuildJob) : option (string * string) :=
  match artifact job with
  | None => None
  | Some a => Some (id job, name a)
  end.

(** The file at a path under the artifacts directory. *)
Definition artifactFile (st : Store) (path : string * string) : option Buffer :=
  artifacts st !! fst path ≫= (.!! snd path).

(** A job's timestamps agree with its status. *)
Definition stamped (job : BuildJob) : Prop :=
  (is_Some (startedAt job) <-> status job <> queued)
  /\ (is_Some (completedAt job) <-> terminal (status job) = true).

(** The staging directory holds what [createJob] wrote for the job: the
    bundle, of the recorded size, and the credentials file exactly when the
    job records a keystore, then beside the keystore file and with a truthy
    alias and store password. *)
Definition stagedFor (job : BuildJob) (dir : JobDir) : Prop :=
  (exists zip, input_zip dir = Some zip
               /\ size (input job) = Z.of_nat (length zip))
  /\ (hasKeystore (input job) = true <-> is_Some (keystore_json dir))
  /\ (forall meta, keystore_json dir = Some meta ->
        truthyO (alias meta) = true /\ truthyO (pass meta) = true
        /\ is_Some (keystore_jks dir)).

(** What the disk holds for a stored job: for a completed job the artifact
    the record names, of the recorded size, and no staging directory; for
    any other job its staging directory. *)
Definition onDisk (st : Store) (job : BuildJob) : Prop :=
  (status job = completed ->
   queue st !! id job = None
   /\ exists a bytes,
        artifact job = Some a
        /\ artifactFile st (id job, name a) = Some bytes
        /\ artifact_size a = Z.of_nat (length bytes))
  /\ (status job <> completed ->
      exists dir, queue st !! id job = Some dir /\ stagedFor job dir).

Definition diskInvariant (s : System) : Prop :=
  (forall job, In job (jobs (store s)) ->
     stamped job /\ onDisk (store s) job)
  /\ (forall jobId, is_Some (queue (store s) !! jobId) ->
        In jobId (map id (jobs (store s)))).

(** The job list changes pointwise: a record is kept, or a queued record
    gives way to a completed or failed record of the same job. *)
Definition processed (before after : BuildJob) : Prop :=
  after = before
  \/ (status before = queued
      /\ terminal (status after) = true
      /\ id after = id before
      /\ createdAt after = createdAt before
      /\ input after = input before).

(** What a later state keeps of a stored record: its identity, creation
    time and input, each timestamp once set, and the whole record once the
    job is completed or failed. *)
Definition kept (before after : BuildJob) : Prop :=
  id after = id before
  /\ createdAt after = createdAt before
  /\ input after = input before
  /\ (forall t, startedAt before = Some t -> startedAt after = Some t)
  /\ (forall t, completedAt before = Some t -> completedAt after = Some t)
  /\ (terminal (status before) = true -> after = before).

(** No job of the list was created before one that follows it. *)
Fixpoint newestFirst (l : list BuildJob) : Prop :=
  match l with
  | [] => True
  | a :: rest =>
      Forall (fun b => createdAt b <= createdAt a) rest /\ newestFirst rest
  end.

(** [job => job.createdAt === t] *)
Definition createdAtIs (t : Z) (job : BuildJob) : bool := createdAt job =? t.

End QueueMore.

(** Names for parts of the pipeline that its properties speak of. *)
Module RunnerMore.
Import Runner.

(** The candidate paths of [resolveSignerJar], in the order they are tried. *)
Definition signerCandidates (w : World) : list string :=
  omap (fun c => if truthyO c then c else None)
    [ env_APKSIGNER_JAR w;
      env_APK_SIGNER_JAR w;
      Some (join w [cwd w; "uber-apk-signer.jar"]);
      Some (join w [cwd w; ".."; "uber-apk-signer.jar"]) ].

(** The external commands of a log, in the order they were run. *)
Definition commands (log : list Event) : list string :=
  omap (fun e => match e with Exec command => Some command | _ => None end) log.

(** Lines 157 and 158: the command that compiles the template project. *)
Definition gradleCommand (w : World) : string :=
  let gradleCmd :=
    if truthyO (env_GRADLE_CMD w) then orEmpty (env_GRADLE_CMD w)
    else if truthyO (env_GRADLE_HOME w)
         then join w [orEmpty (env_GRADLE_HOME w); "bin"; "gradle"]
         else "gradle" in
  (gradleCmd ++ " -p " ++ join w [tempDir w; "android-project"]
     ++ " :app:assembleRelease")%string.

(** The staging step: the unsigned binary is the upload itself, or what
    compiling the bundle leaves. *)
Definition unsignedApk (w : World) (zip : list (string * Buffer)) : Run string :=
  if bool_decide (is_Some (getEntry zip "droidforge.bundle.json"))
  then compileBundle w
  else ret (join w [tempDir w; "input.apk"]).

End RunnerMore.

(* ===================================================================== *)
(** * The routes that call the ledger, the queue and the pipeline *)
(* ===================================================================== *)

Module Api.

Record File := {
  file_name : string;
  file_bytes : Buffer
}.

(** What the routes read of a request: the headers as [headers.get]
    returns them and the form fields as [formData.get] returns them, typed
    as the routes type them. *)
Record Request := {
  x_user_id : option string;
  x_device_id : option string;
  x_plan : option string;
  x_forwarded_for : option string;
  x_real_ip : option string;
  form_file : option File;
  form_keystore : option File;
  form_ksAlias : option string;
  form_ksPass : option string;
  form_ksKeyPass : option string;
  form_skipZipAlign : option string
}.

Inductive Body :=
| Error (error : string)
| QuotaError (error : string) (quota : Quota.QuotaSnapshot)
| Queued (job : Queue.BuildJob) (quota : Quota.QuotaSnapshot)
| Apk (bytes : Buffer) (filename : string) (apkSize : Z) (apkSha256 : string).

Record Response := {
  code : Z;
  body : Body
}.

(** [planHeader === 'pro' || planHeader === 'studio' ? planHeader : 'free'] *)
Definition planOf (planHeader : option string) : Quota.BuildPlan :=
  match planHeader with
  | Some h =>
      if String.eqb h "pro" then Quota.pro
      else if String.eqb h "studio" then Quota.studio
      else Quota.free
  | None => Quota.free
  end.

(** [s.split(',')[0]] *)
Definition firstField (s : string) : string :=
  Str.takeWhile (fun c => negb (Ascii.eqb c ",")) s.

(** The caller's address: the first entry of [x-forwarded-for], or of
    [x-real-ip] when that header is missing or empty, trimmed. *)
Definition clientIp (req : Request) : string :=
  let ipHeader := orEmpty (orElse (x_forwarded_for req) (x_real_ip req)) in
  Str.trim (firstField ipHeader).

Definition quotaParams (req : Request) : Quota.Params :=
  {| Quota.userId := Some (orEmpty (x_user_id req));
     Quota.deviceId := Some (orEmpty (x_device_id req));
     Quota.ip := Some (clientIp req);
     Quota.plan := planOf (x_plan req) |}.

(** [x || undefined] *)
Definition orUndefined (x : option string) : option string :=
  if truthyO x then x else None.

(** [formData.get('skipZipAlign') === 'true'] *)
Definition skipZipAlignOf (req : Request) : bool :=
  match form_skipZipAlign req with
  | Some v => String.eqb v "true"
  | None => false
  end.

Definition rejection (reason : option string) : string :=
  match reason with
  | Some r =>
      if String.eqb r "ip-rate-limit"
      then "Too many builds from this network in the last hour. Try again later."
      else "Weekly build limit reached for this account or device."
  | None => "Weekly build limit reached for this account or device."
  end.

Definition disabled : Response :=
  {| code := 404; body := Error "API routes disabled for static export." |}.

(** The two stores the routes work on. *)
Record Server := {
  usage : Quota.UsageStore;
  builds : Queue.Store
}.

Section Routes.

Variable toISOString : Z -> string.
Variable parseDate : string -> Z.
Variable parseBuildSettings : Buffer -> option Queue.BuildSettingsMeta.

(** What [POST /api/builds] passes to [createJob]. *)
Definition createParams (req : Request) (file : File) : Queue.CreateParams :=
  {| Queue.p_filename := file_name file;
     Queue.p_zipBuffer := file_bytes file;
     Queue.p_keystoreBuffer := file_bytes <$> form_keystore req;
     Queue.p_keystoreAlias := orUndefined (form_ksAlias req);
     Queue.p_keystorePass := orUndefined (form_ksPass req);
     Queue.p_keystoreKeyPass := orUndefined (form_ksKeyPass req);
     Queue.p_skipZipAlign := skipZipAlignOf req |}.

(** [POST /api/builds]. [staticExport] is [NEXT_OUTPUT === 'export'];
    [clock], [uuid] and [now] are what [consumeQuota] and [createJob] read
    from the clock and from [randomUUID]. *)
Definition queueBuild (staticExport : bool) (clock : Quota.Readings)
    (uuid : string) (now : Z) (req : Request) (sv : Server)
  : Response * Server :=
  if staticExport then (disabled, sv)
  else
    match form_file req with
    | None => ({| code := 400; body := Error "No file uploaded" |}, sv)
    | Some file =>
        let '(quotaCheck, usage') :=
          Quota.consumeQuota toISOString parseDate clock (quotaParams req)
            (usage sv) in
        if negb (Quota.allowed quotaCheck) then
          ({| code := 429;
              body := QuotaError (rejection (Quota.reason quotaCheck))
                        (Quota.snapshot quotaCheck) |},
           {| usage := usage'; builds := builds sv |})
        else
          let '(job, builds') :=
            Queue.createJob uuid now (parseBuildSettings (file_bytes file))
              (createParams req file) (builds sv) in
          ({| code := 202; body := Queued job (Quota.snapshot quotaCheck) |},
           {| usage := usage'; builds := builds' |})
    end.

(** What the synchronous route passes to [runAndroidBuild]. *)
Definition buildOptions (req : Request) (file : File) : Runner.BuildOptions :=
  {| Runner.zipBuffer := file_bytes file;
     Runner.keystore :=
       match form_keystore req with
       | Some keystoreFile =>
           if truthyO (form_ksAlias req) && truthyO (form_ksPass req)
           then Some {| Runner.buffer := file_bytes keystoreFile;
                        Runner.alias := form_ksAlias req;
                        Runner.pass := form_ksPass req;
                        Runner.keyPass := orUndefined (form_ksKeyPass req) |}
           else None
       | None => None
       end;
     Runner.skipZipAlign := skipZipAlignOf req |}.

(** The synchronous build route: the response, the usage store afterwards
    and what the build did on the host. *)
Definition convert (staticExport : bool) (clock : Quota.Readings)
    (w : Runner.World) (req : Request) (usage0 : Quota.UsageStore)
  : Response * Quota.UsageStore * list Runner.Event :=
  if staticExport then (disabled, usage0, [])
  else
    match form_file req with
    | None => ({| code := 400; body := Error "No file uploaded" |}, usage0, [])
    | Some file =>
        let '(quotaCheck, usage') :=
          Quota.consumeQuota toISOString parseDate clock (quotaParams req)
            usage0 in
        if negb (Quota.allowed quotaCheck) then
          ({| code := 429;
              body := QuotaError (rejection (Quota.reason quotaCheck))
                        (Quota.snapshot quotaCheck) |},
           usage', [])
        else
          match Runner.runAndroidBuild w (buildOptions req file) with
          | (log, inr result) =>
              ({| code := 200;
                  body := Apk (Runner.apkBuffer result) (Runner.apkName result)
                            (Z.of_nat (length (Runner.apkBuffer result)))
                            (Runner.sha256 result) |},
               usage', log)
          | (log, inl message) =>
              ({| code := 500; body := Error message |}, usage', log)
          end
    end.

End Routes.

(** [GET /api/builds/<id>/artifact] *)
Definition getArtifact (staticExport : bool) (jobId : string)
    (st : Queue.Store) : Response :=
  if staticExport then disabled
  else
    match Queue.getJob jobId (Queue.jobs st) with
    | None => {| code := 404; body := Error "Job not found" |}
    | Some job =>
        match Queue.artifact job with
        | None => {| code := 404; body := Error "Artifact not available" |}
        | Some a =>
            match QueueMore.getArtifactPath job ≫= QueueMore.artifactFile st with
            | None => {| code := 404; body := Error "Artifact missing on disk" |}
            | Some buffer =>
                {| code := 200;
                   body := Apk buffer (Queue.name a) (Queue.artifact_size a)
                             (Queue.sha256 a) |}
            end
        end
    end.

End Api.

(** A second run: a compiled archive is uploaded with a keystore and its
    credentials, the worker signs it, and a second upload arrives. *)
Module Sample2.

Definition okHost : Runner.World :=
  Sample.host false (inr "Verified. SHA256: ab:cd:ef").

Definition created : Queue.BuildJob * Queue.Store :=
  Queue.createJob "job-7" 1000 None
    (Sample.upload (Some [Byte.xfe; Byte.xed]) (Some "release") (Some "secret"))
    Queue.emptyStore.

Definition s1 : Queue.System :=
  {| Queue.store := snd created; Queue.worker := Queue.Idle |}.

Definition s2 : Queue.System :=
  {| Queue.store := Queue.store s1; Queue.worker := Queue.AtLoopHead |}.

Definition running7 : Queue.BuildJob := Queue.markRunning (fst created) 2000.

Definition s3 : Queue.System :=
  {| Queue.store :=
       {| Queue.jobs := Queue.updateJob running7 (Queue.jobs (Queue.store s2));
          Queue.queue := Queue.queue (Queue.store s2);
          Queue.artifacts := Queue.artifacts (Queue.store s2) |};
     Queue.worker := Queue.Building running7 |}.

Definition s4 : Queue.System :=
  {| Queue.store := Queue.finishJob 2500 okHost running7 (Queue.store s3);
     Queue.worker := Queue.AtLoopHead |}.

Definition s5 : Queue.System :=
  {| Queue.store :=
       snd (Queue.createJob "job-8" 3000 None (Sample.upload None None None)
              (Queue.store s4));
     Queue.worker := Queue.worker s4 |}.

Definition run : list Queue.System :=
  [s5; s4; s3; s2; s1; Queue.initialSystem].

(** A build host with the Android SDK and the template, the signer named
    by [APKSIGNER_JAR], where Gradle leaves one unsigned binary. *)
Definition buildHost : Runner.World :=
  {| Runner.env_APKSIGNER_JAR := Some "/opt/signer.jar";
     Runner.env_APK_SIGNER_JAR := Some "";
     Runner.env_ANDROID_HOME := None;
     Runner.env_ANDROID_SDK_ROOT := Some "/opt/android-sdk";
     Runner.env_GRADLE_CMD := None;
     Runner.env_GRADLE_HOME := Some "/opt/gradle";
     Runner.cwd := "/srv/app";
     Runner.tempDir := "/tmp/droidforge-2-xyz789";
     Runner.join := String.concat "/";
     Runner.existsSync := fun path =>
       String.eqb path "/opt/signer.jar"
       || String.eqb path "/srv/app/uber-apk-signer.jar"
       || String.eqb path "/srv/app/android-template"
       || String.eqb path
            "/tmp/droidforge-2-xyz789/android-project/app/build/outputs/apk/release";
     Runner.readdir := fun _ => ["output-metadata.json"; "app-release-unsigned.apk"];
     Runner.readFile := fun _ => [Byte.x50; Byte.x4b];
     Runner.openZip := fun _ => inr [("droidforge.bundle.json", [])];
     Runner.instantiateTemplate := None;
     Runner.exec := fun command =>
       if String.prefix "ls " command
       then inr ("app-release-aligned-debugSigned.apk"
                   ++ String (ascii_of_nat 10) "")%string
       else if Str.endsWith command " --verbose"
            then inr "Verified. SHA256: 0f:3a "
            else inr "" |}.

(** A host on which no signer can be found. *)
Definition bareHost : Runner.World :=
  {| Runner.env_APKSIGNER_JAR := Some "/opt/signer.jar";
     Runner.env_APK_SIGNER_JAR := None;
     Runner.env_ANDROID_HOME := None;
     Runner.env_ANDROID_SDK_ROOT := None;
     Runner.env_GRADLE_CMD := None;
     Runner.env_GRADLE_HOME := None;
     Runner.cwd := "/srv/app";
     Runner.tempDir := "/tmp/droidforge-3-qrs456";
     Runner.join := String.concat "/";
     Runner.existsSync := fun _ => false;
     Runner.readdir := fun _ => [];
     Runner.readFile := fun _ => [];
     Runner.openZip := fun _ => inr [];
     Runner.instantiateTemplate := None;
     Runner.exec := fun _ => inr "" |}.

(** An upload whose forwarding header starts with a comma. *)
Definition spoofed : Api.Request :=
  {| Api.x_user_id := Some "user-1";
     Api.x_device_id := None;
     Api.x_plan := Some "Studio";
     Api.x_forwarded_for := Some ", 10.0.0.1";
     Api.x_real_ip := Some "10.0.0.2";
     Api.form_file := Some {| Api.file_name := "app.zip";
                              Api.file_bytes := [Byte.x50; Byte.x4b] |};
     Api.form_keystore := None;
     Api.form_ksAlias := None;
     Api.form_ksPass := None;
     Api.form_ksKeyPass := None;
     Api.form_skipZipAlign := Some "true" |}.

Definition archive : Runner.BuildOptions :=
  {| Runner.zipBuffer := [Byte.x50; Byte.x4b];
     Runner.keystore := None;
     Runner.skipZipAlign := true |}.

End Sample2.

(* ===================================================================== *)
(** * Properties of the quota ledger *)
(* ===================================================================== *)

Lemma truthy_true s : truthy s = true <-> s <> "".
Proof. destruct s; simpl; split; congruence. Qed.

Module QuotaFacts.
Import Quota.

Lemma bucket_bump_same (t : gmap string (gmap string Z)) id key :
  bucket (bump t id key) id key = bucket t id key + 1.
Proof.
  unfold bucket, bump. rewrite lookup_insert_eq, lookup_insert_eq.
  destruct (t !! id) as [inner|]; [reflexivity|].
  rewrite lookup_empty. reflexivity.
Qed.

Lemma bucket_bump_other (t : gmap string (gmap string Z)) id key id' key' :
  id <> id' \/ key <> key' ->
  bucket (bump t id key) id' key' = bucket t id' key'.
Proof.
  intros Hne. unfold bucket, bump.
  destruct (decide (id = id')) as [->|Hid].
  - destruct Hne as [Hne|Hne]; [congruence|].
    rewrite lookup_insert_eq, lookup_insert_ne by exact Hne.
    destruct (t !! id') as [inner|]; [reflexivity|].
    rewrite lookup_empty. reflexivity.
  - rewrite lookup_insert_ne by exact Hid. reflexivity.
Qed.

(** A bump raises no bucket by more than one and lowers none. *)
Lemma bucket_bump_bounds (t : gmap string (gmap string Z)) id key id' key' :
  bucket t id' key' <= bucket (bump t id key) id' key' <= bucket t id' key' + 1.
Proof.
  destruct (decide (id = id')) as [->|Hid].
  - destruct (decide (key = key')) as [->|Hkey].
    + rewrite bucket_bump_same. lia.
    + rewrite bucket_bump_other by (right; exact Hkey). lia.
  - rewrite bucket_bump_other by (left; exact Hid). lia.
Qed.

Lemma scopeTable_setScopeTable usage scope t :
  scopeTable (setScopeTable usage scope t) scope = t.
Proof. destruct scope; reflexivity. Qed.

Lemma scopeTable_setScopeTable_ne usage scope scope' t :
  scope <> scope' ->
  scopeTable (setScopeTable usage scope t) scope' = scopeTable usage scope'.
Proof. destruct scope, scope'; simpl; congruence. Qed.

Lemma ipHourly_setScopeTable usage scope t :
  ipHourly (setScopeTable usage scope t) = ipHourly usage.
Proof. destruct scope; reflexivity. Qed.

Lemma ipHourly_incrementScope usage scope id key :
  ipHourly (incrementScope usage scope id key) = ipHourly usage.
Proof.
  unfold incrementScope. destruct (truthy id); [|reflexivity].
  apply ipHourly_setScopeTable.
Qed.

(** [incrementScope] on its own counter: plus one, unless the identity is
    empty, in which case there is nothing to count. *)
Lemma getScopeCount_incrementScope_same usage scope id key :
  getScopeCount (incrementScope usage scope id key) scope id key
  = if truthy id then getScopeCount usage scope id key + 1 else 0.
Proof.
  unfold getScopeCount, incrementScope.
  destruct (truthy id); [|reflexivity].
  rewrite scopeTable_setScopeTable. apply bucket_bump_same.
Qed.

Lemma getScopeCount_incrementScope_scope usage scope scope' id key id' key' :
  scope <> scope' ->
  getScopeCount (incrementScope usage scope id key) scope' id' key'
  = getScopeCount usage scope' id' key'.
Proof.
  intros Hne. unfold getScopeCount, incrementScope.
  destruct (truthy id); [|reflexivity].
  rewrite scopeTable_setScopeTable_ne by exact Hne. reflexivity.
Qed.

Lemma getScopeCount_incrementIpHourly usage ip key scope id' key' :
  getScopeCount (incrementIpHourly usage ip key) scope id' key'
  = getScopeCount usage scope id' key'.
Proof.
  unfold getScopeCount, incrementIpHourly.
  destruct (truthy ip); [|reflexivity]. destruct scope; reflexivity.
Qed.

Lemma getIpHourlyCount_incrementScope usage scope id key ip' key' :
  getIpHourlyCount (incrementScope usage scope id key) ip' key'
  = getIpHourlyCount usage ip' key'.
Proof.
  unfold getIpHourlyCount. rewrite ipHourly_incrementScope. reflexivity.
Qed.

Lemma getIpHourlyCount_incrementIpHourly_same usage ip key :
  getIpHourlyCount (incrementIpHourly usage ip key) ip key
  = if truthy ip then getIpHourlyCount usage ip key + 1 else 0.
Proof.
  unfold getIpHourlyCount, incrementIpHourly.
  destruct (truthy ip); [|reflexivity]. simpl. apply bucket_bump_same.
Qed.

Lemma getIpHourlyCount_incrementIpHourly_bounds usage ip key ip' key' :
  getIpHourlyCount usage ip' key'
  <= getIpHourlyCount (incrementIpHourly usage ip key) ip' key'
  <= getIpHourlyCount usage ip' key' + 1.
Proof.
  unfold getIpHourlyCount, incrementIpHourly.
  destruct (truthy ip'); [|lia].
  destruct (truthy ip); simpl; [apply bucket_bump_bounds|lia].
Qed.

(** ** Week buckets are Monday-anchored *)

Lemma mondayOf_inWeekOf monday t : inWeekOf monday t -> mondayOf t = monday.
Proof.
  unfold inWeekOf, mondayOf, utcMidnight, getUTCDay, msPerDay.
  change (24 * 60 * 60 * 1000) with 86400000.
  intros (Hmid & Hday & Hrange).
  rewrite Z.div_mul by lia.
  pose proof (Z.div_mod monday 86400000 ltac:(lia)) as Hm.
  pose proof (Z.div_mod t 86400000 ltac:(lia)) as Ht.
  pose proof (Z.mod_pos_bound t 86400000 ltac:(lia)) as Htb.
  set (m := monday / 86400000) in *. set (D := t / 86400000) in *.
  rewrite Hmid in Hm.
  assert (HD : m <= D < m + 7) by lia.
  pose proof (Z.div_mod (m + 4) 7 ltac:(lia)) as Hq. rewrite Hday in Hq.
  set (q := (m + 4) / 7) in *.
  assert (Hdiff : ((D + 4) mod 7 + 6) mod 7 = D - m).
  { rewrite Zplus_mod_idemp_l.
    replace (D + 4 + 6) with ((D - m) + (q + 1) * 7) by lia.
    rewrite Z_mod_plus_full. apply Z.mod_small. lia. }
  rewrite Hdiff. lia.
Qed.

(** The instant [getWeekKey] formats is the Monday 00:00 UTC of the week
    the date lies in. *)
Lemma mondayOf_spec t : inWeekOf (mondayOf t) t.
Proof.
  unfold inWeekOf, mondayOf, utcMidnight, getUTCDay, msPerDay.
  change (24 * 60 * 60 * 1000) with 86400000.
  rewrite Z.div_mul by lia.
  pose proof (Z.div_mod t 86400000 ltac:(lia)) as Ht.
  pose proof (Z.mod_pos_bound t 86400000 ltac:(lia)) as Htb.
  set (D := t / 86400000) in *.
  pose proof (Z.mod_pos_bound ((D + 4) mod 7 + 6) 7 ltac:(lia)) as Hdb.
  set (diff := ((D + 4) mod 7 + 6) mod 7) in *.
  replace (D * 86400000 - diff * 24 * 60 * 60 * 1000)
    with ((D - diff) * 86400000) by lia.
  rewrite Z.mod_mul by lia. rewrite Z.div_mul by lia.
  split; [reflexivity|]. split; [|lia].
  subst diff.
  pose proof (Z.div_mod (D + 4) 7 ltac:(lia)) as H1.
  pose proof (Z.mod_pos_bound (D + 4) 7 ltac:(lia)) as H1b.
  set (r := (D + 4) mod 7) in *.
  pose proof (Z.div_mod (r + 6) 7 ltac:(lia)) as H2.
  set (r2 := (r + 6) mod 7) in *.
  replace (D - r2 + 4) with (1 + ((D + 4) / 7 + (r + 6) / 7 - 1) * 7) by lia.
  rewrite Z_mod_plus_full. reflexivity.
Qed.

Section WithClock.

Variable toISOString : Z -> string.
Variable parseDate : string -> Z.

Local Abbreviation getWeekKey := (Quota.getWeekKey toISOString).
Local Abbreviation getHourKey := (Quota.getHourKey toISOString).
Local Abbreviation consumeQuota := (Quota.consumeQuota toISOString parseDate).
Local Abbreviation consumeAll := (Quota.consumeAll toISOString parseDate).

(** The store an accepted call writes. *)
Lemma consumeQuota_accept now params usage :
  getIpHourlyCount usage (orEmpty (ip params)) (getHourKey (atHour now))
    < IP_HOURLY_LIMIT ->
  (forall l, getLimitForPlan (plan params) = Some l ->
     Z.max (getScopeCount usage ScopeUser (orEmpty (userId params))
              (getWeekKey (atWeek now)))
           (getScopeCount usage ScopeDevice (orEmpty (deviceId params))
              (getWeekKey (atWeek now))) < l) ->
  allowed (fst (consumeQuota now params usage)) = true
  /\ reason (fst (consumeQuota now params usage)) = None
  /\ snd (consumeQuota now params usage)
     = incrementIpHourly
         (incrementScope
            (incrementScope usage ScopeUser (orEmpty (userId params))
               (getWeekKey (atWeek now)))
            ScopeDevice (orEmpty (deviceId params)) (getWeekKey (atWeek now)))
         (orEmpty (ip params)) (getHourKey (atHour now)).
Proof.
  intros Hip Hweek. unfold Quota.consumeQuota.
  destruct (Z.leb_spec IP_HOURLY_LIMIT
              (getIpHourlyCount usage (orEmpty (ip params))
                 (getHourKey (atHour now)))) as [Hge|_]; [lia|].
  destruct (getLimitForPlan (plan params)) as [l|]; [|repeat split].
  specialize (Hweek l eq_refl).
  destruct (Z.leb_spec l
              (Z.max (getScopeCount usage ScopeUser (orEmpty (userId params))
                        (getWeekKey (atWeek now)))
                     (getScopeCount usage ScopeDevice (orEmpty (deviceId params))
                        (getWeekKey (atWeek now))))) as [Hge|_]; [lia|].
  repeat split.
Qed.

Lemma consumeQuota_reject_ip now params usage :
  IP_HOURLY_LIMIT
    <= getIpHourlyCount usage (orEmpty (ip params)) (getHourKey (atHour now)) ->
  allowed (fst (consumeQuota now params usage)) = false
  /\ reason (fst (consumeQuota now params usage)) = Some "ip-rate-limit"
  /\ snd (consumeQuota now params usage) = usage.
Proof.
  intros Hip. unfold Quota.consumeQuota.
  destruct (Z.leb_spec IP_HOURLY_LIMIT
              (getIpHourlyCount usage (orEmpty (ip params))
                 (getHourKey (atHour now)))) as [_|Hlt]; [repeat split|lia].
Qed.

Lemma consumeQuota_reject_weekly now params usage l :
  getIpHourlyCount usage (orEmpty (ip params)) (getHourKey (atHour now))
    < IP_HOURLY_LIMIT ->
  getLimitForPlan (plan params) = Some l ->
  l <= Z.max (getScopeCount usage ScopeUser (orEmpty (userId params))
                (getWeekKey (atWeek now)))
             (getScopeCount usage ScopeDevice (orEmpty (deviceId params))
                (getWeekKey (atWeek now))) ->
  allowed (fst (consumeQuota now params usage)) = false
  /\ reason (fst (consumeQuota now params usage)) = Some "weekly-limit"
  /\ snd (consumeQuota now params usage) = usage.
Proof.
  intros Hip Hl Hweek. unfold Quota.consumeQuota.
  destruct (Z.leb_spec IP_HOURLY_LIMIT
              (getIpHourlyCount usage (orEmpty (ip params))
                 (getHourKey (atHour now)))) as [Hge|_]; [lia|].
  rewrite Hl.
  destruct (Z.leb_spec l
              (Z.max (getScopeCount usage ScopeUser (orEmpty (userId params))
                        (getWeekKey (atWeek now)))
                     (getScopeCount usage ScopeDevice (orEmpty (deviceId params))
                        (getWeekKey (atWeek now))))) as [_|Hlt]; [repeat split|lia].
Qed.

(** Every result is an acceptance without a reason or a rejection with
    one of the two reasons and an untouched store. *)
Lemma consumeQuota_cases now params usage :
  (allowed (fst (consumeQuota now params usage)) = true
   /\ reason (fst (consumeQuota now params usage)) = None)
  \/ (allowed (fst (consumeQuota now params usage)) = false
      /\ (reason (fst (consumeQuota now params usage)) = Some "ip-rate-limit"
          \/ reason (fst (consumeQuota now params usage)) = Some "weekly-limit")
      /\ snd (consumeQuota now params usage) = usage).
Proof.
  unfold Quota.consumeQuota.
  destruct (IP_HOURLY_LIMIT <=? _); [right; repeat split; left; reflexivity|].
  destruct (getLimitForPlan (plan params)) as [l|]; [|left; repeat split].
  destruct (l <=? _); [right; repeat split; right; reflexivity|left; repeat split].
Qed.


(** C7. A rejection, which always carries one of the two reasons, leaves
    the usage store as it was: no user, device or IP-hourly count of any
    identity and bucket differs after the call. *)
Theorem rejection_leaves_usage_store now params usage :
  allowed (fst (consumeQuota now params usage)) = false ->
  (reason (fst (consumeQuota now params usage)) = Some "ip-rate-limit"
   \/ reason (fst (consumeQuota now params usage)) = Some "weekly-limit")
  /\ snd (consumeQuota now params usage) = usage
  /\ (forall scope id key,
        getScopeCount (snd (consumeQuota now params usage)) scope id key
        = getScopeCount usage scope id key)
  /\ (forall ip' key,
        getIpHourlyCount (snd (consumeQuota now params usage)) ip' key
        = getIpHourlyCount usage ip' key).
Proof.
  intros Hrej.
  destruct (consumeQuota_cases now params usage) as [[Ha _]|(_ & Hr & Hs)].
  - congruence.
  - split; [exact Hr|]. split; [exact Hs|].
    split; intros; rewrite Hs; reflexivity.
Qed.

(** C9. With an empty source address the call is never rejected with
    [ip-rate-limit] and the IP-hourly table is left unchanged. *)
Theorem empty_address_not_rate_limited now params usage :
  orEmpty (ip params) = "" ->
  reason (fst (consumeQuota now params usage)) <> Some "ip-rate-limit"
  /\ ipHourly (snd (consumeQuota now params usage)) = ipHourly usage.
Proof.
  intros Hip. unfold Quota.consumeQuota. rewrite Hip.
  change (getIpHourlyCount usage "" (getHourKey (atHour now))) with 0.
  change (IP_HOURLY_LIMIT <=? 0) with false. cbv iota.
  destruct (getLimitForPlan (plan params)) as [l|].
  - destruct (l <=? _); simpl; split; try discriminate; try reflexivity.
    unfold incrementIpHourly; simpl. rewrite !ipHourly_incrementScope. reflexivity.
  - simpl. split; [discriminate|].
    unfold incrementIpHourly; simpl. rewrite !ipHourly_incrementScope. reflexivity.
Qed.

Lemma consumeAll_cons now params rest usage :
  consumeAll ((now, params) :: rest) usage
  = (fst (consumeQuota now params usage)
       :: fst (consumeAll rest (snd (consumeQuota now params usage))),
     snd (consumeAll rest (snd (consumeQuota now params usage)))).
Proof.
  cbn [Quota.consumeAll].
  destruct (consumeQuota now params usage) as [r usage']. cbn [fst snd].
  destruct (consumeAll rest usage') as [rs usage'']. reflexivity.
Qed.

(** One more submission of a free-plan identity that has [k] accepted
    submissions this week, in a ledger where no address has more than [k]
    submissions in any hour. *)
Lemma free_plan_step k (u d i : option string) wk now usage :
  truthy (orEmpty u) = true \/ truthy (orEmpty d) = true ->
  getWeekKey (atWeek now) = wk ->
  0 <= k <= 3 ->
  getScopeCount usage ScopeUser (orEmpty u) wk
    = (if truthy (orEmpty u) then k else 0) ->
  getScopeCount usage ScopeDevice (orEmpty d) wk
    = (if truthy (orEmpty d) then k else 0) ->
  (forall i' hk, getIpHourlyCount usage i' hk <= k) ->
  let params := {| userId := u; deviceId := d; ip := i; plan := free |} in
  (k < 3 ->
   allowed (fst (consumeQuota now params usage)) = true
   /\ reason (fst (consumeQuota now params usage)) = None
   /\ getScopeCount (snd (consumeQuota now params usage)) ScopeUser (orEmpty u) wk
      = (if truthy (orEmpty u) then k + 1 else 0)
   /\ getScopeCount (snd (consumeQuota now params usage)) ScopeDevice (orEmpty d) wk
      = (if truthy (orEmpty d) then k + 1 else 0)
   /\ (forall i' hk,
         getIpHourlyCount (snd (consumeQuota now params usage)) i' hk <= k + 1))
  /\ (k = 3 ->
      allowed (fst (consumeQuota now params usage)) = false
      /\ reason (fst (consumeQuota now params usage)) = Some "weekly-limit").
Proof.
  intros Hid Hwk Hk Hu Hd Hip params.
  assert (Hlt : getIpHourlyCount usage (orEmpty (ip params))
                  (getHourKey (atHour now)) < IP_HOURLY_LIMIT).
  { specialize (Hip (orEmpty (ip params)) (getHourKey (atHour now))).
    unfold IP_HOURLY_LIMIT. lia. }
  assert (Hmax : Z.max (getScopeCount usage ScopeUser (orEmpty (userId params))
                          (getWeekKey (atWeek now)))
                       (getScopeCount usage ScopeDevice (orEmpty (deviceId params))
                          (getWeekKey (atWeek now))) = k).
  { subst params. cbn [userId deviceId]. rewrite Hwk, Hu, Hd.
    destruct (truthy (orEmpty u)), (truthy (orEmpty d));
      solve [lia | destruct Hid; discriminate]. }
  split.
  - intros Hk3.
    destruct (consumeQuota_accept now params usage Hlt) as (Ha & Hr & Hs).
    { intros l Hl. simpl in Hl. injection Hl as <-. lia. }
    split; [exact Ha|]. split; [exact Hr|]. rewrite Hs. simpl. rewrite Hwk.
    split; [|split].
    + rewrite getScopeCount_incrementIpHourly.
      rewrite getScopeCount_incrementScope_scope by discriminate.
      rewrite getScopeCount_incrementScope_same, Hu.
      destruct (truthy (orEmpty u)); reflexivity.
    + rewrite getScopeCount_incrementIpHourly.
      rewrite getScopeCount_incrementScope_same.
      rewrite getScopeCount_incrementScope_scope by discriminate.
      rewrite Hd. destruct (truthy (orEmpty d)); reflexivity.
    + intros i' hk.
      pose proof (getIpHourlyCount_incrementIpHourly_bounds
                    (incrementScope (incrementScope usage ScopeUser (orEmpty u) wk)
                       ScopeDevice (orEmpty d) wk)
                    (orEmpty i) (getHourKey (atHour now)) i' hk) as Hb.
      rewrite !getIpHourlyCount_incrementScope in Hb.
      specialize (Hip i' hk). lia.
  - intros ->.
    destruct (consumeQuota_reject_weekly now params usage 3 Hlt eq_refl)
      as (Ha & Hr & _); [lia|].
    split; assumption.
Qed.

Lemma studio_never_weekly_limit now params usage :
  plan params = studio ->
  reason (fst (consumeQuota now params usage)) <> Some "weekly-limit".
Proof.
  intros Hplan. unfold Quota.consumeQuota. rewrite Hplan. simpl.
  destruct (IP_HOURLY_LIMIT <=? _); simpl; discriminate.
Qed.


End WithClock.

(** ** The ledger on concrete dates *)

Example week_key_midweek :
  Quota.getWeekKey RefDate.toISOString
    (RefDate.parseDate "2026-11-05T13:14:15.000Z") = "2026-11-02".
Proof. vm_compute. reflexivity. Qed.

Example week_key_last_instant :
  Quota.getWeekKey RefDate.toISOString
    (RefDate.parseDate "2026-11-08T23:59:59.999Z") = "2026-11-02".
Proof. vm_compute. reflexivity. Qed.

Example week_key_next_monday :
  Quota.getWeekKey RefDate.toISOString
    (RefDate.parseDate "2026-11-09T00:00:00.000Z") = "2026-11-09".
Proof. vm_compute. reflexivity. Qed.

Example week_end_of_week_start :
  Quota.getWeekEnd RefDate.toISOString RefDate.parseDate "2026-11-02"
  = "2026-11-08".
Proof. vm_compute. reflexivity. Qed.

Example hour_key_midweek :
  Quota.getHourKey RefDate.toISOString
    (RefDate.parseDate "2026-11-05T13:14:15.000Z") = "2026-11-05T13".
Proof. vm_compute. reflexivity. Qed.

(** The thirty-first submission of an hour from one address, by thirty-one
    different studio users, is the first one rejected. *)
Example thirty_first_from_one_address :
  let call (n : nat) :=
    (Sample.clockAt "2026-11-05T13:14:15.000Z",
     Sample.caller (String (ascii_of_nat (65 + n)) "") "" "203.0.113.7" studio) in
  map (fun r => reason r)
    (fst (Quota.consumeAll RefDate.toISOString RefDate.parseDate
            (map call (seq 0 31)) initial))
  = (repeat None 30 ++ [Some "ip-rate-limit"])%list.
Proof. vm_compute. reflexivity. Qed.




Lemma rejection_leaves_usage_store_witness :
  let now := Sample.clockAt "2026-11-03T10:15:00.000Z" in
  let params := Sample.caller "user-1" "device-1" "203.0.113.7" free in
  let usage :=
    {| user := {[ "user-1" := {[ "2026-11-02" := 3 ]} ]};
       device := {[ "device-1" := {[ "2026-11-02" := 1 ]} ]};
       ipHourly := {[ "203.0.113.7" := {[ "2026-11-03T10" := 4 ]} ]} |} in
  allowed (fst (Quota.consumeQuota RefDate.toISOString RefDate.parseDate
                  now params usage)) = false
  /\ reason (fst (Quota.consumeQuota RefDate.toISOString RefDate.parseDate
                    now params usage)) = Some "weekly-limit"
  /\ snd (Quota.consumeQuota RefDate.toISOString RefDate.parseDate
            now params usage) = usage.
Proof.
  cbv zeta. split; [vm_compute; reflexivity|]. split; [vm_compute; reflexivity|].
  apply (rejection_leaves_usage_store RefDate.toISOString RefDate.parseDate).
  vm_compute. reflexivity.
Defined.

Lemma empty_address_not_rate_limited_witness :
  let now := Sample.clockAt "2026-11-03T10:15:00.000Z" in
  let params := {| userId := Some "user-1"; deviceId := Some "device-1";
                   ip := None; plan := pro |} in
  let usage :=
    {| user := ∅; device := ∅;
       ipHourly := {[ "" := {[ "2026-11-03T10" := 31 ]} ]} |} in
  orEmpty (ip params) = ""
  /\ reason (fst (Quota.consumeQuota RefDate.toISOString RefDate.parseDate
                    now params usage)) <> Some "ip-rate-limit"
  /\ ipHourly (snd (Quota.consumeQuota RefDate.toISOString RefDate.parseDate
                      now params usage)) = ipHourly usage.
Proof.
  cbv zeta. split; [reflexivity|].
  apply (empty_address_not_rate_limited RefDate.toISOString RefDate.parseDate).
  reflexivity.
Defined.

End QuotaFacts.

(* ===================================================================== *)
(** * Properties of the job store and the queue worker *)
(* ===================================================================== *)

Module QueueFacts.
Import Queue.

Lemma BuildStatus_eqb_eq a b : BuildStatus_eqb a b = true <-> a = b.
Proof. destruct a, b; simpl; split; congruence. Qed.

(** ** The job list *)

Lemma map_id_updateJob job jobs : map id (updateJob job jobs) = map id jobs.
Proof.
  induction jobs as [|item rest IH]; [reflexivity|]. simpl.
  destruct (String.eqb_spec (id item) (id job)) as [Heq|Hne]; simpl.
  - rewrite Heq. reflexivity.
  - rewrite IH. reflexivity.
Qed.

Lemma In_updateJob job jobs x :
  In x (updateJob job jobs) -> x = job \/ In x jobs.
Proof.
  induction jobs as [|item rest IH]; simpl; [tauto|].
  destruct (String.eqb (id item) (id job)); simpl.
  - intros [<-|H]; [left; reflexivity|right; right; exact H].
  - intros [<-|H]; [right; left; reflexivity|].
    destruct (IH H) as [->|H']; [left; reflexivity|right; right; exact H'].
Qed.

(** [updateJob] replaces what [getJob] finds, and nothing else. *)
Lemma getJob_updateJob job jobs jobId :
  getJob jobId (updateJob job jobs)
  = if String.eqb (id job) jobId
    then match getJob jobId jobs with Some _ => Some job | None => None end
    else getJob jobId jobs.
Proof.
  unfold getJob. induction jobs as [|item rest IH]; simpl.
  - destruct (String.eqb (id job) jobId); reflexivity.
  - destruct (String.eqb_spec (id item) (id job)) as [Hij|Hij]; simpl.
    + rewrite Hij. destruct (String.eqb (id job) jobId); reflexivity.
    + rewrite IH.
      destruct (String.eqb_spec (id item) jobId) as [Hi|Hi];
        destruct (String.eqb_spec (id job) jobId) as [Hj|Hj];
        try reflexivity.
      congruence.
Qed.

Lemma getJob_app jobs job jobId :
  getJob jobId (jobs ++ [job])%list
  = match getJob jobId jobs with
    | Some found => Some found
    | None => if String.eqb (id job) jobId then Some job else None
    end.
Proof.
  unfold getJob. induction jobs as [|item rest IH]; simpl; [reflexivity|].
  destruct (String.eqb (id item) jobId); [reflexivity|exact IH].
Qed.

Lemma getJob_Some jobs jobId job :
  getJob jobId jobs = Some job -> In job jobs /\ id job = jobId.
Proof.
  unfold getJob. intros H. apply List.find_some in H as [Hin Heq].
  split; [exact Hin|]. apply String.eqb_eq. exact Heq.
Qed.

Lemma getJob_None jobs jobId :
  getJob jobId jobs = None -> ~ In jobId (map id jobs).
Proof.
  unfold getJob. intros H Hin. apply in_map_iff in Hin as (job & Hid & Hjob).
  pose proof (List.find_none _ _ H job Hjob) as Hf. simpl in Hf.
  rewrite Hid, String.eqb_refl in Hf. discriminate.
Qed.

(** With distinct ids [getJob] finds each stored record itself. *)
Lemma getJob_In jobs job :
  List.NoDup (map id jobs) -> In job jobs -> getJob (id job) jobs = Some job.
Proof.
  unfold getJob. induction jobs as [|item rest IH]; simpl; [tauto|].
  intros Hnd Hin. inversion Hnd as [|i is_ Hni Hnd']; subst.
  destruct Hin as [->|Hin].
  - rewrite String.eqb_refl. reflexivity.
  - destruct (String.eqb_spec (id item) (id job)) as [Heq|_].
    + exfalso. apply Hni. rewrite Heq. apply in_map. exact Hin.
    + apply IH; assumption.
Qed.

(** ** Selection *)

Lemma head_insertBy {A} (cmp : A -> A -> Z) x l :
  head (insertBy cmp x l)
  = Some (match head l with
          | None => x
          | Some y => if cmp x y <=? 0 then x else y
          end).
Proof. destruct l as [|y l]; simpl; [reflexivity|]. destruct (cmp x y <=? 0); reflexivity. Qed.

Lemma selectNext_cons x jobs :
  selectNext (x :: jobs)
  = if BuildStatus_eqb (status x) queued
    then Some (match selectNext jobs with
               | None => x
               | Some y => if createdAt x - createdAt y <=? 0 then x else y
               end)
    else selectNext jobs.
Proof.
  unfold selectNext, pending, isQueued. simpl.
  destruct (BuildStatus_eqb (status x) queued); [|reflexivity].
  simpl. apply head_insertBy.
Qed.

Lemma selectNext_None jobs :
  selectNext jobs = None -> forall j, In j jobs -> status j <> queued.
Proof.
  induction jobs as [|x rest IH]; [intros _ j []|].
  rewrite selectNext_cons.
  destruct (BuildStatus_eqb (status x) queued) eqn:Hx; [discriminate|].
  intros Hnone j [<-|Hin].
  - intros Hq. apply BuildStatus_eqb_eq in Hq. congruence.
  - apply IH; assumption.
Qed.

(** The job selected splits the list: queued jobs before it are strictly
    younger, queued jobs after it are not older. *)
Lemma selectNext_Some jobs next :
  selectNext jobs = Some next ->
  exists before after,
    jobs = (before ++ next :: after)%list
    /\ status next = queued
    /\ (forall j, In j before -> status j = queued ->
          createdAt next < createdAt j)
    /\ (forall j, In j after -> status j = queued ->
          createdAt next <= createdAt j).
Proof.
  revert next. induction jobs as [|x rest IH]; intros next; [discriminate|].
  rewrite selectNext_cons.
  destruct (BuildStatus_eqb (status x) queued) eqn:Hx.
  - apply BuildStatus_eqb_eq in Hx.
    destruct (selectNext rest) as [y|] eqn:Hrest.
    + destruct (IH y eq_refl) as (b & a & Hsplit & Hy & Hb & Ha).
      destruct (Z.leb_spec (createdAt x - createdAt y) 0) as [Hle|Hgt];
        intros [= <-].
      * exists [], rest. split; [reflexivity|]. split; [exact Hx|].
        split; [intros j []|].
        intros j Hin Hq. rewrite Hsplit in Hin.
        apply in_app_or in Hin as [Hin|[<-|Hin]].
        -- specialize (Hb j Hin Hq). lia.
        -- lia.
        -- specialize (Ha j Hin Hq). lia.
      * exists (x :: b), a. split; [rewrite Hsplit; reflexivity|].
        split; [exact Hy|]. split; [|exact Ha].
        intros j [<-|Hin] Hq; [lia|apply Hb; assumption].
    + intros [= <-]. exists [], rest. split; [reflexivity|].
      split; [exact Hx|]. split; [intros j []|].
      intros j Hin Hq. exfalso. exact (selectNext_None rest Hrest j Hin Hq).
  - intros Hsel. destruct (IH next Hsel) as (b & a & Hsplit & Hy & Hb & Ha).
    exists (x :: b), a. split; [rewrite Hsplit; reflexivity|].
    split; [exact Hy|]. split; [|exact Ha].
    intros j [<-|Hin] Hq; [|apply Hb; assumption].
    apply BuildStatus_eqb_eq in Hq. congruence.
Qed.

Lemma selectNext_is_Some jobs j :
  In j jobs -> status j = queued -> is_Some (selectNext jobs).
Proof.
  intros Hin Hq. destruct (selectNext jobs) eqn:Hsel; [eexists; reflexivity|].
  exfalso. exact (selectNext_None jobs Hsel j Hin Hq).
Qed.

(** ** Records stay consistent *)

Lemma consistent_markRunning next now :
  consistent next -> status next = queued -> consistent (markRunning next now).
Proof.
  intros [Ha _] Hq. split; simpl.
  - split; [|discriminate]. intros Hart. apply Ha in Hart. congruence.
  - split; [intros [? [=]]|discriminate].
Qed.

Lemma consistent_markCompleted runningJob now result :
  consistent runningJob -> status runningJob = running ->
  consistent (markCompleted runningJob now result).
Proof.
  intros [_ He] Hr. split; simpl.
  - split; [reflexivity|]. intros _. eexists. reflexivity.
  - split; [|discriminate]. intros Herr. apply He in Herr. congruence.
Qed.

Lemma consistent_markFailed runningJob now message :
  consistent runningJob -> status runningJob = running ->
  consistent (markFailed runningJob now message).
Proof.
  intros [Ha _] Hr. split; simpl.
  - split; [|discriminate]. intros Hart. apply Ha in Hart. congruence.
  - split; [reflexivity|]. intros _. eexists. reflexivity.
Qed.

Lemma NoDup_snoc (ids : list string) x :
  List.NoDup ids -> ~ In x ids -> List.NoDup (ids ++ [x]).
Proof.
  induction ids as [|y ids IH]; simpl; intros Hnd Hx.
  - constructor; [intros []|constructor].
  - inversion Hnd as [|? ? Hy Hnd']; subst. constructor.
    + intros Hin. apply in_app_or in Hin as [Hin|[->|[]]]; [tauto|].
      apply Hx. left. reflexivity.
    + apply IH; [exact Hnd'|]. intros Hin. apply Hx. right. exact Hin.
Qed.

Lemma startNext_Some now st runningJob st' :
  startNext now st = Some (runningJob, st') ->
  exists next,
    selectNext (jobs st) = Some next
    /\ runningJob = markRunning next now
    /\ jobs st' = updateJob runningJob (jobs st)
    /\ queue st' = queue st /\ artifacts st' = artifacts st.
Proof.
  unfold startNext. destruct (selectNext (jobs st)) as [next|]; [|discriminate].
  intros [= <- <-]. exists next. repeat split.
Qed.

(** The job list after the second half of an iteration: the held job is
    replaced by its completed or failed version. *)
Lemma jobs_finishJob now w runningJob st :
  exists finished,
    jobs (finishJob now w runningJob st) = updateJob finished (jobs st)
    /\ id finished = id runningJob
    /\ (status finished = completed \/ status finished = failed)
    /\ (consistent runningJob -> status runningJob = running ->
        consistent finished).
Proof.
  unfold finishJob. destruct (snd (build w runningJob st)) as [message|result].
  - exists (markFailed runningJob now message). simpl.
    split; [reflexivity|]. split; [reflexivity|].
    split; [right; reflexivity|apply consistent_markFailed].
  - exists (markCompleted runningJob now result). simpl.
    split; [reflexivity|]. split; [reflexivity|].
    split; [left; reflexivity|apply consistent_markCompleted].
Qed.

(** Case analysis on a step, with the names the proofs below use. *)
Ltac step_cases Hstep :=
  destruct Hstep as [uuid now settings params s Hfresh | s Hidle | s Hproc
                    | now runningJob st' s Hhead Hstart | now s Hhead Hnone
                    | now w runningJob s Hbuild].

Lemma step_invariant s s' : invariant s -> step s s' -> invariant s'.
Proof.
  intros (Hnd & Hcons & Hw) Hstep.
  step_cases Hstep.
  - unfold invariant. cbn [store worker createJob snd jobs].
    split; [|split].
    + rewrite map_app. apply NoDup_snoc; [exact Hnd|].
      apply getJob_None. exact Hfresh.
    + intros job Hin. apply in_app_or in Hin as [Hin|[<-|[]]].
      * apply Hcons. exact Hin.
      * split; simpl; (split; [intros [? [=]]|discriminate]).
    + destruct (worker s) as [| |held]; try exact I.
      destruct Hw as [Hget Hrun]. split; [|exact Hrun].
      rewrite getJob_app, Hget. reflexivity.
  - unfold invariant. simpl. split; [exact Hnd|]. split; [exact Hcons|exact I].
  - unfold invariant. split; [exact Hnd|]. split; [exact Hcons|exact Hw].
  - destruct (startNext_Some _ _ _ _ Hstart)
      as (next & Hsel & Hrj & Hjobs & _ & _).
    destruct (selectNext_Some _ _ Hsel) as (b & a & Hsplit & Hq & _ & _).
    assert (Hin : In next (jobs (store s))).
    { rewrite Hsplit. apply in_or_app. right. left. reflexivity. }
    unfold invariant. cbn [store worker]. rewrite Hjobs.
    split; [|split].
    + rewrite map_id_updateJob. exact Hnd.
    + intros job Hjob. apply In_updateJob in Hjob as [->|Hjob].
      * rewrite Hrj. apply consistent_markRunning; [apply Hcons; exact Hin|exact Hq].
      * apply Hcons. exact Hjob.
    + split; [|rewrite Hrj; reflexivity].
      rewrite getJob_updateJob, String.eqb_refl.
      replace (id runningJob) with (id next) by (rewrite Hrj; reflexivity).
      rewrite (getJob_In _ _ Hnd Hin). reflexivity.
  - unfold invariant. simpl. split; [exact Hnd|]. split; [exact Hcons|exact I].
  - rewrite Hbuild in Hw. destruct Hw as [Hget Hrun].
    destruct (getJob_Some _ _ _ Hget) as [Hin _].
    destruct (jobs_finishJob now w runningJob (store s))
      as (finished & Hjobs & Hid & _ & Hfin).
    unfold invariant. cbn [store worker]. rewrite Hjobs.
    split; [|split; [|exact I]].
    + rewrite map_id_updateJob. exact Hnd.
    + intros job Hjob. apply In_updateJob in Hjob as [->|Hjob].
      * apply Hfin; [apply Hcons; exact Hin|exact Hrun].
      * apply Hcons. exact Hjob.
Qed.

Lemma invariant_initial : invariant initialSystem.
Proof.
  unfold invariant. simpl. split; [constructor|]. split; [intros job []|exact I].
Qed.

Lemma history_invariant h :
  history h -> forall s past, h = s :: past -> invariant s.
Proof.
  induction 1 as [|s s' past Hh IH Hstep]; intros s0 past0 [= <- <-].
  - exact invariant_initial.
  - eapply step_invariant; [|exact Hstep]. eapply IH. reflexivity.
Qed.

Lemma reachable_invariant s : reachable s -> invariant s.
Proof. intros [past Hh]. eapply history_invariant; [exact Hh|reflexivity]. Qed.

(** ** One step changes a status only along the state machine *)

Lemma allowedChange_refl o : allowedChange o o.
Proof. destruct o; simpl; [left; reflexivity|exact I]. Qed.

Lemma step_allowed s s' :
  invariant s -> step s s' ->
  forall jobId, allowedChange (statusOf jobId s) (statusOf jobId s').
Proof.
  intros (Hnd & Hcons & Hw) Hstep jobId.
  step_cases Hstep;
    try apply allowedChange_refl.
  - unfold statusOf. cbn [store createJob snd jobs]. rewrite getJob_app.
    destruct (getJob jobId (jobs (store s))) as [found|]; simpl.
    + left. reflexivity.
    + destruct (String.eqb uuid jobId); simpl; [reflexivity|exact I].
  - destruct (startNext_Some _ _ _ _ Hstart)
      as (next & Hsel & Hrj & Hjobs & _ & _).
    destruct (selectNext_Some _ _ Hsel) as (b & a & Hsplit & Hq & _ & _).
    assert (Hin : In next (jobs (store s))).
    { rewrite Hsplit. apply in_or_app. right. left. reflexivity. }
    unfold statusOf. cbn [store]. rewrite Hjobs, getJob_updateJob.
    destruct (String.eqb_spec (id runningJob) jobId) as [<-|_];
      [|apply allowedChange_refl].
    replace (id runningJob) with (id next) by (rewrite Hrj; reflexivity).
    rewrite (getJob_In _ _ Hnd Hin). simpl. right. left.
    split; [exact Hq|rewrite Hrj; reflexivity].
  - rewrite Hbuild in Hw. destruct Hw as [Hget Hrun].
    destruct (jobs_finishJob now w runningJob (store s))
      as (finished & Hjobs & Hid & Hterm & _).
    unfold statusOf. cbn [store]. rewrite Hjobs, getJob_updateJob, Hid.
    destruct (String.eqb_spec (id runningJob) jobId) as [<-|_];
      [|apply allowedChange_refl].
    rewrite Hget. simpl. right. right. split; [exact Hrun|exact Hterm].
Qed.

(** ** The claims about the state machine *)

Lemma history_suffix_eq h :
  history h ->
  forall later s past, h = (later ++ s :: past)%list -> history (s :: past).
Proof.
  induction 1 as [|s0 s0' past0 Hpast IH Hstep]; intros later s past Heq.
  - destruct later as [|x [|y later]]; try discriminate.
    injection Heq as <- <-. apply history_init.
  - destruct later as [|x later]; simpl in Heq.
    + injection Heq as <- <-. apply history_step; assumption.
    + injection Heq as _ Heq. exact (IH later s past Heq).
Qed.

Lemma history_suffix later s past :
  history (later ++ s :: past) -> history (s :: past).
Proof. intros Hh. exact (history_suffix_eq _ Hh later s past eq_refl). Qed.


(** C4. In every state a run can reach, every stored job has an artifact
    exactly when it is [completed] and an error exactly when it is
    [failed]. *)
Theorem artifact_and_error_match_status s :
  reachable s ->
  forall job, In job (jobs (store s)) ->
    (is_Some (artifact job) <-> status job = completed)
    /\ (is_Some (error job) <-> status job = failed).
Proof.
  intros Hreach job Hin.
  destruct (reachable_invariant s Hreach) as (_ & Hcons & _).
  exact (Hcons job Hin).
Qed.

Lemma sample_run_history : history Sample.run.
Proof.
  unfold Sample.run.
  apply history_step; [apply history_step; [apply history_step;
    [apply history_step; [apply history_init|]|]|]|].
  - exact (step_create "job-1" 1000 None (Sample.upload None None None)
             initialSystem eq_refl).
  - exact (step_enter Sample.s1 eq_refl).
  - exact (step_start 2000 Sample.running1 (store Sample.s3) Sample.s2
             eq_refl eq_refl).
  - exact (step_finish 2001 (Sample.host true (inl "exit 1")) Sample.running1
             Sample.s3 eq_refl).
Qed.


Lemma artifact_and_error_match_status_witness :
  reachable Sample.s4
  /\ (forall job, In job (jobs (store Sample.s4)) ->
        (is_Some (artifact job) <-> status job = completed)
        /\ (is_Some (error job) <-> status job = failed)).
Proof.
  assert (H : reachable Sample.s4).
  { eexists. exact sample_run_history. }
  split; [exact H|].
  exact (artifact_and_error_match_status Sample.s4 H).
Defined.

(** The store keeps jobs in insertion order: a step leaves the sequence
    of ids as it is or appends the id of the job just created. *)
Lemma step_ids s s' :
  step s s' ->
  map id (jobs (store s')) = map id (jobs (store s))
  \/ exists uuid,
       map id (jobs (store s')) = (map id (jobs (store s)) ++ [uuid])%list.
Proof.
  intros Hstep. step_cases Hstep; try (left; reflexivity).
  - right. exists uuid. cbn [store createJob snd jobs]. rewrite map_app. reflexivity.
  - left. destruct (startNext_Some _ _ _ _ Hstart) as (next & _ & _ & Hjobs & _).
    cbn [store]. rewrite Hjobs. apply map_id_updateJob.
  - left. destruct (jobs_finishJob now w runningJob (store s))
      as (finished & Hjobs & _).
    cbn [store]. rewrite Hjobs. apply map_id_updateJob.
Qed.

(** ** Order of processing *)

Lemma In_insertBy {A} (cmp : A -> A -> Z) x y l :
  In x (insertBy cmp y l) -> x = y \/ In x l.
Proof.
  induction l as [|z l IH]; simpl.
  - intros [<-|[]]. left. reflexivity.
  - destruct (cmp y z <=? 0); simpl.
    + intros [<-|H]; [left; reflexivity|right; exact H].
    + intros [<-|H]; [right; left; reflexivity|].
      destruct (IH H) as [->|H']; [left; reflexivity|right; right; exact H'].
Qed.

Lemma In_sort {A} (cmp : A -> A -> Z) x l : In x (sort cmp l) -> In x l.
Proof.
  induction l as [|y l IH]; simpl; [tauto|].
  intros H. apply In_insertBy in H as [->|H]; [left; reflexivity|].
  right. apply IH. exact H.
Qed.

(** An element strictly older than all before it and no younger than all
    after it sorts to the front, and the rest sorts as if it were absent. *)
Lemma sort_oldest before next after :
  (forall j, In j before -> createdAt next < createdAt j) ->
  (forall j, In j after -> createdAt next <= createdAt j) ->
  sort byCreation (before ++ next :: after)
  = next :: sort byCreation (before ++ after).
Proof.
  intros Hb Ha. induction before as [|x before IH]; simpl.
  - destruct (sort byCreation after) as [|z rest] eqn:Hs; [reflexivity|].
    simpl. assert (Hz : In z after).
    { apply (In_sort byCreation). rewrite Hs. left. reflexivity. }
    specialize (Ha z Hz). unfold byCreation at 1.
    destruct (Z.leb_spec (createdAt next - createdAt z) 0); [reflexivity|lia].
  - rewrite IH by (intros j Hj; apply Hb; right; exact Hj).
    simpl. specialize (Hb x (or_introl eq_refl)). unfold byCreation at 1.
    destruct (Z.leb_spec (createdAt x - createdAt next) 0); [lia|reflexivity].
Qed.

Lemma selectNext_pending jobs : selectNext jobs = head (pending jobs).
Proof. reflexivity. Qed.

Lemma updateJob_split job before old after :
  (forall x, In x before -> id x <> id job) ->
  id old = id job ->
  updateJob job (before ++ old :: after) = (before ++ job :: after)%list.
Proof.
  intros Hb Hold. induction before as [|x before IH]; simpl.
  - rewrite Hold, String.eqb_refl. reflexivity.
  - destruct (String.eqb_spec (id x) (id job)) as [Heq|_].
    + exfalso. exact (Hb x (or_introl eq_refl) Heq).
    + rewrite IH by (intros y Hy; apply Hb; right; exact Hy). reflexivity.
Qed.

Lemma NoDup_split_ids (before : list BuildJob) next after :
  List.NoDup (map id (before ++ next :: after)) ->
  forall x, In x before -> id x <> id next.
Proof.
  rewrite map_app. simpl. intros Hnd x Hx Heq.
  apply NoDup_remove_2 in Hnd. apply Hnd. apply in_or_app. left.
  rewrite <- Heq. apply in_map. exact Hx.
Qed.

Lemma filter_app_queued before job after :
  List.filter isQueued (before ++ job :: after)
  = (List.filter isQueued before
       ++ (if isQueued job then [job] else []) ++ List.filter isQueued after)%list.
Proof.
  rewrite List.filter_app. simpl. destruct (isQueued job); reflexivity.
Qed.

(** One full iteration takes the head of the pending queue and leaves its
    tail pending. *)
Lemma iteration_pending now now' w st runningJob st' :
  List.NoDup (map id (jobs st)) ->
  startNext now st = Some (runningJob, st') ->
  exists next,
    pending (jobs st)
    = next :: pending (jobs (finishJob now' w runningJob st'))
    /\ id runningJob = id next
    /\ List.NoDup (map id (jobs (finishJob now' w runningJob st'))).
Proof.
  intros Hnd Hstart.
  destruct (startNext_Some _ _ _ _ Hstart) as (next & Hsel & Hrj & Hjobs & _ & _).
  destruct (selectNext_Some _ _ Hsel) as (b & a & Hsplit & Hq & Hb & Ha).
  destruct (jobs_finishJob now' w runningJob st')
    as (finished & Hfin & Hid & Hterm & _).
  assert (Hidr : id runningJob = id next) by (rewrite Hrj; reflexivity).
  exists next. split; [|split; [exact Hidr|]].
  - rewrite Hfin, Hjobs, Hsplit.
    rewrite Hsplit in Hnd.
    rewrite (updateJob_split runningJob b next a);
      [|intros x Hx; rewrite Hidr; exact (NoDup_split_ids b next a Hnd x Hx)
       |symmetry; exact Hidr].
    rewrite (updateJob_split finished b runningJob a);
      [|intros x Hx; rewrite Hid, Hidr; exact (NoDup_split_ids b next a Hnd x Hx)
       |symmetry; exact Hid].
    unfold pending. rewrite !filter_app_queued.
    assert (Hqn : isQueued next = true) by (apply BuildStatus_eqb_eq; exact Hq).
    assert (Hqf : isQueued finished = false).
    { unfold isQueued. destruct Hterm as [-> | ->]; reflexivity. }
    rewrite Hqn, Hqf. simpl.
    apply sort_oldest.
    + intros j Hj. apply List.filter_In in Hj as [Hj Hjq].
      apply Hb; [exact Hj|apply BuildStatus_eqb_eq; exact Hjq].
    + intros j Hj. apply List.filter_In in Hj as [Hj Hjq].
      apply Ha; [exact Hj|apply BuildStatus_eqb_eq; exact Hjq].
  - rewrite Hfin, map_id_updateJob, Hjobs, map_id_updateJob. exact Hnd.
Qed.

(** A pass starts the pending jobs in queue order, one per tick. *)
Lemma processOrder_pending ticks st :
  List.NoDup (map id (jobs st)) ->
  processOrder ticks st
  = List.firstn (length ticks) (map id (pending (jobs st))).
Proof.
  revert st. induction ticks as [|tick rest IH]; intros st Hnd; [reflexivity|].
  cbn [processOrder length].
  destruct (startNext (startNow tick) st) as [[runningJob st']|] eqn:Hstart.
  - destruct (iteration_pending (startNow tick) (endNow tick) (world tick)
                st runningJob st' Hnd Hstart) as (next & Hp & Hid & Hnd').
    rewrite Hp. cbn [map List.firstn]. rewrite Hid. f_equal.
    apply IH. exact Hnd'.
  - unfold startNext in Hstart. rewrite selectNext_pending in Hstart.
    destruct (pending (jobs st)) as [|x l]; [reflexivity|discriminate].
Qed.

(** With a tick for every pending job the pass leaves nothing queued. *)
Lemma processQueue_pending ticks st :
  List.NoDup (map id (jobs st)) ->
  pending (jobs (processQueue ticks st))
  = List.skipn (length ticks) (pending (jobs st)).
Proof.
  revert st. induction ticks as [|tick rest IH]; intros st Hnd; [reflexivity|].
  cbn [processQueue length].
  destruct (startNext (startNow tick) st) as [[runningJob st']|] eqn:Hstart.
  - destruct (iteration_pending (startNow tick) (endNow tick) (world tick)
                st runningJob st' Hnd Hstart) as (next & Hp & _ & Hnd').
    rewrite Hp. cbn [List.skipn]. apply IH. exact Hnd'.
  - unfold startNext in Hstart. rewrite selectNext_pending in Hstart.
    destruct (pending (jobs st)) as [|x l]; [reflexivity|discriminate].
Qed.

Lemma processQueue_drains ticks st :
  List.NoDup (map id (jobs st)) ->
  (length (pending (jobs st)) <= length ticks)%nat ->
  selectNext (jobs (processQueue ticks st)) = None.
Proof.
  intros Hnd Hlen. rewrite selectNext_pending, processQueue_pending by exact Hnd.
  rewrite List.skipn_all2 by exact Hlen. reflexivity.
Qed.

(** ** A pass is a run of steps *)

Lemma reachable_step s s' : reachable s -> step s s' -> reachable s'.
Proof.
  intros [past Hh] Hstep. exists (s :: past). apply history_step; assumption.
Qed.

Lemma pass_reachable ticks st :
  reachable {| store := st; worker := AtLoopHead |} ->
  exists w, reachable {| store := processQueue ticks st; worker := w |}.
Proof.
  revert st. induction ticks as [|tick rest IH]; intros st Hreach.
  - exists AtLoopHead. exact Hreach.
  - cbn [processQueue].
    destruct (startNext (startNow tick) st) as [[runningJob st']|] eqn:Hstart.
    + apply IH.
      eapply reachable_step;
        [eapply reachable_step; [exact Hreach|]|].
      * exact (step_start (startNow tick) runningJob st'
                 {| store := st; worker := AtLoopHead |} eq_refl Hstart).
      * exact (step_finish (endNow tick) (world tick) runningJob
                 {| store := st'; worker := Building runningJob |} eq_refl).
    + exists Idle.
      eapply reachable_step; [exact Hreach|].
      exact (step_drained (startNow tick)
               {| store := st; worker := AtLoopHead |} eq_refl Hstart).
Qed.

(** What [processQueue] returns when called on an idle system is a state
    the step relation reaches. *)
Lemma processQueue_reachable ticks st :
  reachable {| store := st; worker := Idle |} ->
  exists w, reachable {| store := processQueue ticks st; worker := w |}.
Proof.
  intros Hreach. apply pass_reachable.
  eapply reachable_step; [exact Hreach|].
  exact (step_enter {| store := st; worker := Idle |} eq_refl).
Qed.

(** C6. The job the worker takes is queued, strictly older than every
    queued job stored before it and no younger than every queued job
    stored after it: the smallest creation timestamp, the first inserted
    among equals. It takes one whenever a job is queued. Hence one pass
    starts the queued jobs by creation time, ties in insertion order. *)
Theorem worker_takes_oldest_queued now st :
  (forall runningJob st', startNext now st = Some (runningJob, st') ->
     exists next before after,
       jobs st = (before ++ next :: after)%list
       /\ runningJob = markRunning next now
       /\ status next = queued
       /\ (forall j, In j before -> status j = queued ->
             createdAt next < createdAt j)
       /\ (forall j, In j after -> status j = queued ->
             createdAt next <= createdAt j))
  /\ (forall j, In j (jobs st) -> status j = queued ->
        is_Some (startNext now st))
  /\ (List.NoDup (map id (jobs st)) ->
      forall ticks,
        processOrder ticks st
        = List.firstn (length ticks) (map id (pending (jobs st)))).
Proof.
  split; [|split].
  - intros runningJob st' Hstart.
    destruct (startNext_Some _ _ _ _ Hstart) as (next & Hsel & Hrj & _).
    destruct (selectNext_Some _ _ Hsel) as (b & a & Hsplit & Hq & Hb & Ha).
    exists next, b, a. repeat split; assumption.
  - intros j Hin Hq. unfold startNext.
    destruct (selectNext_is_Some (jobs st) j Hin Hq) as [next ->].
    eexists. reflexivity.
  - intros Hnd ticks. exact (processOrder_pending ticks st Hnd).
Qed.

Lemma worker_takes_oldest_queued_witness :
  let st := {| jobs := Sample.backlog; queue := ∅; artifacts := ∅ |} in
  (id <$> (fst <$> startNext 100 st)) = Some "job-c"
  /\ processOrder
       [Sample.tick 100 (Sample.host false (inl "exit 1"));
        Sample.tick 200 (Sample.host false (inl "exit 1"));
        Sample.tick 300 (Sample.host false (inl "exit 1"));
        Sample.tick 400 (Sample.host false (inl "exit 1"))] st
     = ["job-c"; "job-d"; "job-b"].
Proof.
  cbv zeta. split; [vm_compute; reflexivity|].
  rewrite (proj2 (proj2 (worker_takes_oldest_queued 100
                           {| jobs := Sample.backlog; queue := ∅; artifacts := ∅ |})));
    [vm_compute; reflexivity|].
  vm_compute. repeat constructor; simpl; intuition discriminate.
Defined.

(** ** The staging directory *)

(** What the second half of an iteration does to [queue/<id>]: removed
    when the build succeeds, untouched when it fails. *)
Lemma staging_directory_after_finish now w runningJob st :
  queue (finishJob now w runningJob st)
  = match snd (build w runningJob st) with
    | inr _ => delete (id runningJob) (queue st)
    | inl _ => queue st
    end.
Proof.
  unfold finishJob. destruct (snd (build w runningJob st)); reflexivity.
Qed.

(** C2, evaluated where it fails. A source bundle is submitted on a host
    without the Android SDK and the worker runs a pass: the job ends
    [failed] with the error naming the missing SDK variables, nothing is
    left queued, and [queue/job-1] still holds [input.zip]. *)
Lemma failed_build_keeps_staging_directory :
  let st1 := snd Sample.created in
  let st2 := processQueue
               [Sample.tick 2000 (Sample.host true (inl "exit 1"));
                Sample.tick 3000 (Sample.host true (inl "exit 1"))] st1 in
  statusOf "job-1" {| store := st2; worker := Idle |} = Some failed
  /\ (getJob "job-1" (jobs st2) ≫= error)
     = Some "ANDROID_HOME or ANDROID_SDK_ROOT is not set. Install Android SDK and set the environment variable."
  /\ selectNext (jobs st2) = None
  /\ queue st2 !! "job-1"
     = Some {| input_zip := Some [Byte.x50; Byte.x4b; Byte.x03; Byte.x04];
               keystore_jks := None;
               keystore_json := None |}.
Proof.
  cbv zeta. split; [vm_compute; reflexivity|]. split; [vm_compute; reflexivity|].
  split; vm_compute; reflexivity.
Qed.

(** The same pass over a compiled archive on the same host: the job ends
    [completed], its artifact is stored, and [queue/job-1] is gone. *)
Example completed_build_removes_staging_directory :
  let st1 := snd Sample.created in
  let st2 := processQueue
               [Sample.tick 2000 (Sample.host false (inr "SHA256: ab:cd"));
                Sample.tick 3000 (Sample.host false (inr "SHA256: ab:cd"))] st1 in
  statusOf "job-1" {| store := st2; worker := Idle |} = Some completed
  /\ (getJob "job-1" (jobs st2) ≫= artifact)
     = Some {| name := "input-aligned-debugSigned.apk";
               artifact_size := 2;
               sha256 := "ab:cd" |}
  /\ (artifacts st2 !! "job-1" ≫= (.!! "input-aligned-debugSigned.apk"))
     = Some [Byte.x50; Byte.x4b]
  /\ queue st2 !! "job-1" = None.
Proof.
  cbv zeta. split; [vm_compute; reflexivity|]. split; [vm_compute; reflexivity|].
  split; vm_compute; reflexivity.
Qed.

(** ** Keystore without credentials *)

(** C10. When [createJob] gets keystore bytes but no alias or no store
    password, the fresh staging directory holds the keystore file but no
    credentials file, the job records [hasKeystore = false], and whenever
    the worker builds the job from that directory the pipeline runs without
    a keystore: its keystore step writes no file and hands the signer
    command on unchanged, so the signer is invoked without keystore
    flags, and nothing fails on account of the keystore. *)
Theorem keystore_without_credentials_ignored
    uuid now settings params st keystoreBuffer :
  p_keystoreBuffer params = Some keystoreBuffer ->
  truthyO (p_keystoreAlias params) = false
  \/ truthyO (p_keystorePass params) = false ->
  queue st !! uuid = None ->
  let job := fst (createJob uuid now settings params st) in
  let st1 := snd (createJob uuid now settings params st) in
  queue st1 !! uuid
  = Some {| input_zip := Some (p_zipBuffer params);
            keystore_jks := Some keystoreBuffer;
            keystore_json := None |}
  /\ hasKeystore (input job) = false
  /\ forall w runningJob st2,
       id runningJob = uuid ->
       queue st2 !! uuid = queue st1 !! uuid ->
       let options :=
         {| Runner.zipBuffer := p_zipBuffer params;
            Runner.keystore := None;
            Runner.skipZipAlign := skipZipAlign (input runningJob) |} in
       build w runningJob st2 = Runner.runAndroidBuild w options
       /\ forall command,
            Runner.withKeystore w options command = Runner.ret command.
Proof.
  intros Hks Hcred Hfresh job st1.
  assert (Hdir : queue st1 !! uuid
                 = Some {| input_zip := Some (p_zipBuffer params);
                           keystore_jks := Some keystoreBuffer;
                           keystore_json := None |}).
  { subst st1. cbn [createJob snd queue]. rewrite lookup_insert_eq.
    rewrite Hfresh. unfold stage. rewrite Hks. cbn [default emptyDir].
    destruct Hcred as [H|H]; rewrite H; [|rewrite andb_false_r]; reflexivity. }
  split; [exact Hdir|]. split.
  - subst job. cbn [createJob fst input hasKeystore].
    destruct Hcred as [H|H]; rewrite H;
      [rewrite andb_false_r|rewrite andb_false_r]; reflexivity.
  - intros w runningJob st2 Hid Hsame options. split.
    + unfold build. rewrite Hid, Hsame, Hdir. reflexivity.
    + intros command. reflexivity.
Qed.

Lemma keystore_without_credentials_ignored_witness :
  let params := Sample.upload (Some [Byte.xfe; Byte.xed]) None (Some "secret") in
  let job := fst (createJob "job-2" 1000 None params emptyStore) in
  let st1 := snd (createJob "job-2" 1000 None params emptyStore) in
  let w := Sample.host false (inl "exit 1") in
  p_keystoreBuffer params = Some [Byte.xfe; Byte.xed]
  /\ (queue st1 !! "job-2" ≫= keystore_json) = None
  /\ (queue st1 !! "job-2" ≫= keystore_jks) = Some [Byte.xfe; Byte.xed]
  /\ hasKeystore (input job) = false
  /\ build w (markRunning job 2000) st1
     = Runner.runAndroidBuild w
         {| Runner.zipBuffer := p_zipBuffer params;
            Runner.keystore := None;
            Runner.skipZipAlign := false |}
  /\ fst (build w (markRunning job 2000) st1)
     = [ Runner.Mkdir "/tmp/droidforge-1-abc123";
         Runner.WriteFile "/tmp/droidforge-1-abc123/input.zip";
         Runner.WriteFile "/tmp/droidforge-1-abc123/input.apk";
         Runner.Mkdir "/tmp/droidforge-1-abc123/out";
         Runner.Exec "java -jar /srv/app/uber-apk-signer.jar -a /tmp/droidforge-1-abc123/input.apk -o /tmp/droidforge-1-abc123/out";
         Runner.Exec "ls /tmp/droidforge-1-abc123/out";
         Runner.Exec "java -jar /srv/app/uber-apk-signer.jar -y -a /tmp/droidforge-1-abc123/out/input-aligned-debugSigned.apk --verbose";
         Runner.Rm "/tmp/droidforge-1-abc123" ].
Proof.
  cbv zeta.
  destruct (keystore_without_credentials_ignored "job-2" 1000 None
              (Sample.upload (Some [Byte.xfe; Byte.xed]) None (Some "secret"))
              emptyStore [Byte.xfe; Byte.xed] eq_refl (or_introl eq_refl) eq_refl)
    as (Hdir & Hhas & Hbuild).
  split; [reflexivity|]. split; [rewrite Hdir; reflexivity|].
  split; [rewrite Hdir; reflexivity|]. split; [exact Hhas|].
  destruct (Hbuild (Sample.host false (inl "exit 1"))
              (markRunning (fst (createJob "job-2" 1000 None
                                   (Sample.upload (Some [Byte.xfe; Byte.xed])
                                      None (Some "secret")) emptyStore)) 2000)
              (snd (createJob "job-2" 1000 None
                      (Sample.upload (Some [Byte.xfe; Byte.xed])
                         None (Some "secret")) emptyStore))
              eq_refl eq_refl) as (Hrun & _).
  split; [exact Hrun|]. rewrite Hrun. vm_compute. reflexivity.
Defined.

(** With alias and store password the same upload is signed with the
    keystore: the file is staged and the flags are on the command line. *)
Example keystore_with_credentials_used :
  let params := Sample.upload (Some [Byte.xfe; Byte.xed])
                  (Some "release") (Some "secret") in
  let job := fst (createJob "job-3" 1000 None params emptyStore) in
  let st1 := snd (createJob "job-3" 1000 None params emptyStore) in
  hasKeystore (input job) = true
  /\ fst (build (Sample.host false (inl "exit 1")) (markRunning job 2000) st1)
     = [ Runner.Mkdir "/tmp/droidforge-1-abc123";
         Runner.WriteFile "/tmp/droidforge-1-abc123/input.zip";
         Runner.WriteFile "/tmp/droidforge-1-abc123/input.apk";
         Runner.Mkdir "/tmp/droidforge-1-abc123/out";
         Runner.WriteFile "/tmp/droidforge-1-abc123/user.keystore";
         Runner.Exec "java -jar /srv/app/uber-apk-signer.jar -a /tmp/droidforge-1-abc123/input.apk -o /tmp/droidforge-1-abc123/out --ks /tmp/droidforge-1-abc123/user.keystore --ksAlias release --ksPass secret";
         Runner.Exec "ls /tmp/droidforge-1-abc123/out";
         Runner.Exec "java -jar /srv/app/uber-apk-signer.jar -y -a /tmp/droidforge-1-abc123/out/input-aligned-debugSigned.apk --verbose";
         Runner.Rm "/tmp/droidforge-1-abc123" ].
Proof. cbv zeta. split; vm_compute; reflexivity. Qed.

End QueueFacts.

(* ===================================================================== *)
(** * Properties of the build pipeline *)
(* ===================================================================== *)

Module RunnerFacts.
Import Runner.

Example matchSHA256_leftmost :
  Str.matchSHA256 "Digest SHA256: zz, SHA256: ab:CD 12 (ok)" = Some "ab:CD 12 ".
Proof. reflexivity. Qed.

Example matchSHA256_none : Str.matchSHA256 "SHA-256 digest: abcd" = None.
Proof. reflexivity. Qed.

(** Whatever happens, the last thing a build does is remove its working
    directory. *)
Lemma runAndroidBuild_removes_tempDir w options :
  exists before,
    fst (runAndroidBuild w options) = (before ++ [Rm (tempDir w)])%list.
Proof. unfold runAndroidBuild, finally. eexists. reflexivity. Qed.

Lemma runAndroidBuild_after_signing w options log signed :
  signStage w options = (log, inr signed) ->
  snd (runAndroidBuild w options)
  = inr {| apkBuffer := signedApkBuffer signed;
           apkName := signedApkName signed;
           sha256 := match exec w (verifyCommand (jarPath signed)
                                     (signedApkPath signed)) with
                     | inr stdout =>
                         match Str.matchSHA256 stdout with
                         | Some captured => Str.trim captured
                         | None => UNKNOWN_SHA256
                         end
                     | inl _ => UNKNOWN_SHA256
                     end |}.
Proof.
  intros Hsigned. unfold runAndroidBuild, finally, bind. rewrite Hsigned.
  reflexivity.
Qed.

(** C8. Once signing has produced its output, the pipeline returns the
    signed bytes and the output file name whatever the verification run
    does; and when that run fails, or its report has no match for the hash
    pattern, the hash returned is the sentinel (the string [Unknown]). *)
Theorem hash_extraction_never_fails_build w options log signed :
  signStage w options = (log, inr signed) ->
  (exists hash,
     snd (runAndroidBuild w options)
     = inr {| apkBuffer := signedApkBuffer signed;
              apkName := signedApkName signed;
              sha256 := hash |})
  /\ ((exists message,
         exec w (verifyCommand (jarPath signed) (signedApkPath signed))
         = inl message)
      \/ (exists stdout,
            exec w (verifyCommand (jarPath signed) (signedApkPath signed))
            = inr stdout
            /\ Str.matchSHA256 stdout = None) ->
      snd (runAndroidBuild w options)
      = inr {| apkBuffer := signedApkBuffer signed;
               apkName := signedApkName signed;
               sha256 := UNKNOWN_SHA256 |}).
Proof.
  intros Hsigned.
  rewrite (runAndroidBuild_after_signing w options log signed Hsigned).
  split; [eexists; reflexivity|].
  intros [[message Hfail]|(stdout & Hout & Hnone)].
  - rewrite Hfail. reflexivity.
  - rewrite Hout, Hnone. reflexivity.
Qed.

Lemma hash_extraction_never_fails_build_witness :
  let w := Sample.host false (inr "Verification report without a digest") in
  let options := {| zipBuffer := [Byte.x50; Byte.x4b];
                    keystore := None; skipZipAlign := false |} in
  is_Some (match snd (signStage w options) with
           | inr signed => Some signed
           | inl _ => None
           end)
  /\ snd (runAndroidBuild w options)
     = inr {| apkBuffer := [Byte.x50; Byte.x4b];
              apkName := "input-aligned-debugSigned.apk";
              sha256 := "Unknown" |}.
Proof.
  cbv zeta. split; [vm_compute; eexists; reflexivity|].
  destruct (signStage (Sample.host false (inr "Verification report without a digest"))
              {| zipBuffer := [Byte.x50; Byte.x4b];
                 keystore := None; skipZipAlign := false |})
    as [log [message|signed]] eqn:Hsigned.
  - vm_compute in Hsigned. discriminate.
  - destruct (hash_extraction_never_fails_build _ _ log signed Hsigned)
      as [_ Hunknown].
    rewrite Hunknown.
    + vm_compute in Hsigned. injection Hsigned as _ <-. reflexivity.
    + right. exists "Verification report without a digest".
      vm_compute in Hsigned. injection Hsigned as _ <-.
      split; vm_compute; reflexivity.
Defined.

End RunnerFacts.

(* ===================================================================== *)
(** * Further properties of the quota ledger *)
(* ===================================================================== *)

Module QuotaExtras.
Import Quota QuotaRuns.

Lemma getScopeCount_incrementScope_other usage scope id key id' key' :
  id <> id' \/ key <> key' ->
  getScopeCount (incrementScope usage scope id key) scope id' key'
  = getScopeCount usage scope id' key'.
Proof.
  intros Hne. unfold getScopeCount, incrementScope.
  destruct (truthy id); [|reflexivity].
  rewrite QuotaFacts.scopeTable_setScopeTable.
  destruct (truthy id'); [|reflexivity].
  apply QuotaFacts.bucket_bump_other. exact Hne.
Qed.

Lemma getIpHourlyCount_incrementIpHourly_other usage ip key ip' key' :
  ip <> ip' \/ key <> key' ->
  getIpHourlyCount (incrementIpHourly usage ip key) ip' key'
  = getIpHourlyCount usage ip' key'.
Proof.
  intros Hne. unfold getIpHourlyCount, incrementIpHourly.
  destruct (truthy ip); [|reflexivity]. simpl.
  destruct (truthy ip'); [|reflexivity].
  apply QuotaFacts.bucket_bump_other. exact Hne.
Qed.

Lemma utcHour_same t t' :
  utcHour t <= t' < utcHour t + msPerHour -> utcHour t' = utcHour t.
Proof.
  unfold utcHour, msPerHour. change (60 * 60 * 1000) with 3600000.
  intros Hrange.
  assert (Hq : t' / 3600000 = t / 3600000); [|rewrite Hq; reflexivity].
  symmetry. apply (Z.div_unique t' 3600000 (t / 3600000)
                     (t' - t / 3600000 * 3600000)); lia.
Qed.

Section WithClock.

Variable toISOString : Z -> string.
Variable parseDate : string -> Z.

Local Abbreviation getWeekKey := (Quota.getWeekKey toISOString).
Local Abbreviation getHourKey := (Quota.getHourKey toISOString).
Local Abbreviation getWeekEnd := (Quota.getWeekEnd toISOString parseDate).
Local Abbreviation getQuotaSnapshot := (Quota.getQuotaSnapshot toISOString parseDate).
Local Abbreviation consumeQuota := (Quota.consumeQuota toISOString parseDate).
Local Abbreviation consumeAll := (Quota.consumeAll toISOString parseDate).
Local Abbreviation accepted := (QuotaRuns.accepted toISOString parseDate).
Local Abbreviation fromAddress := (QuotaRuns.fromAddress toISOString).
Local Abbreviation fromIdentity := (QuotaRuns.fromIdentity toISOString).

(** X1. The week bucket of a date is keyed by the Monday 00:00 UTC on or
    before it, less than seven days back, and every instant of that
    Monday-to-Sunday week gets the same key. *)
Theorem week_bucket_monday_anchored t :
  mondayOf t mod msPerDay = 0
  /\ getUTCDay (mondayOf t) = 1
  /\ mondayOf t <= t < mondayOf t + 7 * msPerDay
  /\ (forall t', mondayOf t <= t' < mondayOf t + 7 * msPerDay ->
        getWeekKey t' = getWeekKey t).
Proof.
  destruct (QuotaFacts.mondayOf_spec t) as (Hmid & Hday & Hrange).
  split; [exact Hmid|]. split; [exact Hday|]. split; [exact Hrange|].
  intros t' Hrange'. unfold Quota.getWeekKey.
  rewrite (QuotaFacts.mondayOf_inWeekOf (mondayOf t) t'); [reflexivity|].
  split; [exact Hmid|]. split; [exact Hday|exact Hrange'].
Qed.

(** X2. The hour bucket of a date is keyed by the start of its UTC clock
    hour, and every instant of that hour gets the same key. *)
Theorem hour_bucket_truncates_to_hour t :
  utcHour t mod msPerHour = 0
  /\ utcHour t <= t < utcHour t + msPerHour
  /\ (forall t', utcHour t <= t' < utcHour t + msPerHour ->
        getHourKey t' = getHourKey t).
Proof.
  split; [|split].
  - unfold utcHour, msPerHour. apply Z.mod_mul. lia.
  - unfold utcHour, msPerHour. change (60 * 60 * 1000) with 3600000.
    pose proof (Z.div_mod t 3600000 ltac:(lia)).
    pose proof (Z.mod_pos_bound t 3600000 ltac:(lia)). lia.
  - intros t' Hrange. unfold Quota.getHourKey.
    rewrite (utcHour_same t t' Hrange). reflexivity.
Qed.

(** X3. When the runtime parses the week key back to the Monday it was
    formatted from, [weekEnd] is the date of the instant six days later,
    which is the Sunday of the same week. *)
Theorem week_end_is_sunday t :
  parseDate (getWeekKey t ++ "T00:00:00.000Z") = mondayOf t ->
  getWeekEnd (getWeekKey t)
  = slice0 10 (toISOString (mondayOf t + 6 * msPerDay))
  /\ getUTCDay (mondayOf t + 6 * msPerDay) = 0
  /\ mondayOf (mondayOf t + 6 * msPerDay) = mondayOf t.
Proof.
  intros Hparse.
  destruct (QuotaFacts.mondayOf_spec t) as (Hmid & Hday & Hrange).
  split; [|split].
  - unfold Quota.getWeekEnd. rewrite Hparse. reflexivity.
  - revert Hmid Hday. unfold getUTCDay, msPerDay.
    change (24 * 60 * 60 * 1000) with 86400000.
    generalize (mondayOf t). intros m Hmid Hday.
    pose proof (Z.div_mod m 86400000 ltac:(lia)) as Hm. rewrite Hmid in Hm.
    replace (m + 6 * 86400000) with ((m / 86400000 + 6) * 86400000) by lia.
    rewrite Z.div_mul by lia.
    pose proof (Z.div_mod (m / 86400000 + 4) 7 ltac:(lia)) as Hq.
    rewrite Hday in Hq.
    replace (m / 86400000 + 6 + 4)
      with (0 + ((m / 86400000 + 4) / 7 + 1) * 7) by lia.
    rewrite Z_mod_plus_full. reflexivity.
  - apply QuotaFacts.mondayOf_inWeekOf.
    split; [exact Hmid|]. split; [exact Hday|]. unfold msPerDay. lia.
Qed.

(** ** One call *)

(** Every call either rejects and leaves the store, or passes both tests
    and writes the three increments. *)
Lemma consumeQuota_result now params usage :
  let weekKey := getWeekKey (atWeek now) in
  let hourKey := getHourKey (atHour now) in
  let u := orEmpty (userId params) in
  let d := orEmpty (deviceId params) in
  let i := orEmpty (ip params) in
  (allowed (fst (consumeQuota now params usage)) = false
   /\ snd (consumeQuota now params usage) = usage)
  \/ (allowed (fst (consumeQuota now params usage)) = true
      /\ snd (consumeQuota now params usage)
         = incrementIpHourly
             (incrementScope (incrementScope usage ScopeUser u weekKey)
                ScopeDevice d weekKey) i hourKey
      /\ getIpHourlyCount usage i hourKey < IP_HOURLY_LIMIT
      /\ (forall l, getLimitForPlan (plan params) = Some l ->
            Z.max (getScopeCount usage ScopeUser u weekKey)
                  (getScopeCount usage ScopeDevice d weekKey) < l)).
Proof.
  cbv zeta. unfold Quota.consumeQuota.
  destruct (Z.leb_spec IP_HOURLY_LIMIT
              (getIpHourlyCount usage (orEmpty (ip params))
                 (getHourKey (atHour now)))) as [_|Hip];
    [left; split; reflexivity|].
  destruct (getLimitForPlan (plan params)) as [l|].
  - destruct (Z.leb_spec l
                (Z.max (getScopeCount usage ScopeUser (orEmpty (userId params))
                          (getWeekKey (atWeek now)))
                       (getScopeCount usage ScopeDevice (orEmpty (deviceId params))
                          (getWeekKey (atWeek now))))) as [_|Hweek];
      [left; split; reflexivity|].
    right. split; [reflexivity|]. split; [reflexivity|]. split; [exact Hip|].
    intros l' [= <-]. exact Hweek.
  - right. split; [reflexivity|]. split; [reflexivity|]. split; [exact Hip|].
    intros l' [=].
Qed.

Lemma getScopeCount_incrementScope_bounds usage scope id key scope' id' key' :
  getScopeCount usage scope' id' key'
  <= getScopeCount (incrementScope usage scope id key) scope' id' key'
  <= getScopeCount usage scope' id' key' + 1.
Proof.
  assert (Hsame : forall sc,
             getScopeCount usage sc id' key'
             <= getScopeCount (incrementScope usage sc id key) sc id' key'
             <= getScopeCount usage sc id' key' + 1).
  { intros sc. unfold getScopeCount, incrementScope.
    destruct (truthy id'); [|lia].
    destruct (truthy id); [|lia].
    rewrite QuotaFacts.scopeTable_setScopeTable.
    apply QuotaFacts.bucket_bump_bounds. }
  destruct scope, scope'; try apply Hsame;
    rewrite QuotaFacts.getScopeCount_incrementScope_scope by discriminate; lia.
Qed.

Lemma consumeQuota_scope_bounds now params usage scope id key :
  getScopeCount usage scope id key
  <= getScopeCount (snd (consumeQuota now params usage)) scope id key
  <= getScopeCount usage scope id key + 1.
Proof.
  destruct (consumeQuota_result now params usage) as [[_ ->]|(_ & -> & _)];
    [lia|].
  rewrite QuotaFacts.getScopeCount_incrementIpHourly.
  pose proof (getScopeCount_incrementScope_bounds usage ScopeUser
                (orEmpty (userId params)) (getWeekKey (atWeek now))
                scope id key) as H1.
  pose proof (getScopeCount_incrementScope_bounds
                (incrementScope usage ScopeUser (orEmpty (userId params))
                   (getWeekKey (atWeek now)))
                ScopeDevice (orEmpty (deviceId params))
                (getWeekKey (atWeek now)) scope id key) as H2.
  destruct scope.
  - rewrite (QuotaFacts.getScopeCount_incrementScope_scope
               (incrementScope usage ScopeUser (orEmpty (userId params))
                  (getWeekKey (atWeek now)))
               ScopeDevice ScopeUser) by (intros [=]).
    exact H1.
  - rewrite (QuotaFacts.getScopeCount_incrementScope_scope usage
               ScopeUser ScopeDevice) in H2 by (intros [=]).
    exact H2.
Qed.

Lemma consumeQuota_ip_bounds now params usage i key :
  getIpHourlyCount usage i key
  <= getIpHourlyCount (snd (consumeQuota now params usage)) i key
  <= getIpHourlyCount usage i key + 1.
Proof.
  destruct (consumeQuota_result now params usage) as [[_ ->]|(_ & -> & _)];
    [lia|].
  pose proof (QuotaFacts.getIpHourlyCount_incrementIpHourly_bounds
                (incrementScope
                   (incrementScope usage ScopeUser (orEmpty (userId params))
                      (getWeekKey (atWeek now)))
                   ScopeDevice (orEmpty (deviceId params))
                   (getWeekKey (atWeek now)))
                (orEmpty (ip params)) (getHourKey (atHour now)) i key) as Hb.
  rewrite !QuotaFacts.getIpHourlyCount_incrementScope in Hb. exact Hb.
Qed.

Lemma consumeQuota_scope_frame now params usage scope id key :
  ~ (key = getWeekKey (atWeek now)
     /\ id = orEmpty (match scope with
                      | ScopeUser => userId params
                      | ScopeDevice => deviceId params
                      end)) ->
  getScopeCount (snd (consumeQuota now params usage)) scope id key
  = getScopeCount usage scope id key.
Proof.
  intros Hother.
  destruct (consumeQuota_result now params usage) as [[_ ->]|(_ & -> & _)];
    [reflexivity|].
  rewrite QuotaFacts.getScopeCount_incrementIpHourly.
  destruct scope.
  - rewrite QuotaFacts.getScopeCount_incrementScope_scope by (intros [=]).
    apply getScopeCount_incrementScope_other.
    destruct (decide (orEmpty (userId params) = id)) as [Heq|Hneq];
      [|left; exact Hneq].
    right. intros <-. apply Hother. split; [reflexivity|]. symmetry. exact Heq.
  - rewrite getScopeCount_incrementScope_other.
    + apply QuotaFacts.getScopeCount_incrementScope_scope. intros [=].
    + destruct (decide (orEmpty (deviceId params) = id)) as [Heq|Hneq];
        [|left; exact Hneq].
      right. intros <-. apply Hother. split; [reflexivity|]. symmetry.
      exact Heq.
Qed.

Lemma consumeQuota_ip_frame now params usage i key :
  ~ (key = getHourKey (atHour now) /\ i = orEmpty (ip params)) ->
  getIpHourlyCount (snd (consumeQuota now params usage)) i key
  = getIpHourlyCount usage i key.
Proof.
  intros Hother.
  destruct (consumeQuota_result now params usage) as [[_ ->]|(_ & -> & _)];
    [reflexivity|].
  rewrite getIpHourlyCount_incrementIpHourly_other.
  - rewrite !QuotaFacts.getIpHourlyCount_incrementScope. reflexivity.
  - destruct (decide (orEmpty (ip params) = i)) as [Heq|Hneq];
      [|left; exact Hneq].
    right. intros <-. apply Hother. split; [reflexivity|]. symmetry. exact Heq.
Qed.


(** ** The snapshot a call returns *)

(** The snapshot in the result is the snapshot of the store the call
    leaves behind, taken at the call's last two clock readings. *)
Lemma consumeQuota_snapshot now params usage :
  snapshot (fst (consumeQuota now params usage))
  = getQuotaSnapshot (snapWeek now) (snapHour now) params
      (snd (consumeQuota now params usage)).
Proof.
  unfold Quota.consumeQuota.
  destruct (IP_HOURLY_LIMIT <=? _); [reflexivity|].
  destruct (match getLimitForPlan (plan params) with
            | Some l => _
            | None => false
            end); reflexivity.
Qed.

(** X5. The snapshot that comes with a rejection shows the exhausted
    counter: with [ip-rate-limit] the hourly count it reports is at least
    30, with [weekly-limit] it reports a finite limit, a usage at or above
    it and zero remaining, as long as the snapshot is taken in the same
    hour, respectively week, as the check. *)
Theorem rejection_snapshot_shows_exhausted_counter now params usage :
  (reason (fst (consumeQuota now params usage)) = Some "ip-rate-limit" ->
   getHourKey (snapHour now) = getHourKey (atHour now) ->
   IP_HOURLY_LIMIT
   <= counts_ipHourly (counts (snapshot (fst (consumeQuota now params usage)))))
  /\ (reason (fst (consumeQuota now params usage)) = Some "weekly-limit" ->
      getWeekKey (snapWeek now) = getWeekKey (atWeek now) ->
      exists l,
        limit (snapshot (fst (consumeQuota now params usage))) = Some l
        /\ l <= used (snapshot (fst (consumeQuota now params usage)))
        /\ remaining (snapshot (fst (consumeQuota now params usage))) = Some 0).
Proof.
  unfold Quota.consumeQuota.
  destruct (Z.leb_spec IP_HOURLY_LIMIT
              (getIpHourlyCount usage (orEmpty (ip params))
                 (getHourKey (atHour now)))) as [Hip|_].
  { split; [|intros [=]]. intros _ Hhour. cbn [fst snapshot].
    unfold Quota.getQuotaSnapshot. cbn [counts counts_ipHourly].
    rewrite Hhour. exact Hip. }
  destruct (getLimitForPlan (plan params)) as [l|] eqn:Hl;
    [|split; intros [=]].
  destruct (Z.leb_spec l
              (Z.max (getScopeCount usage ScopeUser (orEmpty (userId params))
                        (getWeekKey (atWeek now)))
                     (getScopeCount usage ScopeDevice (orEmpty (deviceId params))
                        (getWeekKey (atWeek now))))) as [Hweek|_];
    [|split; intros [=]].
  split; [intros [=]|]. intros _ Hwk. exists l. cbn [fst snapshot].
  unfold Quota.getQuotaSnapshot. cbn [limit used remaining].
  rewrite Hwk, Hl. split; [reflexivity|]. split; [exact Hweek|].
  f_equal. lia.
Qed.


(** ** Runs *)

Lemma accepted_cons now params rest usage :
  accepted ((now, params) :: rest) usage
  = if allowed (fst (consumeQuota now params usage))
    then (now, params) :: accepted rest (snd (consumeQuota now params usage))
    else accepted rest (snd (consumeQuota now params usage)).
Proof.
  cbn [QuotaRuns.accepted].
  destruct (consumeQuota now params usage) as [check usage']. reflexivity.
Qed.

Lemma consumeQuota_ip_step now params usage i hourKey :
  i <> "" ->
  getIpHourlyCount (snd (consumeQuota now params usage)) i hourKey
  = getIpHourlyCount usage i hourKey
    + (if allowed (fst (consumeQuota now params usage))
          && fromAddress i hourKey (now, params)
       then 1 else 0).
Proof.
  intros Hi.
  destruct (consumeQuota_result now params usage)
    as [[-> ->]|(-> & -> & _)]; [simpl; lia|].
  cbn [andb]. unfold QuotaRuns.fromAddress. cbn [fst snd].
  destruct (String.eqb_spec (orEmpty (ip params)) i) as [Heq|Hne].
  - destruct (String.eqb_spec (getHourKey (atHour now)) hourKey) as [Hk|Hk];
      cbn [andb].
    + rewrite Heq, Hk. rewrite QuotaFacts.getIpHourlyCount_incrementIpHourly_same.
      rewrite !QuotaFacts.getIpHourlyCount_incrementScope.
      apply truthy_true in Hi. rewrite Hi. reflexivity.
    + rewrite getIpHourlyCount_incrementIpHourly_other by (right; exact Hk).
      rewrite !QuotaFacts.getIpHourlyCount_incrementScope. lia.
  - cbn [andb].
    rewrite getIpHourlyCount_incrementIpHourly_other by (left; exact Hne).
    rewrite !QuotaFacts.getIpHourlyCount_incrementScope. lia.
Qed.

Lemma consumeAll_ip_count calls usage i hourKey :
  i <> "" ->
  getIpHourlyCount (snd (consumeAll calls usage)) i hourKey
  = getIpHourlyCount usage i hourKey
    + Z.of_nat (length (List.filter (fromAddress i hourKey)
                          (accepted calls usage))).
Proof.
  intros Hi. revert usage.
  induction calls as [|[now params] rest IH]; intros usage; [simpl; lia|].
  rewrite QuotaFacts.consumeAll_cons, accepted_cons. cbn [snd].
  rewrite IH, (consumeQuota_ip_step now params usage i hourKey Hi).
  destruct (allowed (fst (consumeQuota now params usage))); cbn [andb].
  - cbn [List.filter].
    destruct (fromAddress i hourKey (now, params)); cbn [length]; lia.
  - lia.
Qed.

Lemma consumeQuota_ip_limit now params usage :
  (forall i key, getIpHourlyCount usage i key <= IP_HOURLY_LIMIT) ->
  forall i key,
    getIpHourlyCount (snd (consumeQuota now params usage)) i key
    <= IP_HOURLY_LIMIT.
Proof.
  intros Hbound i key.
  destruct (consumeQuota_result now params usage)
    as [[_ ->]|(_ & Hstore & Hlt & _)]; [apply Hbound|].
  destruct (decide (orEmpty (ip params) = i /\ getHourKey (atHour now) = key))
    as [[<- <-]|Hother].
  - pose proof (consumeQuota_ip_bounds now params usage (orEmpty (ip params))
                  (getHourKey (atHour now))). lia.
  - rewrite Hstore.
    rewrite getIpHourlyCount_incrementIpHourly_other.
    + rewrite !QuotaFacts.getIpHourlyCount_incrementScope. apply Hbound.
    + destruct (decide (orEmpty (ip params) = i)) as [Heq|Hne];
        [|left; exact Hne].
      right. intros Hk. apply Hother. split; assumption.
Qed.

Lemma consumeAll_ip_limit calls usage :
  (forall i key, getIpHourlyCount usage i key <= IP_HOURLY_LIMIT) ->
  forall i key,
    getIpHourlyCount (snd (consumeAll calls usage)) i key <= IP_HOURLY_LIMIT.
Proof.
  revert usage. induction calls as [|[now params] rest IH]; intros usage Hb;
    [exact Hb|].
  rewrite QuotaFacts.consumeAll_cons. cbn [snd].
  apply IH. apply consumeQuota_ip_limit. exact Hb.
Qed.


Lemma consumeQuota_scope_step now params usage scope id weekKey :
  id <> "" ->
  getScopeCount (snd (consumeQuota now params usage)) scope id weekKey
  = getScopeCount usage scope id weekKey
    + (if allowed (fst (consumeQuota now params usage))
          && fromIdentity scope id weekKey (now, params)
       then 1 else 0).
Proof.
  intros Hid. unfold QuotaRuns.fromIdentity. cbn [fst snd].
  destruct (String.eqb_spec
              (orEmpty (match scope with
                        | ScopeUser => userId params
                        | ScopeDevice => deviceId params
                        end)) id) as [Heq|Hne];
    [destruct (String.eqb_spec (getWeekKey (atWeek now)) weekKey) as [Hk|Hk]|];
    cbn [andb];
    try (rewrite andb_false_r, consumeQuota_scope_frame;
         [lia|intros [H1 H2]; congruence]).
  destruct (consumeQuota_result now params usage)
    as [[-> ->]|(-> & -> & _)]; [simpl; lia|].
  cbn [andb]. rewrite QuotaFacts.getScopeCount_incrementIpHourly.
  apply truthy_true in Hid. subst weekKey. destruct scope; subst id.
  - rewrite QuotaFacts.getScopeCount_incrementScope_scope by (intros [=]).
    rewrite QuotaFacts.getScopeCount_incrementScope_same, Hid. reflexivity.
  - rewrite QuotaFacts.getScopeCount_incrementScope_same, Hid.
    rewrite QuotaFacts.getScopeCount_incrementScope_scope by (intros [=]).
    reflexivity.
Qed.

Lemma consumeAll_scope_count calls usage scope id weekKey :
  id <> "" ->
  getScopeCount (snd (consumeAll calls usage)) scope id weekKey
  = getScopeCount usage scope id weekKey
    + Z.of_nat (length (List.filter (fromIdentity scope id weekKey)
                          (accepted calls usage))).
Proof.
  intros Hid. revert usage.
  induction calls as [|[now params] rest IH]; intros usage; [simpl; lia|].
  rewrite QuotaFacts.consumeAll_cons, accepted_cons. cbn [snd].
  rewrite IH, (consumeQuota_scope_step now params usage scope id weekKey Hid).
  destruct (allowed (fst (consumeQuota now params usage))); cbn [andb].
  - cbn [List.filter].
    destruct (fromIdentity scope id weekKey (now, params)); cbn [length]; lia.
  - lia.
Qed.

Lemma getScopeCount_initial scope id key : getScopeCount initial scope id key = 0.
Proof.
  unfold getScopeCount, bucket. destruct (truthy id); [|reflexivity].
  destruct scope; simpl; rewrite lookup_empty; reflexivity.
Qed.

(** A call on a plan whose weekly limit is at most [L] keeps every
    weekly bucket at or below [L]. *)
Lemma consumeQuota_weekly_limit L now params usage :
  (exists l, getLimitForPlan (plan params) = Some l /\ l <= L) ->
  (forall scope id key, getScopeCount usage scope id key <= L) ->
  forall scope id key,
    getScopeCount (snd (consumeQuota now params usage)) scope id key <= L.
Proof.
  intros (l & Hl & HlL) Hbound scope id key.
  destruct (decide (key = getWeekKey (atWeek now)
                    /\ id = orEmpty (match scope with
                                     | ScopeUser => userId params
                                     | ScopeDevice => deviceId params
                                     end))) as [[-> ->]|Hother].
  - pose proof (consumeQuota_scope_bounds now params usage scope
                  (orEmpty (match scope with
                            | ScopeUser => userId params
                            | ScopeDevice => deviceId params
                            end)) (getWeekKey (atWeek now))) as Hb.
    destruct (consumeQuota_result now params usage)
      as [[_ Hstore]|(_ & _ & _ & Hmax)].
    + rewrite Hstore. apply Hbound.
    + specialize (Hmax l Hl). destruct scope; lia.
  - rewrite consumeQuota_scope_frame by exact Hother. apply Hbound.
Qed.

Lemma consumeAll_weekly_limit L calls usage :
  Forall (fun c => exists l, getLimitForPlan (plan (snd c)) = Some l /\ l <= L)
    calls ->
  (forall scope id key, getScopeCount usage scope id key <= L) ->
  forall scope id key,
    getScopeCount (snd (consumeAll calls usage)) scope id key <= L.
Proof.
  revert usage. induction calls as [|[now params] rest IH];
    intros usage Hall Hb; [exact Hb|].
  rewrite QuotaFacts.consumeAll_cons. cbn [snd].
  inversion Hall as [|c cs Hc Hcs]; subst.
  apply IH; [exact Hcs|]. apply consumeQuota_weekly_limit; assumption.
Qed.



(** X10. Counts only grow: over any run from any ledger, every user,
    device and hourly bucket holds at least what it held before, so the
    buckets of past weeks and hours are kept as they were left. *)
Theorem counts_never_decrease calls usage :
  (forall scope id key,
     getScopeCount usage scope id key
     <= getScopeCount (snd (consumeAll calls usage)) scope id key)
  /\ (forall i key,
        getIpHourlyCount usage i key
        <= getIpHourlyCount (snd (consumeAll calls usage)) i key).
Proof.
  revert usage. induction calls as [|[now params] rest IH]; intros usage.
  - split; intros; simpl; lia.
  - rewrite QuotaFacts.consumeAll_cons. cbn [snd].
    destruct (IH (snd (consumeQuota now params usage))) as [IHs IHi].
    split.
    + intros scope id key.
      pose proof (consumeQuota_scope_bounds now params usage scope id key).
      specialize (IHs scope id key). lia.
    + intros i key.
      pose proof (consumeQuota_ip_bounds now params usage i key).
      specialize (IHi i key). lia.
Qed.

End WithClock.

Lemma week_end_is_sunday_witness :
  let t := RefDate.parseDate "2026-11-05T13:14:15.000Z" in
  RefDate.parseDate (Quota.getWeekKey RefDate.toISOString t ++ "T00:00:00.000Z")
  = mondayOf t
  /\ Quota.getWeekEnd RefDate.toISOString RefDate.parseDate
       (Quota.getWeekKey RefDate.toISOString t)
     = slice0 10 (RefDate.toISOString (mondayOf t + 6 * msPerDay)).
Proof.
  cbv zeta. split; [vm_compute; reflexivity|].
  apply (week_end_is_sunday RefDate.toISOString RefDate.parseDate).
  vm_compute. reflexivity.
Defined.




End QuotaExtras.

(* ===================================================================== *)
(** * Further properties of the job store and the queue worker *)
(* ===================================================================== *)

Module QueueExtras.
Import Queue QueueMore.

(** ** What a step keeps on disk *)

Lemma In_updateJob_strong job jobs x :
  List.NoDup (map id jobs) ->
  In x (updateJob job jobs) -> x = job \/ (In x jobs /\ id x <> id job).
Proof.
  induction jobs as [|item rest IH]; simpl; [tauto|].
  intros Hnd. inversion Hnd as [|i is_ Hni Hnd']; subst.
  destruct (String.eqb_spec (id item) (id job)) as [Heq|Hne]; simpl.
  - intros [<-|Hin]; [left; reflexivity|]. right. split; [right; exact Hin|].
    intros Hx. apply Hni. rewrite Heq, <- Hx. apply in_map. exact Hin.
  - intros [<-|Hin]; [right; split; [left; reflexivity|exact Hne]|].
    destruct (IH Hnd' Hin) as [->|[Hin' Hid]]; [left; reflexivity|].
    right. split; [right; exact Hin'|exact Hid].
Qed.

Lemma stagedFor_stage job params :
  size (input job) = Z.of_nat (length (p_zipBuffer params)) ->
  hasKeystore (input job)
  = bool_decide (is_Some (p_keystoreBuffer params))
    && truthyO (p_keystoreAlias params) && truthyO (p_keystorePass params) ->
  stagedFor job (stage params emptyDir).
Proof.
  intros Hsize Hks. unfold stagedFor, stage. rewrite Hks.
  destruct (p_keystoreBuffer params) as [kb|]; simpl.
  - destruct (truthyO (p_keystoreAlias params)) eqn:Ha;
      destruct (truthyO (p_keystorePass params)) eqn:Hp; simpl;
      (split; [eexists; split; [reflexivity|exact Hsize]|]).
    + split; [split; [intros _; eexists; reflexivity|reflexivity]|].
      intros meta [= <-]. simpl. rewrite Ha, Hp.
      split; [reflexivity|]. split; [reflexivity|]. eexists. reflexivity.
    + split; [split; [discriminate|intros [? [=]]]|]. intros meta [=].
    + split; [split; [discriminate|intros [? [=]]]|]. intros meta [=].
    + split; [split; [discriminate|intros [? [=]]]|]. intros meta [=].
  - split; [eexists; split; [reflexivity|exact Hsize]|].
    split; [split; [discriminate|intros [? [=]]]|]. intros meta [=].
Qed.

Lemma stagedFor_same_input job job' dir :
  input job' = input job -> stagedFor job dir -> stagedFor job' dir.
Proof. unfold stagedFor. intros ->. tauto. Qed.

Lemma step_diskInvariant s s' :
  invariant s -> diskInvariant s -> step s s' -> diskInvariant s'.
Proof.
  intros (Hnd & Hcons & Hw) (Hjobs & Hdom) Hstep.
  QueueFacts.step_cases Hstep.
  - (* createJob *)
    assert (Hnew : ~ In uuid (map id (jobs (store s))))
      by (apply QueueFacts.getJob_None; exact Hfresh).
    assert (Hnone : queue (store s) !! uuid = None).
    { destruct (queue (store s) !! uuid) eqn:Hq; [|reflexivity].
      exfalso. apply Hnew, Hdom. rewrite Hq. eexists. reflexivity. }
    split.
    + intros job Hin. cbn [store createJob snd jobs] in Hin.
      apply in_app_or in Hin as [Hin|[<-|[]]].
      * destruct (Hjobs job Hin) as [Hst [Hdone Hstaged]].
        assert (Hne : uuid <> id job)
          by (intros ->; apply Hnew, in_map; exact Hin).
        split; [exact Hst|]. unfold onDisk, artifactFile.
        cbn [store createJob snd queue artifacts].
        rewrite lookup_insert_ne by exact Hne. split; assumption.
      * split; [split; cbn [startedAt completedAt status terminal];
                (split; [intros [? [=]]|congruence])|].
        unfold onDisk. cbn [store createJob snd queue status id].
        split; [discriminate|]. intros _.
        rewrite lookup_insert_eq, Hnone. eexists. split; [reflexivity|].
        apply stagedFor_stage; reflexivity.
    + intros jobId. cbn [store createJob snd queue jobs]. rewrite map_app.
      destruct (decide (uuid = jobId)) as [<-|Hne].
      * intros _. apply in_or_app. right. left. reflexivity.
      * rewrite lookup_insert_ne by exact Hne. intros Hq.
        apply in_or_app. left. apply Hdom. exact Hq.
  - split; assumption.
  - split; assumption.
  - (* the worker takes a job *)
    destruct (QueueFacts.startNext_Some _ _ _ _ Hstart)
      as (next & Hsel & Hrj & Hnewjobs & Hq & Ha).
    destruct (QueueFacts.selectNext_Some _ _ Hsel)
      as (b & a & Hsplit & Hqueued & _ & _).
    assert (Hin : In next (jobs (store s)))
      by (rewrite Hsplit; apply in_or_app; right; left; reflexivity).
    destruct (Hjobs next Hin) as [[Hstart_ Hdone_] [_ Hstaged]].
    split.
    + cbn [store]. rewrite Hnewjobs. intros job Hjob.
      apply QueueFacts.In_updateJob in Hjob as [->|Hjob].
      * rewrite Hrj. split.
        -- split; cbn [startedAt completedAt status terminal markRunning].
           ++ split; [discriminate|]. intros _. eexists. reflexivity.
           ++ rewrite Hdone_, Hqueued. reflexivity.
        -- unfold onDisk. cbn [status id markRunning]. rewrite Hq.
           split; [discriminate|]. intros _.
           destruct Hstaged as (dir & Hdir & Hst); [congruence|].
           exists dir. split; [exact Hdir|].
           eapply stagedFor_same_input; [|exact Hst]. reflexivity.
      * destruct (Hjobs job Hjob) as [Hst Hdisk]. split; [exact Hst|].
        unfold onDisk, artifactFile in *. rewrite Hq, Ha. exact Hdisk.
    + cbn [store]. intros jobId Hjq.
      rewrite Hnewjobs, QueueFacts.map_id_updateJob. rewrite Hq in Hjq.
      apply Hdom. exact Hjq.
  - split; assumption.
  - (* the worker finishes a job *)
    rewrite Hbuild in Hw. destruct Hw as [Hget Hrun].
    destruct (QueueFacts.getJob_Some _ _ _ Hget) as [Hin _].
    destruct (Hjobs runningJob Hin) as [[Hstart_ Hdone_] [_ Hstaged]].
    cbn [store worker]. unfold finishJob.
    destruct (snd (build w runningJob (store s))) as [message|result].
    + split.
      * cbn [store jobs]. intros job Hjob.
        apply QueueFacts.In_updateJob in Hjob as [->|Hjob].
        -- split.
           ++ split; cbn [startedAt completedAt status terminal markFailed].
              ** rewrite Hstart_, Hrun. split; intros _; discriminate.
              ** split; [reflexivity|]. intros _. eexists. reflexivity.
           ++ unfold onDisk. cbn [status id markFailed queue].
              split; [discriminate|]. intros _.
              destruct Hstaged as (dir & Hdir & Hst); [congruence|].
              exists dir. split; [exact Hdir|].
              eapply stagedFor_same_input; [|exact Hst]. reflexivity.
        -- exact (Hjobs job Hjob).
      * cbn [store jobs queue]. intros jobId Hjq.
        rewrite QueueFacts.map_id_updateJob. apply Hdom. exact Hjq.
    + split.
      * cbn [store jobs]. intros job Hjob.
        apply (In_updateJob_strong _ _ _ Hnd) in Hjob as [->|[Hjob Hne]].
        -- split.
           ++ split; cbn [startedAt completedAt status terminal markCompleted].
              ** rewrite Hstart_, Hrun. split; intros _; discriminate.
              ** split; [reflexivity|]. intros _. eexists. reflexivity.
           ++ unfold onDisk, artifactFile.
              cbn [status id markCompleted queue artifacts artifact fst snd name].
              split; [|congruence]. intros _.
              split; [apply lookup_delete_eq|].
              eexists _, _. split; [reflexivity|].
              cbn [name artifact_size].
              rewrite lookup_insert_eq. cbn [mbind option_bind].
              rewrite lookup_insert_eq. split; reflexivity.
        -- cbn [id markCompleted] in Hne.
           destruct (Hjobs job Hjob) as [Hst [Hdone Hnot]].
           split; [exact Hst|]. unfold onDisk, artifactFile in *.
           cbn [queue artifacts fst snd] in *.
           rewrite lookup_delete_ne, lookup_insert_ne by congruence.
           split; assumption.
      * cbn [store jobs queue]. intros jobId Hq.
        rewrite QueueFacts.map_id_updateJob. apply Hdom.
        destruct (decide (id runningJob = jobId)) as [<-|Hne].
        -- rewrite lookup_delete_eq in Hq. destruct Hq as [? [=]].
        -- rewrite lookup_delete_ne in Hq by exact Hne. exact Hq.
Qed.

Lemma diskInvariant_initial : diskInvariant initialSystem.
Proof.
  split; [intros job []|]. intros jobId. simpl. rewrite lookup_empty.
  intros [? [=]].
Qed.

Lemma history_diskInvariant h :
  history h -> forall s past, h = s :: past -> diskInvariant s.
Proof.
  induction 1 as [|s s' past Hh IH Hstep]; intros s0 past0 [= <- <-].
  - exact diskInvariant_initial.
  - eapply step_diskInvariant; [| |exact Hstep].
    + eapply QueueFacts.history_invariant; [exact Hh|reflexivity].
    + eapply IH. reflexivity.
Qed.

Lemma reachable_diskInvariant s : reachable s -> diskInvariant s.
Proof. intros [past Hh]. eapply history_diskInvariant; [exact Hh|reflexivity]. Qed.

Lemma sample2_run_history : history Sample2.run.
Proof.
  unfold Sample2.run.
  apply history_step; [apply history_step; [apply history_step;
    [apply history_step; [apply history_step; [apply history_init|]|]|]|]|].
  - exact (step_create "job-7" 1000 None
             (Sample.upload (Some [Byte.xfe; Byte.xed]) (Some "release")
                (Some "secret")) initialSystem eq_refl).
  - exact (step_enter Sample2.s1 eq_refl).
  - exact (step_start 2000 Sample2.running7 (store Sample2.s3) Sample2.s2
             eq_refl eq_refl).
  - exact (step_finish 2500 Sample2.okHost Sample2.running7 Sample2.s3 eq_refl).
  - apply (step_create "job-8" 3000 None (Sample.upload None None None)
             Sample2.s4).
    vm_compute. reflexivity.
Qed.

Lemma sample2_reachable : reachable Sample2.s5.
Proof. eexists. exact sample2_run_history. Qed.

(** ** Timestamps, artifacts and staging directories *)

(** X11. In every state a run can reach, a stored job has a start time
    exactly when it is no longer queued and a completion time exactly when
    it is completed or failed. *)
Theorem timestamps_match_status s :
  reachable s ->
  forall job, In job (jobs (store s)) ->
    (is_Some (startedAt job) <-> status job <> queued)
    /\ (is_Some (completedAt job)
        <-> (status job = completed \/ status job = failed)).
Proof.
  intros Hreach job Hin.
  destruct (reachable_diskInvariant s Hreach) as [Hjobs _].
  destruct (Hjobs job Hin) as [[Hstart Hdone] _].
  split; [exact Hstart|]. rewrite Hdone.
  destruct (status job); simpl; split; intros H;
    try discriminate; try reflexivity; try tauto;
    destruct H; discriminate.
Qed.

Lemma timestamps_match_status_witness :
  reachable Sample2.s5
  /\ (startedAt <$> jobs (store Sample2.s5)) = [Some 2000; None]
  /\ (completedAt <$> jobs (store Sample2.s5)) = [Some 2500; None]
  /\ forall job, In job (jobs (store Sample2.s5)) ->
       (is_Some (startedAt job) <-> status job <> queued)
       /\ (is_Some (completedAt job)
           <-> (status job = completed \/ status job = failed)).
Proof.
  split; [exact sample2_reachable|]. split; [vm_compute; reflexivity|].
  split; [vm_compute; reflexivity|].
  exact (timestamps_match_status Sample2.s5 sample2_reachable).
Defined.

(** X12. In every state a run can reach, the artifact a completed job
    names lies at the path [getArtifactPath] gives, and its length is the
    size the job records. *)
Theorem completed_artifact_is_stored s :
  reachable s ->
  forall job, In job (jobs (store s)) -> status job = completed ->
    exists a path bytes,
      artifact job = Some a
      /\ getArtifactPath job = Some path
      /\ artifactFile (store s) path = Some bytes
      /\ artifact_size a = Z.of_nat (length bytes).
Proof.
  intros Hreach job Hin Hdone.
  destruct (reachable_diskInvariant s Hreach) as [Hjobs _].
  destruct (Hjobs job Hin) as [_ [Hdisk _]].
  destruct (Hdisk Hdone) as (_ & a & bytes & Ha & Hfile & Hsize).
  exists a, (id job, name a), bytes. unfold getArtifactPath. rewrite Ha.
  repeat split; assumption.
Qed.

Lemma completed_artifact_is_stored_witness :
  reachable Sample2.s5
  /\ exists job a path bytes,
       In job (jobs (store Sample2.s5))
       /\ status job = completed
       /\ artifact job = Some a
       /\ getArtifactPath job = Some path
       /\ artifactFile (store Sample2.s5) path = Some bytes
       /\ artifact_size a = Z.of_nat (length bytes).
Proof.
  split; [exact sample2_reachable|].
  assert (Hin : In (markCompleted Sample2.running7 2500
                      {| Runner.apkBuffer := [Byte.x50; Byte.x4b];
                         Runner.apkName := "input-aligned-debugSigned.apk";
                         Runner.sha256 := "ab:cd:ef" |})
                  (jobs (store Sample2.s5))).
  { vm_compute. left. reflexivity. }
  destruct (completed_artifact_is_stored Sample2.s5 sample2_reachable _ Hin
              eq_refl) as (a & path & bytes & H).
  eexists _, a, path, bytes. split; [exact Hin|]. split; [reflexivity|exact H].
Defined.





(** ** What a record keeps over a run *)

Lemma kept_refl job : kept job job.
Proof. unfold kept. repeat split; auto. Qed.

Lemma kept_trans a b c : kept a b -> kept b c -> kept a c.
Proof.
  intros (Hi & Hc & Hn & Hs & Hd & Ht) (Hi' & Hc' & Hn' & Hs' & Hd' & Ht').
  unfold kept. split; [congruence|]. split; [congruence|].
  split; [congruence|]. split; [auto|]. split; [auto|].
  intros Hterm. pose proof (Ht Hterm) as ->. auto.
Qed.

Lemma step_kept s s' :
  invariant s -> diskInvariant s -> step s s' ->
  forall jobId job, getJob jobId (jobs (store s)) = Some job ->
    exists job', getJob jobId (jobs (store s')) = Some job' /\ kept job job'.
Proof.
  intros (Hnd & Hcons & Hw) [Hjobs _] Hstep jobId job Hget.
  QueueFacts.step_cases Hstep.
  - exists job. split; [|apply kept_refl].
    unfold createJob. cbn [store snd jobs]. rewrite QueueFacts.getJob_app, Hget.
    reflexivity.
  - exists job. split; [exact Hget|apply kept_refl].
  - exists job. split; [exact Hget|apply kept_refl].
  - destruct (QueueFacts.startNext_Some _ _ _ _ Hstart)
      as (next & Hsel & -> & Hjobs' & _ & _).
    destruct (QueueFacts.selectNext_Some _ _ Hsel)
      as (before & after & Hsplit & Hq & _ & _).
    assert (Hin : In next (jobs (store s))).
    { rewrite Hsplit. apply in_or_app. right. left. reflexivity. }
    pose proof (QueueFacts.getJob_In _ _ Hnd Hin) as Hnext.
    cbn [store]. rewrite Hjobs', QueueFacts.getJob_updateJob.
    cbn [id markRunning].
    destruct (String.eqb (id next) jobId) eqn:E.
    + apply String.eqb_eq in E. subst jobId. rewrite Hget.
      assert (job = next) by congruence. subst job.
      eexists. split; [reflexivity|].
      destruct (Hjobs next Hin) as [[Hstart' _] _].
      unfold kept. cbn [id createdAt input startedAt completedAt status
                          markRunning].
      split; [reflexivity|]. split; [reflexivity|]. split; [reflexivity|].
      split.
      { intros t Ht. exfalso. apply (proj1 Hstart'); [rewrite Ht; eauto|exact Hq]. }
      split; [auto|]. rewrite Hq. discriminate.
    + exists job. split; [exact Hget|apply kept_refl].
  - exists job. split; [exact Hget|apply kept_refl].
  - rewrite Hbuild in Hw. destruct Hw as [Hrj Hrun].
    destruct (QueueFacts.getJob_Some _ _ _ Hrj) as [Hin _].
    destruct (Hjobs runningJob Hin) as [[_ Hdone] _].
    assert (Hnot : forall t, completedAt runningJob <> Some t).
    { intros t Ht. assert (Hs : is_Some (completedAt runningJob))
        by (rewrite Ht; eauto).
      apply Hdone in Hs. rewrite Hrun in Hs. discriminate. }
    unfold finishJob. cbn [store].
    destruct (snd (build w runningJob (store s))) as [message|result];
      cbn [jobs]; rewrite QueueFacts.getJob_updateJob;
      cbn [id markFailed markCompleted];
      (destruct (String.eqb (id runningJob) jobId) eqn:E;
       [ apply String.eqb_eq in E; subst jobId; rewrite Hget;
         assert (job = runningJob) by congruence; subst job;
         eexists; split; [reflexivity|];
         unfold kept;
         cbn [id createdAt input startedAt completedAt status
                markFailed markCompleted];
         split; [reflexivity|]; split; [reflexivity|]; split; [reflexivity|];
         split; [auto|]; split;
         [ intros t Ht; destruct (Hnot t Ht)
         | rewrite Hrun; discriminate ]
       | exists job; split; [exact Hget|apply kept_refl] ]).
Qed.


Lemma sample2_steps : rtc step Sample2.s1 Sample2.s5.
Proof.
  pose proof sample2_run_history as Hh. unfold Sample2.run in Hh.
  inversion Hh as [|? ? ? H4 S5]; subst.
  inversion H4 as [|? ? ? H3 S4]; subst.
  inversion H3 as [|? ? ? H2 S3]; subst.
  inversion H2 as [|? ? ? H1 S2]; subst.
  eapply rtc_l; [exact S2|]. eapply rtc_l; [exact S3|].
  eapply rtc_l; [exact S4|]. eapply rtc_l; [exact S5|]. apply rtc_refl.
Qed.


(** ** Listing, creating and replacing records *)

Lemma insertBy_Permutation {A} (cmp : A -> A -> Z) x l :
  Permutation (insertBy cmp x l) (x :: l).
Proof.
  induction l as [|y l IH]; simpl; [reflexivity|].
  destruct (cmp x y <=? 0); [reflexivity|].
  rewrite IH. apply perm_swap.
Qed.

Lemma sort_Permutation {A} (cmp : A -> A -> Z) l :
  Permutation (sort cmp l) l.
Proof.
  induction l as [|x l IH]; simpl; [reflexivity|].
  rewrite insertBy_Permutation, IH. reflexivity.
Qed.

Local Abbreviation newestCmp := (fun a b : BuildJob => createdAt b - createdAt a).

Lemma insertBy_newestFirst x l :
  newestFirst l -> newestFirst (insertBy newestCmp x l).
Proof.
  induction l as [|y l IH]; intros Hl.
  - simpl. split; [constructor|exact I].
  - destruct Hl as [Hy Hl]. cbn [insertBy].
    destruct (createdAt y - createdAt x <=? 0) eqn:E.
    + apply Z.leb_le in E. cbn [newestFirst].
      split; [|split; assumption].
      constructor; [lia|].
      eapply Forall_impl; [exact Hy|]. cbn beta. intros b Hb. lia.
    + apply Z.leb_gt in E. cbn [newestFirst]. split; [|exact (IH Hl)].
      apply Forall_forall. intros b Hb. apply list_elem_of_In in Hb.
      apply QueueFacts.In_insertBy in Hb as [->|Hb]; [lia|].
      rewrite Forall_forall in Hy. apply Hy, list_elem_of_In, Hb.
Qed.

Lemma listJobs_newestFirst jobs : newestFirst (listJobs jobs).
Proof.
  unfold listJobs. induction jobs as [|x l IH]; [exact I|].
  cbn [sort]. apply insertBy_newestFirst. exact IH.
Qed.

Lemma newestFirst_lookup l :
  newestFirst l ->
  forall (i j : nat) a b, (i < j)%nat -> l !! i = Some a -> l !! j = Some b ->
    createdAt b <= createdAt a.
Proof.
  induction l as [|x l IH]; intros Hl i j a b Hij Ha Hb.
  - destruct i; discriminate.
  - destruct Hl as [Hx Hl]. destruct j as [|j]; [lia|].
    destruct i as [|i].
    + cbn in Ha. injection Ha as <-. cbn in Hb.
      rewrite Forall_forall in Hx. apply Hx.
      eapply list_elem_of_lookup_2. exact Hb.
    + cbn in Ha, Hb. apply (IH Hl i j); [lia|assumption|assumption].
Qed.

Lemma filter_insertBy_newest t x l :
  List.filter (createdAtIs t) (insertBy newestCmp x l)
  = List.filter (createdAtIs t) (x :: l).
Proof.
  induction l as [|y l IH]; [reflexivity|].
  cbn [insertBy]. destruct (createdAt y - createdAt x <=? 0) eqn:E;
    [reflexivity|].
  apply Z.leb_gt in E.
  change (List.filter (createdAtIs t) (y :: insertBy newestCmp x l))
    with (if createdAtIs t y
          then y :: List.filter (createdAtIs t) (insertBy newestCmp x l)
          else List.filter (createdAtIs t) (insertBy newestCmp x l)).
  rewrite IH. cbn [List.filter]. unfold createdAtIs.
  destruct (createdAt x =? t) eqn:Ex, (createdAt y =? t) eqn:Ey;
    try reflexivity.
  apply Z.eqb_eq in Ex, Ey. lia.
Qed.

(** X16. [listJobs] returns the stored jobs, each once, the newest first:
    no job comes before one created later, and jobs created in the same
    millisecond keep the order they were stored in. *)
Theorem listJobs_newest_first_stable jobs :
  Permutation (listJobs jobs) jobs
  /\ (forall (i j : nat) a b, (i < j)%nat ->
        listJobs jobs !! i = Some a -> listJobs jobs !! j = Some b ->
        createdAt b <= createdAt a)
  /\ (forall t, List.filter (createdAtIs t) (listJobs jobs)
                = List.filter (createdAtIs t) jobs).
Proof.
  split; [apply sort_Permutation|].
  split; [apply newestFirst_lookup, listJobs_newestFirst|].
  intros t. unfold listJobs. induction jobs as [|x l IH]; [reflexivity|].
  cbn [sort]. rewrite filter_insertBy_newest. cbn [List.filter].
  rewrite IH. reflexivity.
Qed.

(** X17. A job created under an id not yet stored is found under that id
    as the queued record [createJob] returned, waits in the worker's queue,
    and nothing else changes: every other id finds what it found before,
    the other staging directories and all artifacts are as they were. *)
Theorem created_job_is_found uuid now settings params st :
  getJob uuid (jobs st) = None ->
  let job := fst (createJob uuid now settings params st) in
  let st' := snd (createJob uuid now settings params st) in
  getJob uuid (jobs st') = Some job
  /\ id job = uuid /\ status job = queued /\ createdAt job = now
  /\ In job (pending (jobs st'))
  /\ is_Some (queue st' !! uuid)
  /\ (forall other, other <> uuid ->
        getJob other (jobs st') = getJob other (jobs st)
        /\ queue st' !! other = queue st !! other)
  /\ artifacts st' = artifacts st.
Proof.
  intros Hfresh. cbv zeta. unfold createJob. cbn [fst snd jobs queue artifacts].
  split.
  { rewrite QueueFacts.getJob_app, Hfresh. cbn [id]. rewrite String.eqb_refl.
    reflexivity. }
  split; [reflexivity|]. split; [reflexivity|]. split; [reflexivity|].
  split.
  { unfold pending.
    eapply Permutation_in; [symmetry; apply sort_Permutation|].
    apply filter_In. split; [|reflexivity].
    apply in_or_app. right. left. reflexivity. }
  split; [rewrite lookup_insert_eq; eauto|].
  split; [|reflexivity].
  intros other Hother. split.
  - rewrite QueueFacts.getJob_app. destruct (getJob other (jobs st));
      [reflexivity|]. cbn [id].
    destruct (String.eqb uuid other) eqn:E; [|reflexivity].
    apply String.eqb_eq in E. congruence.
  - apply lookup_insert_ne. congruence.
Qed.

Lemma created_job_is_found_witness :
  getJob "job-8" (jobs (store Sample2.s4)) = None
  /\ getJob "job-8" (jobs (store Sample2.s5))
     = Some (fst (createJob "job-8" 3000 None (Sample.upload None None None)
                    (store Sample2.s4)))
  /\ getJob "job-7" (jobs (store Sample2.s5))
     = getJob "job-7" (jobs (store Sample2.s4)).
Proof.
  assert (Hfresh : getJob "job-8" (jobs (store Sample2.s4)) = None)
    by (vm_compute; reflexivity).
  pose proof (created_job_is_found "job-8" 3000 None
                (Sample.upload None None None) (store Sample2.s4) Hfresh)
    as (Hfound & _ & _ & _ & _ & _ & Hother & _).
  split; [exact Hfresh|]. split; [exact Hfound|].
  exact (proj1 (Hother "job-7" ltac:(discriminate))).
Defined.

Lemma updateJob_absent job jobs :
  getJob (id job) jobs = None -> updateJob job jobs = jobs.
Proof.
  unfold getJob. induction jobs as [|x l IH]; [reflexivity|].
  cbn [List.find updateJob]. destruct (String.eqb (id x) (id job));
    [discriminate|].
  intros H. rewrite (IH H). reflexivity.
Qed.

Lemma updateJob_idempotent job jobs :
  updateJob job (updateJob job jobs) = updateJob job jobs.
Proof.
  induction jobs as [|x l IH]; [reflexivity|].
  cbn [updateJob]. destruct (String.eqb (id x) (id job)) eqn:E.
  - cbn [updateJob]. rewrite String.eqb_refl. reflexivity.
  - cbn [updateJob]. rewrite E, IH. reflexivity.
Qed.

(** X18. [updateJob] replaces the first record with the job's id and
    nothing else: the list keeps its length and its ids, the id now finds
    the new record, every other id finds what it found before, a job whose
    id is not stored is silently dropped, and writing the same record
    twice is writing it once. *)
Theorem updateJob_replaces_by_id job jobs :
  length (updateJob job jobs) = length jobs
  /\ map id (updateJob job jobs) = map id jobs
  /\ (is_Some (getJob (id job) jobs) ->
      getJob (id job) (updateJob job jobs) = Some job)
  /\ (getJob (id job) jobs = None -> updateJob job jobs = jobs)
  /\ (forall other, other <> id job ->
        getJob other (updateJob job jobs) = getJob other jobs)
  /\ updateJob job (updateJob job jobs) = updateJob job jobs.
Proof.
  split.
  { rewrite <- (length_map id (updateJob job jobs)),
      QueueFacts.map_id_updateJob. apply length_map. }
  split; [apply QueueFacts.map_id_updateJob|].
  split.
  { intros [old Hold]. rewrite QueueFacts.getJob_updateJob, String.eqb_refl,
      Hold. reflexivity. }
  split; [apply updateJob_absent|].
  split; [|apply updateJob_idempotent].
  intros other Hother. rewrite QueueFacts.getJob_updateJob.
  destruct (String.eqb (id job) other) eqn:E; [|reflexivity].
  apply String.eqb_eq in E. congruence.
Qed.

(** ** A whole pass of the worker *)

Lemma Forall2_processed_refl l : Forall2 processed l l.
Proof. induction l; constructor; [left; reflexivity|assumption]. Qed.

Lemma processed_trans a b c : processed a b -> processed b c -> processed a c.
Proof.
  intros [->|(Hq & Ht & Hi & Hc & Hn)] Hbc; [exact Hbc|].
  destruct Hbc as [->|(Hq' & _)].
  - right. repeat split; assumption.
  - rewrite Hq' in Ht. discriminate.
Qed.

Lemma Forall2_processed_trans l1 l2 l3 :
  Forall2 processed l1 l2 -> Forall2 processed l2 l3 -> Forall2 processed l1 l3.
Proof.
  intros H12. revert l3. induction H12 as [|a b l1 l2 Hab H12 IH];
    intros l3 H23; inversion H23; subst; constructor.
  - eapply processed_trans; eassumption.
  - apply IH. assumption.
Qed.

Lemma iteration_processed now now' w st runningJob st' :
  List.NoDup (map id (jobs st)) ->
  startNext now st = Some (runningJob, st') ->
  Forall2 processed (jobs st) (jobs (finishJob now' w runningJob st')).
Proof.
  intros Hnd Hstart.
  destruct (QueueFacts.startNext_Some _ _ _ _ Hstart)
    as (next & Hsel & -> & Hjobs' & _ & _).
  destruct (QueueFacts.selectNext_Some _ _ Hsel)
    as (before & after & Hsplit & Hq & _ & _).
  rewrite Hsplit in Hnd.
  pose proof (QueueFacts.NoDup_split_ids _ _ _ Hnd) as Hids.
  assert (Hst' : jobs st' = (before ++ markRunning next now :: after)%list).
  { rewrite Hjobs', Hsplit. apply QueueFacts.updateJob_split; [|reflexivity].
    exact Hids. }
  rewrite Hsplit. unfold finishJob.
  destruct (snd (build w (markRunning next now) st')) as [message|result];
    cbn [jobs]; rewrite Hst';
    (rewrite QueueFacts.updateJob_split; [|exact Hids|reflexivity]);
    (apply Forall2_app; [apply Forall2_processed_refl|]);
    (constructor; [|apply Forall2_processed_refl]);
    right; cbn; auto.
Qed.

(** X19. One pass of the worker over a store with distinct job ids changes
    the job list only pointwise: each record is left as it was, or a
    queued record has become the completed or failed record of the same
    job, with its creation time and input. Given one iteration for each
    queued job, none is left queued, whatever the builds did. *)
Theorem pass_finishes_every_queued_job ticks st :
  List.NoDup (map id (jobs st)) ->
  Forall2 processed (jobs st) (jobs (processQueue ticks st))
  /\ ((length (pending (jobs st)) <= length ticks)%nat ->
      forall job, In job (jobs (processQueue ticks st)) ->
        status job <> queued).
Proof.
  intros Hnd. split.
  - revert st Hnd. induction ticks as [|tick rest IH]; intros st Hnd;
      [apply Forall2_processed_refl|].
    cbn [processQueue].
    destruct (startNext (startNow tick) st) as [[runningJob st']|] eqn:Hstart;
      [|apply Forall2_processed_refl].
    destruct (QueueFacts.iteration_pending _ (endNow tick) (world tick) _ _ _
                Hnd Hstart) as (next & _ & _ & Hnd').
    eapply Forall2_processed_trans;
      [exact (iteration_processed _ (endNow tick) (world tick) _ _ _ Hnd Hstart)
      |exact (IH _ Hnd')].
  - intros Hlen. apply QueueFacts.selectNext_None.
    apply QueueFacts.processQueue_drains; assumption.
Qed.

Lemma pass_finishes_every_queued_job_witness :
  let st := {| jobs := Sample.backlog; queue := ∅; artifacts := ∅ |} in
  let ticks := [Sample.tick 100 (Sample.host false (inl "exit 1"));
                Sample.tick 200 (Sample.host false (inl "exit 1"));
                Sample.tick 300 (Sample.host false (inl "exit 1"))] in
  (status <$> jobs st) = [completed; queued; queued; queued]
  /\ (status <$> jobs (processQueue ticks st)) = [completed; failed; failed; failed]
  /\ Forall2 processed (jobs st) (jobs (processQueue ticks st))
  /\ (forall job, In job (jobs (processQueue ticks st)) -> status job <> queued).
Proof.
  cbv zeta. split; [reflexivity|]. split; [vm_compute; reflexivity|].
  assert (Hnd : List.NoDup
                  (map id (jobs {| jobs := Sample.backlog; queue := ∅;
                                   artifacts := ∅ |}))).
  { vm_compute. repeat constructor; simpl; intuition discriminate. }
  destruct (pass_finishes_every_queued_job
              [Sample.tick 100 (Sample.host false (inl "exit 1"));
               Sample.tick 200 (Sample.host false (inl "exit 1"));
               Sample.tick 300 (Sample.host false (inl "exit 1"))]
              {| jobs := Sample.backlog; queue := ∅; artifacts := ∅ |} Hnd)
    as [Hall Hnone].
  split; [exact Hall|]. apply Hnone. vm_compute. lia.
Defined.

End QueueExtras.

(* ===================================================================== *)
(** * More properties of the build pipeline *)
(* ===================================================================== *)

Module RunnerExtras.
Import Runner RunnerMore.

Lemma find_first {A} (p : A -> bool) l x :
  List.find p l = Some x ->
  exists before after,
    l = (before ++ x :: after)%list /\ p x = true
    /\ Forall (fun c => p c = false) before.
Proof.
  induction l as [|y l IH]; [discriminate|]. cbn [List.find].
  destruct (p y) eqn:E.
  - intros [= ->]. exists [], l. split; [reflexivity|]. split; [exact E|constructor].
  - intros H. destruct (IH H) as (before & after & -> & Hx & Hb).
    exists (y :: before), after. split; [reflexivity|]. split; [exact Hx|].
    constructor; assumption.
Qed.

Lemma find_none {A} (p : A -> bool) l :
  List.find p l = None -> Forall (fun c => p c = false) l.
Proof.
  induction l as [|y l IH]; [constructor|]. cbn [List.find].
  destruct (p y) eqn:E; [discriminate|]. intros H. constructor; [exact E|exact (IH H)].
Qed.

Lemma resolveSignerJar_candidates w :
  resolveSignerJar w
  = match List.find (existsSync w) (signerCandidates w) with
    | Some candidate => inr candidate
    | None => inl ("APK signer JAR not found. Tried: "
                     ++ String.concat ", " (signerCandidates w))
    end.
Proof. reflexivity. Qed.

Lemma signerCandidates_truthy w :
  Forall (fun c => c <> "") (signerCandidates w).
Proof.
  unfold signerCandidates.
  assert (H : forall l, Forall (fun c : string => c <> "")
                (omap (fun c => if truthyO c then c else None) l)).
  { induction l as [|c l IH]; [constructor|]. cbn [omap list_omap].
    destruct c as [c|]; cbn [truthyO]; [|exact IH].
    destruct (truthy c) eqn:E; [|exact IH].
    constructor; [apply truthy_true; exact E|exact IH]. }
  apply H.
Qed.

(** X20. The signer is looked for under [APKSIGNER_JAR], [APK_SIGNER_JAR],
    the working directory and its parent, in that order, unset and empty
    names left out: the path returned is the first of them that exists, so
    an existing [APKSIGNER_JAR] always wins; and the call fails, naming
    every path it tried, exactly when none exists. *)
Theorem signer_jar_is_first_existing_candidate w :
  Forall (fun c => c <> "") (signerCandidates w)
  /\ (forall path, resolveSignerJar w = inr path ->
        exists before after,
          signerCandidates w = (before ++ path :: after)%list
          /\ existsSync w path = true
          /\ Forall (fun c => existsSync w c = false) before)
  /\ (forall message, resolveSignerJar w = inl message ->
        Forall (fun c => existsSync w c = false) (signerCandidates w)
        /\ message = "APK signer JAR not found. Tried: "
                       ++ String.concat ", " (signerCandidates w))
  /\ (forall path, env_APKSIGNER_JAR w = Some path -> path <> "" ->
        existsSync w path = true -> resolveSignerJar w = inr path).
Proof.
  split; [apply signerCandidates_truthy|].
  rewrite resolveSignerJar_candidates.
  split; [|split].
  - intros path H.
    destruct (List.find (existsSync w) (signerCandidates w)) as [c|] eqn:E;
      [|discriminate].
    injection H as ->. exact (find_first _ _ _ E).
  - intros message H.
    destruct (List.find (existsSync w) (signerCandidates w)) as [c|] eqn:E;
      [discriminate|].
    injection H as <-. split; [exact (find_none _ _ E)|reflexivity].
  - intros path Henv Hne Hex. unfold signerCandidates. rewrite Henv.
    cbn [omap list_omap truthyO]. apply truthy_true in Hne. rewrite Hne.
    cbn [List.find]. rewrite Hex. reflexivity.
Qed.

Lemma missing_signer_stops_the_build w options message :
  resolveSignerJar w = inl message ->
  runAndroidBuild w options = ([Rm (tempDir w)], inl message).
Proof.
  intros H. unfold runAndroidBuild, signStage, finally, bind, lift.
  rewrite H. reflexivity.
Qed.

Lemma find_all_false {A} (p : A -> bool) l :
  Forall (fun c => p c = false) l -> List.find p l = None.
Proof.
  induction 1 as [|y l Hy _ IH]; [reflexivity|].
  cbn [List.find]. rewrite Hy. exact IH.
Qed.

(** X21. When none of the signer's candidate paths exists the build fails
    with the message that lists them, having created no directory, written
    no file and run no command; the only thing it does is the removal of
    its working directory. *)
Theorem missing_signer_fails_before_any_work w options :
  Forall (fun c => existsSync w c = false) (signerCandidates w) ->
  runAndroidBuild w options
  = ([Rm (tempDir w)],
     inl ("APK signer JAR not found. Tried: "
            ++ String.concat ", " (signerCandidates w))%string).
Proof.
  intros Hnone. apply missing_signer_stops_the_build.
  rewrite resolveSignerJar_candidates, (find_all_false _ _ Hnone). reflexivity.
Qed.

Lemma missing_signer_fails_before_any_work_witness :
  signerCandidates Sample2.bareHost
  = ["/opt/signer.jar"; "/srv/app/uber-apk-signer.jar";
     "/srv/app/../uber-apk-signer.jar"]
  /\ runAndroidBuild Sample2.bareHost Sample2.archive
     = ([Rm (tempDir Sample2.bareHost)],
        inl ("APK signer JAR not found. Tried: "
               ++ String.concat ", " (signerCandidates Sample2.bareHost))%string).
Proof.
  split; [vm_compute; reflexivity|].
  apply (missing_signer_fails_before_any_work Sample2.bareHost Sample2.archive).
  vm_compute. repeat constructor.
Defined.

Lemma append_assoc (a b c : string) : ((a ++ b) ++ c = a ++ (b ++ c))%string.
Proof.
  induction a as [|x a IH]; [reflexivity|].
  change (String x ((a ++ b) ++ c) = String x (a ++ (b ++ c)))%string.
  rewrite IH. reflexivity.
Qed.

Lemma append_empty (a : string) : (a ++ "")%string = a.
Proof.
  induction a as [|x a IH]; [reflexivity|].
  change (String x (a ++ "") = String x a)%string.
  rewrite IH. reflexivity.
Qed.

Lemma prefix_append (a b : string) : String.prefix a (a ++ b) = true.
Proof.
  induction a as [|x a IH]; [destruct b; reflexivity|].
  change (String.prefix (String x a) (String x (a ++ b)) = true).
  cbn [String.prefix].
  destruct (ascii_dec x x); [exact IH|congruence].
Qed.

Lemma commands_app l1 l2 :
  commands (l1 ++ l2) = (commands l1 ++ commands l2)%list.
Proof. apply omap_app. Qed.

Lemma commands_cons e l :
  commands (e :: l)
  = match e with Exec command => command :: commands l | _ => commands l end.
Proof. destruct e; reflexivity. Qed.

Ltac run_step := cbn [bind emit lift ret throw fst snd app].

Ltac read_commands H :=
  repeat first [rewrite commands_app | rewrite commands_cons | rewrite H];
  change (commands []) with (@nil string);
  rewrite <- ?app_assoc;
  cbn [app jarPath signedApkPath signedApkName signedApkBuffer];
  rewrite ?app_nil_r; try reflexivity.

Lemma withKeystore_total w options command :
  exists writes command',
    withKeystore w options command = (writes, inr command')
    /\ commands writes = []
    /\ String.prefix command command' = true.
Proof.
  unfold withKeystore.
  destruct (keystore options) as [ks|].
  - destruct (truthyO (alias ks) && truthyO (pass ks)).
    + unfold bind, emit, ret. cbn.
      destruct (truthyO (keyPass ks)); eexists _, _;
        (split; [reflexivity|]); (split; [reflexivity|]).
      * rewrite append_assoc. apply prefix_append.
      * apply prefix_append.
    + eexists _, _. split; [reflexivity|]. split; [reflexivity|].
      rewrite <- (append_empty command) at 2. apply prefix_append.
  - eexists _, _. split; [reflexivity|]. split; [reflexivity|].
    rewrite <- (append_empty command) at 2. apply prefix_append.
Qed.

(** What a build does once the signer is found and the archive opens:
    it stops where staging stops, or runs the signer on the staged binary,
    lists the output directory and verifies the signed file. *)
Lemma runAndroidBuild_stages w options jar zip :
  resolveSignerJar w = inr jar ->
  openZip w (zipBuffer options) = inr zip ->
  let outDir := join w [tempDir w; "out"] in
  let ls := ("ls " ++ outDir)%string in
  let run := runAndroidBuild w options in
  let staged := unsignedApk w zip in
  (exists message,
     snd staged = inl message
     /\ commands (fst run) = commands (fst staged)
     /\ snd run = inl message)
  \/ (exists unsigned command,
        snd staged = inr unsigned
        /\ String.prefix (signCommand jar unsigned outDir options) command = true
        /\ ((commands (fst run) = (commands (fst staged) ++ [command])%list
             /\ exists message, exec w command = inl message
                                /\ snd run = inl message)
            \/ (commands (fst run) = (commands (fst staged) ++ [command; ls])%list
                /\ exists message, snd run = inl message)
            \/ (exists name hash,
                  commands (fst run)
                  = (commands (fst staged)
                       ++ [command; ls;
                           verifyCommand jar (join w [outDir; name])])%list
                  /\ Str.endsWith name ".apk" = true
                  /\ snd run
                     = inr {| apkBuffer := readFile w (join w [outDir; name]);
                              apkName := name;
                              sha256 := hash |}))).
Proof.
  intros Hjar Hzip. cbv zeta.
  unfold runAndroidBuild, signStage, finally, extractSha256.
  rewrite Hjar. run_step. rewrite Hzip. run_step.
  fold (unsignedApk w zip).
  destruct (unsignedApk w zip) as [slog [message|unsigned]]; run_step.
  { left. exists message. split; [reflexivity|].
    split; [|reflexivity].
    repeat first [rewrite commands_cons | rewrite commands_app].
    apply app_nil_r. }
  right.
  destruct (withKeystore_total w options
              (signCommand jar unsigned (join w [tempDir w; "out"]) options))
    as (writes & command & Hks & Hnone & Hpre).
  exists unsigned, command. split; [reflexivity|]. split; [exact Hpre|].
  rewrite Hks. run_step.
  destruct (exec w command) as [message|out] eqn:Hsign; run_step.
  { left. split; [read_commands Hnone|]. exists message. split; reflexivity. }
  right.
  destruct (exec w ("ls " ++ join w [tempDir w; "out"])%string)
    as [message|files] eqn:Hls; run_step.
  { left. split; [read_commands Hnone|]. exists message. reflexivity. }
  destruct (List.find (fun f => Str.endsWith f ".apk")
              (Str.splitLines (Str.trim files))) as [name|] eqn:Hfind; run_step.
  - right. exists name. eexists. split; [read_commands Hnone|].
    split; [|reflexivity].
    apply find_some in Hfind. exact (proj2 Hfind).
  - left. split; [read_commands Hnone|]. eexists. reflexivity.
Qed.


Lemma compileBundle_result w :
  let releaseDir :=
    join w [join w [tempDir w; "android-project"];
            "app/build/outputs/apk/release"] in
  (commands (fst (compileBundle w)) = []
   /\ exists message, snd (compileBundle w) = inl message)
  \/ (commands (fst (compileBundle w)) = [gradleCommand w]
      /\ existsSync w (join w [cwd w; "android-template"]) = true
      /\ truthyO (orElse (env_ANDROID_HOME w) (env_ANDROID_SDK_ROOT w)) = true
      /\ ((exists message, snd (compileBundle w) = inl message)
          \/ (exists out unsignedName,
                exec w (gradleCommand w) = inr out
                /\ Str.endsWith unsignedName ".apk" = true
                /\ snd (compileBundle w)
                   = inr (join w [releaseDir; unsignedName])))).
Proof.
  cbv zeta. unfold compileBundle.
  destruct (existsSync w (join w [cwd w; "android-template"])) eqn:Htemplate;
    cbn [negb]; [|left; split; [reflexivity|eexists; reflexivity]].
  destruct (instantiateTemplate w) as [message|]; run_step;
    [left; split; [reflexivity|eexists; reflexivity]|].
  destruct (truthyO (orElse (env_ANDROID_HOME w) (env_ANDROID_SDK_ROOT w)))
    eqn:Hsdk; cbn [negb]; run_step;
    [|left; split; [reflexivity|eexists; reflexivity]].
  right. fold (gradleCommand w).
  destruct (exec w (gradleCommand w)) as [message|out] eqn:Hgradle; run_step.
  { split; [reflexivity|]. split; [reflexivity|]. split; [reflexivity|].
    left. eexists. reflexivity. }
  destruct (List.find (fun f => Str.endsWith f ".apk") _) as [name|] eqn:Hfind;
    run_step.
  - split; [reflexivity|]. split; [reflexivity|]. split; [reflexivity|].
    right. exists out, name. split; [reflexivity|].
    split; [|reflexivity]. apply find_some in Hfind. exact (proj2 Hfind).
  - split; [reflexivity|]. split; [reflexivity|]. split; [reflexivity|].
    left. eexists. reflexivity.
Qed.


(** X23. A source bundle on a host where neither [ANDROID_HOME] nor
    [ANDROID_SDK_ROOT] is set to a non-empty value is never built: the
    build fails and has run no external command at all, neither Gradle nor
    the signer. *)
Theorem bundle_without_sdk_runs_no_command w options zip :
  openZip w (zipBuffer options) = inr zip ->
  is_Some (getEntry zip "droidforge.bundle.json") ->
  truthyO (env_ANDROID_HOME w) = false ->
  truthyO (env_ANDROID_SDK_ROOT w) = false ->
  commands (fst (runAndroidBuild w options)) = []
  /\ exists message, snd (runAndroidBuild w options) = inl message.
Proof.
  intros Hzip Hentry Hhome Hroot.
  destruct (resolveSignerJar w) as [message|jar] eqn:Hjar.
  { rewrite (missing_signer_stops_the_build w options message Hjar).
    split; [reflexivity|]. eexists. reflexivity. }
  pose proof (runAndroidBuild_stages w options jar zip Hjar Hzip) as H.
  cbv zeta in H. unfold unsignedApk in H.
  rewrite (bool_decide_eq_true_2 _ Hentry) in H.
  destruct (compileBundle_result w) as [[Hnone [message Hfail]]|(_ & _ & Hsdk & _)].
  - rewrite Hfail, Hnone in H.
    destruct H as [(message' & _ & Hcmd & Hrun)|(? & ? & [=] & _)].
    split; [exact Hcmd|]. eexists. exact Hrun.
  - unfold orElse in Hsdk. rewrite Hhome, Hroot in Hsdk. discriminate.
Qed.

Lemma bundle_without_sdk_runs_no_command_witness :
  let w := Sample.host true (inl "exit 1") in
  commands (fst (runAndroidBuild w Sample2.archive)) = []
  /\ exists message, snd (runAndroidBuild w Sample2.archive) = inl message.
Proof.
  cbv zeta.
  apply (bundle_without_sdk_runs_no_command (Sample.host true (inl "exit 1"))
           Sample2.archive [("droidforge.bundle.json", [])] eq_refl);
    [eexists; reflexivity|reflexivity|reflexivity].
Defined.




(** ** The hash pattern *)

Lemma matchSHA256_cons a s :
  Str.matchSHA256 (String a s)
  = if String.prefix "SHA256: " (String a s)
    then match Str.takeWhile Str.isHashChar (Str.dropChars 8 (String a s)) with
         | EmptyString => Str.matchSHA256 s
         | captured => Some captured
         end
    else Str.matchSHA256 s.
Proof. reflexivity. Qed.

Lemma prefix_dropChars p s :
  String.prefix p s = true -> s = (p ++ Str.dropChars (String.length p) s)%string.
Proof.
  revert s. induction p as [|x p IH]; intros s H; [reflexivity|].
  destruct s as [|y s]; [discriminate|]. cbn [String.prefix] in H.
  destruct (ascii_dec x y) as [->|]; [|discriminate].
  change (String y s = String y (p ++ Str.dropChars (String.length p) s)%string).
  rewrite <- (IH s H). reflexivity.
Qed.

Lemma takeWhile_split p s :
  exists rest,
    s = (Str.takeWhile p s ++ rest)%string
    /\ (rest = "" \/ exists c rest', rest = String c rest' /\ p c = false).
Proof.
  induction s as [|x s (rest & Hs & Hrest)].
  - exists "". split; [reflexivity|left; reflexivity].
  - cbn [Str.takeWhile]. destruct (p x) eqn:E.
    + exists rest. split; [|exact Hrest].
      change (String x s = String x (Str.takeWhile p s ++ rest)%string).
      rewrite <- Hs. reflexivity.
    + exists (String x s). split; [reflexivity|].
      right. exists x, s. split; [reflexivity|exact E].
Qed.

Lemma takeWhile_all p s c :
  In c (list_ascii_of_string (Str.takeWhile p s)) -> p c = true.
Proof.
  induction s as [|x s IH]; [intros []|].
  cbn [Str.takeWhile]. destruct (p x) eqn:E; [|intros []].
  cbn [list_ascii_of_string]. intros [<-|H]; [exact E|exact (IH H)].
Qed.

Lemma matchSHA256_found s captured :
  Str.matchSHA256 s = Some captured ->
  captured <> ""
  /\ (forall c, In c (list_ascii_of_string captured) -> Str.isHashChar c = true)
  /\ exists before after,
       s = (before ++ "SHA256: " ++ captured ++ after)%string
       /\ (after = ""
           \/ exists c rest, after = String c rest /\ Str.isHashChar c = false).
Proof.
  induction s as [|a s IH]; [discriminate|].
  rewrite matchSHA256_cons.
  assert (Hrec : Str.matchSHA256 s = Some captured ->
                 captured <> ""
                 /\ (forall c, In c (list_ascii_of_string captured) ->
                       Str.isHashChar c = true)
                 /\ exists before after,
                      String a s = (before ++ "SHA256: " ++ captured ++ after)%string
                      /\ (after = ""
                          \/ exists c rest, after = String c rest
                                            /\ Str.isHashChar c = false)).
  { intros H. destruct (IH H) as (Hne & Hall & before & after & Hs & Hafter).
    split; [exact Hne|]. split; [exact Hall|].
    exists (String a before), after. split; [|exact Hafter].
    change (String a s
            = String a (before ++ "SHA256: " ++ captured ++ after)%string).
    rewrite <- Hs. reflexivity. }
  destruct (String.prefix "SHA256: " (String a s)) eqn:Hpre; [|exact Hrec].
  destruct (Str.takeWhile Str.isHashChar (Str.dropChars 8 (String a s)))
    as [|c cs] eqn:Htake; [exact Hrec|].
  intros [= <-]. split; [discriminate|].
  split; [intros c' Hc'; rewrite <- Htake in Hc'; exact (takeWhile_all _ _ _ Hc')|].
  destruct (takeWhile_split Str.isHashChar (Str.dropChars 8 (String a s)))
    as (rest & Hsplit & Hrest).
  exists "", rest. split; [|exact Hrest].
  rewrite <- Htake.
  change ("" ++ "SHA256: "
             ++ Str.takeWhile Str.isHashChar (Str.dropChars 8 (String a s))
             ++ rest)%string
    with ("SHA256: "
            ++ (Str.takeWhile Str.isHashChar (Str.dropChars 8 (String a s))
                  ++ rest))%string.
  rewrite <- Hsplit. exact (prefix_dropChars "SHA256: " (String a s) Hpre).
Qed.

Lemma matchSHA256_finds before c after :
  Str.isHashChar c = true ->
  is_Some (Str.matchSHA256 (before ++ "SHA256: " ++ String c after)%string).
Proof.
  intros Hc. induction before as [|x before IH].
  - change ("" ++ "SHA256: " ++ String c after)%string
      with (String "S" ("HA256: " ++ String c after)%string).
    rewrite matchSHA256_cons.
    change (String.prefix "SHA256: " (String "S" ("HA256: " ++ String c after)))
      with true.
    change (Str.dropChars 8 (String "S" ("HA256: " ++ String c after)))
      with (String c after).
    cbn [Str.takeWhile]. rewrite Hc. eexists. reflexivity.
  - change (String x before ++ "SHA256: " ++ String c after)%string
      with (String x (before ++ "SHA256: " ++ String c after)%string).
    rewrite matchSHA256_cons.
    destruct (String.prefix _ _); [|exact IH].
    destruct (Str.takeWhile _ _); [exact IH|eexists; reflexivity].
Qed.

(** X25. The hash pattern finds a match exactly in a report that holds
    the text [SHA256: ] followed by a hexadecimal digit, a colon or a
    space; what it captures is then not empty, made of such characters
    only, stands right after an occurrence of [SHA256: ] and runs as far
    as such characters go. *)
Theorem hash_pattern_matches_first_digest s :
  (is_Some (Str.matchSHA256 s)
   <-> exists before c after,
         s = (before ++ "SHA256: " ++ String c after)%string
         /\ Str.isHashChar c = true)
  /\ (forall captured, Str.matchSHA256 s = Some captured ->
        captured <> ""
        /\ (forall c, In c (list_ascii_of_string captured) ->
              Str.isHashChar c = true)
        /\ exists before after,
             s = (before ++ "SHA256: " ++ captured ++ after)%string
             /\ (after = ""
                 \/ exists c rest, after = String c rest
                                   /\ Str.isHashChar c = false)).
Proof.
  split; [|apply matchSHA256_found].
  split.
  - intros [captured H].
    destruct (matchSHA256_found s captured H)
      as (Hne & Hall & before & after & Hs & _).
    destruct captured as [|c cs]; [congruence|].
    exists before, c, (cs ++ after)%string. split; [exact Hs|].
    apply Hall. left. reflexivity.
  - intros (before & c & after & -> & Hc). apply matchSHA256_finds. exact Hc.
Qed.

(** ** The hash a build reports *)

Lemma In_append_chars a b c :
  In c (list_ascii_of_string (a ++ b))
  <-> In c (list_ascii_of_string a) \/ In c (list_ascii_of_string b).
Proof.
  induction a as [|x a IH]; [cbn; tauto|].
  change (String x a ++ b)%string with (String x (a ++ b)%string).
  cbn [list_ascii_of_string In]. rewrite IH. tauto.
Qed.

Lemma In_rev_chars s c :
  In c (list_ascii_of_string (Str.rev s)) <-> In c (list_ascii_of_string s).
Proof.
  induction s as [|x s IH]; [reflexivity|].
  cbn [Str.rev]. rewrite In_append_chars, IH. cbn [list_ascii_of_string In].
  tauto.
Qed.

Lemma In_trimStart_chars s c :
  In c (list_ascii_of_string (Str.trimStart s)) -> In c (list_ascii_of_string s).
Proof.
  induction s as [|x s IH]; [intros []|].
  cbn [Str.trimStart]. destruct (Str.isSpace x); [|tauto].
  intros H. right. exact (IH H).
Qed.

Lemma In_trim_chars s c :
  In c (list_ascii_of_string (Str.trim s)) -> In c (list_ascii_of_string s).
Proof.
  unfold Str.trim. intros H.
  apply In_rev_chars, In_trimStart_chars, In_rev_chars, In_trimStart_chars in H.
  exact H.
Qed.

(** X26. The hash a successful build reports is the word [Unknown], or
    it holds nothing but hexadecimal digits, colons and spaces (possibly
    nothing at all), whatever the verification run printed. *)
Theorem reported_hash_is_digest_or_unknown w options result :
  snd (runAndroidBuild w options) = inr result ->
  sha256 result = "Unknown"
  \/ (forall c, In c (list_ascii_of_string (sha256 result)) ->
        Str.isHashChar c = true).
Proof.
  intros Hok.
  destruct (signStage w options) as [log [message|signed]] eqn:Hsigned.
  { unfold runAndroidBuild, finally, bind in Hok. rewrite Hsigned in Hok.
    discriminate. }
  rewrite (RunnerFacts.runAndroidBuild_after_signing w options log signed Hsigned)
    in Hok.
  injection Hok as <-. cbn [sha256].
  destruct (exec w _) as [|stdout]; [left; reflexivity|].
  destruct (Str.matchSHA256 stdout) as [captured|] eqn:Hm; [|left; reflexivity].
  right. intros c Hc. apply In_trim_chars in Hc.
  destruct (matchSHA256_found stdout captured Hm) as (_ & Hall & _).
  exact (Hall c Hc).
Qed.

Lemma reported_hash_is_digest_or_unknown_witness :
  let result := {| apkBuffer := [Byte.x50; Byte.x4b];
                   apkName := "input-aligned-debugSigned.apk";
                   sha256 := "ab:cd:ef" |} in
  snd (runAndroidBuild Sample2.okHost Sample2.archive) = inr result
  /\ (sha256 result = "Unknown"
      \/ (forall c, In c (list_ascii_of_string (sha256 result)) ->
            Str.isHashChar c = true)).
Proof.
  cbv zeta.
  assert (Hok : snd (runAndroidBuild Sample2.okHost Sample2.archive)
                = inr {| apkBuffer := [Byte.x50; Byte.x4b];
                         apkName := "input-aligned-debugSigned.apk";
                         sha256 := "ab:cd:ef" |})
    by (vm_compute; reflexivity).
  split; [exact Hok|].
  exact (reported_hash_is_digest_or_unknown Sample2.okHost Sample2.archive _ Hok).
Defined.

End RunnerExtras.

(* ===================================================================== *)
(** * Properties of the routes *)
(* ===================================================================== *)

Module ApiFacts.
Import Quota Queue QueueMore Api.

Section WithRuntime.

Variable toISOString : Z -> string.
Variable parseDate : string -> Z.
Variable parseBuildSettings : Buffer -> option BuildSettingsMeta.

Local Abbreviation consumeQuota := (Quota.consumeQuota toISOString parseDate).
Local Abbreviation queueBuild :=
  (Api.queueBuild toISOString parseDate parseBuildSettings).
Local Abbreviation convert := (Api.convert toISOString parseDate).

Lemma Server_eta sv : {| usage := usage sv; builds := builds sv |} = sv.
Proof. destruct sv. reflexivity. Qed.



Lemma consumeQuota_no_address clock params usage0 :
  orEmpty (ip params) = "" ->
  reason (fst (consumeQuota clock params usage0)) <> Some "ip-rate-limit"
  /\ forall i key,
       getIpHourlyCount (snd (consumeQuota clock params usage0)) i key
       = getIpHourlyCount usage0 i key.
Proof.
  intros Hip. split.
  - unfold Quota.consumeQuota. rewrite Hip.
    change (getIpHourlyCount usage0 "" _) with 0.
    change (IP_HOURLY_LIMIT <=? 0) with false. cbv iota.
    destruct (match getLimitForPlan (plan params) with
              | Some l => _ | None => false end); cbn [fst reason];
      discriminate.
  - intros i key. destruct i as [|c i]; [reflexivity|].
    apply QuotaExtras.consumeQuota_ip_frame. rewrite Hip.
    intros [_ [=]].
Qed.


End WithRuntime.


(** X30. In every state a run can reach, the artifact route answers
    [Job not found] for an unknown id, [Artifact not available] for a job
    that is not completed, and for a completed job the stored file, whose
    length is the size announced beside it; it never has to answer
    [Artifact missing on disk]. *)
Theorem artifact_download_serves_stored_bytes s jobId :
  reachable s ->
  let resp := getArtifact false jobId (store s) in
  body resp <> Error "Artifact missing on disk"
  /\ match getJob jobId (jobs (store s)) with
     | None => resp = {| code := 404; body := Error "Job not found" |}
     | Some job =>
         (status job <> completed ->
          resp = {| code := 404; body := Error "Artifact not available" |})
         /\ (status job = completed ->
             exists a bytes,
               artifact job = Some a
               /\ artifactFile (store s) (jobId, name a) = Some bytes
               /\ artifact_size a = Z.of_nat (length bytes)
               /\ resp = {| code := 200;
                            body := Apk bytes (name a) (artifact_size a)
                                      (sha256 a) |})
     end.
Proof.
  intros Hreach. cbv zeta. unfold getArtifact.
  destruct (QueueFacts.reachable_invariant s Hreach) as (_ & Hcons & _).
  destruct (QueueExtras.reachable_diskInvariant s Hreach) as [Hjobs _].
  destruct (getJob jobId (jobs (store s))) as [job|] eqn:Hget;
    [|split; [discriminate|reflexivity]].
  destruct (QueueFacts.getJob_Some _ _ _ Hget) as [Hin <-].
  destruct (Hcons job Hin) as [Hart _].
  destruct (Hjobs job Hin) as [_ [Hdisk _]].
  destruct (artifact job) as [a|] eqn:Ha.
  - assert (Hdone : status job = completed) by (apply Hart; eauto).
    destruct (Hdisk Hdone) as (_ & a' & bytes & Ha' & Hfile & Hsize).
    injection Ha' as <-.
    unfold getArtifactPath. rewrite Ha. cbn [mbind option_bind].
    rewrite Hfile. cbn [body].
    split; [discriminate|]. split; [congruence|].
    intros _. exists a, bytes. repeat split; assumption.
  - cbn [body]. split; [discriminate|]. split; [reflexivity|].
    intros Hdone. apply Hart in Hdone. destruct Hdone as [? [=]].
Qed.

Lemma artifact_download_serves_stored_bytes_witness :
  reachable Sample2.s5
  /\ getArtifact false "job-7" (store Sample2.s5)
     = {| code := 200;
          body := Apk [Byte.x50; Byte.x4b] "input-aligned-debugSigned.apk" 2
                    "ab:cd:ef" |}
  /\ let resp := getArtifact false "job-8" (store Sample2.s5) in
     body resp <> Error "Artifact missing on disk"
     /\ match getJob "job-8" (jobs (store Sample2.s5)) with
        | None => resp = {| code := 404; body := Error "Job not found" |}
        | Some job =>
            (status job <> completed ->
             resp = {| code := 404; body := Error "Artifact not available" |})
            /\ (status job = completed ->
                exists a bytes,
                  artifact job = Some a
                  /\ artifactFile (store Sample2.s5) ("job-8", name a)
                     = Some bytes
                  /\ artifact_size a = Z.of_nat (length bytes)
                  /\ resp = {| code := 200;
                               body := Apk bytes (name a) (artifact_size a)
                                         (sha256 a) |})
        end.
Proof.
  split; [exact QueueExtras.sample2_reachable|].
  split; [vm_compute; reflexivity|].
  exact (artifact_download_serves_stored_bytes Sample2.s5 "job-8"
           QueueExtras.sample2_reachable).
Defined.

End ApiFacts.
